(** * HRAssistant front end: the card factory and the page controller

  A shallow embedding of [src/frontend/cards.js]: the expandable card
  component ([toggleExpanded], [makeCard]) and the page controller that
  renders jobs and candidates with it ([fetchJobs], [loadJobs],
  [ensureSearchJobs], [escapeHtml], the card hooks and button handlers).

  The DOM is a finite tree of nodes; an element reference held by the
  script is the path of that element below the node the script started
  from.  The objects the script mutates (the card root, the job and
  candidate records, the select box) are threaded explicitly. *)

From Stdlib Require Import String Ascii List ZArith Bool Lia PeanoNat.
From Stdlib Require Import DecimalString.
Import ListNotations.
Open Scope string_scope.

(* ------------------------------------------------------------------ *)
(** ** JavaScript values *)

Module Js.

(** Strings are kept as their UTF-8 bytes.

    The integers a number holds exactly, those of magnitude up to
    2^53 - 1.  [String] prints each of them with all its digits, which it
    does for every number below 10^21 and for none from there on. *)
Definition maxSafeInteger : Z := 9007199254740991.

Record SafeInteger := mkSafe {
  integer : Z;
  integer_safe : (Z.abs integer <=? maxSafeInteger)%Z = true
}.

(** The values the script handles as identifiers and flags.  Numbers are
    kept to NaN and the safe integers (the two zeros are one here: both
    are falsy and print as 0); there are no objects. *)
Inductive Value :=
| VUndefined
| VNull
| VBool (b : bool)
| VNum (n : SafeInteger)
| VNaN
| VStr (s : string).

(** ToBoolean: [!v] is [negb (truthy v)]. *)
Definition truthy (v : Value) : bool :=
  match v with
  | VUndefined | VNull | VNaN => false
  | VBool b => b
  | VNum n => negb (Z.eqb (integer n) 0)
  | VStr s => negb (String.eqb s "")
  end.

(** [String(v)]. *)
Definition ToString (v : Value) : string :=
  match v with
  | VUndefined => "undefined"
  | VNull => "null"
  | VBool true => "true"
  | VBool false => "false"
  | VNum n => NilZero.string_of_int (Z.to_int (integer n))
  | VNaN => "NaN"
  | VStr s => s
  end.

(** [a || b]. *)
Definition or_else (a b : Value) : Value := if truthy a then a else b.

(** The outcome of a call: a returned value or a thrown exception. *)
Inductive result (A : Type) :=
| Ok (a : A)
| Throw (message : string).
Arguments Ok {A} a.
Arguments Throw {A} message.

End Js.

(* ------------------------------------------------------------------ *)
(** ** The DOM tree *)

Module Dom.

(** What an element carries besides its children.  [classList] is the
    token list of the class attribute, kept apart from the other
    attributes; [value] is the current value of a form control. *)
Record Elem := mkElem {
  tagName : string;
  classList : list string;
  attributes : list (string * string);
  value : string
}.

#[warnings="-register-all"]
Inductive Node :=
| Text (data : string)
| El (e : Elem) (childNodes : list Node).

(** A reference to a descendant: the child indices from the node down. *)
Definition path := list nat.

(** [document.createElement(tag)]. *)
Definition createElement (tag : string) : Node :=
  El (mkElem tag [] [] "") [].

(** *** Element data *)

Definition contains (c : string) (cl : list string) : bool :=
  existsb (String.eqb c) cl.

(** [classList.add(c)] *)
Definition add (c : string) (cl : list string) : list string :=
  if contains c cl then cl else cl ++ [c].

(** [classList.remove(c)] *)
Definition remove (c : string) (cl : list string) : list string :=
  filter (fun x => negb (String.eqb c x)) cl.

Fixpoint lookup (a : string) (l : list (string * string)) : option string :=
  match l with
  | [] => None
  | (k, v) :: l' => if String.eqb a k then Some v else lookup a l'
  end.

Fixpoint store (a v : string) (l : list (string * string))
  : list (string * string) :=
  match l with
  | [] => [(a, v)]
  | (k, w) :: l' => if String.eqb a k then (k, v) :: l' else (k, w) :: store a v l'
  end.

Definition erase (a : string) (l : list (string * string))
  : list (string * string) :=
  filter (fun kv => negb (String.eqb a (fst kv))) l.

(** The class attribute that a token list stands for: the tokens with
    one space between them.  An element without tokens is taken to have
    no class attribute. *)
Definition className (cl : list string) : option string :=
  match cl with
  | [] => None
  | _ :: _ => Some (String.concat " " cl)
  end.

(** The attribute [a] of an element, [None] when it has none. *)
Definition attribute (a : string) (e : Elem) : option string :=
  if String.eqb a "class" then className (classList e)
  else lookup a (attributes e).

Definition withClasses (f : list string -> list string) (e : Elem) : Elem :=
  mkElem (tagName e) (f (classList e)) (attributes e) (value e).

Definition withAttributes
  (f : list (string * string) -> list (string * string)) (e : Elem) : Elem :=
  mkElem (tagName e) (classList e) (f (attributes e)) (value e).

Definition withValue (v : string) (e : Elem) : Elem :=
  mkElem (tagName e) (classList e) (attributes e) v.

(** *** Nodes *)

Definition mapElem (f : Elem -> Elem) (n : Node) : Node :=
  match n with
  | Text s => Text s
  | El e ks => El (f e) ks
  end.

Definition elem (n : Node) : option Elem :=
  match n with
  | Text _ => None
  | El e _ => Some e
  end.

Definition children (n : Node) : list Node :=
  match n with
  | Text _ => []
  | El _ ks => ks
  end.

(** [n.className = c] for a single token. *)
Definition setClassName (c : string) (n : Node) : Node :=
  mapElem (withClasses (fun _ => [c])) n.

Definition classList_contains (c : string) (n : Node) : bool :=
  match n with
  | Text _ => false
  | El e _ => contains c (classList e)
  end.

Definition classList_add (c : string) (n : Node) : Node :=
  mapElem (withClasses (add c)) n.

Definition classList_remove (c : string) (n : Node) : Node :=
  mapElem (withClasses (remove c)) n.

(** [n.setAttribute(a, v)] and [n.removeAttribute(a)], for an attribute
    other than class. *)
Definition setAttribute (a v : string) (n : Node) : Node :=
  mapElem (withAttributes (store a v)) n.

Definition removeAttribute (a : string) (n : Node) : Node :=
  mapElem (withAttributes (erase a)) n.

Definition getAttribute (a : string) (n : Node) : option string :=
  match n with
  | Text _ => None
  | El e _ => attribute a e
  end.

(** [parent.appendChild(child)] *)
Definition appendChild (parent child : Node) : Node :=
  match parent with
  | Text s => Text s
  | El e ks => El e (ks ++ [child])
  end.

(** [n.textContent]: the text of the descendants, in document order. *)
Fixpoint textContent (n : Node) : string :=
  match n with
  | Text s => s
  | El _ ks =>
      (fix cat (l : list Node) : string :=
         match l with
         | [] => ""
         | k :: l' => textContent k ++ cat l'
         end) ks
  end.


(** [n.textContent = s]: the children are replaced by one text node, or
    by nothing when [s] is empty. *)
Definition setTextContent (s : string) (n : Node) : Node :=
  match n with
  | Text _ => Text s
  | El e _ => El e (if String.eqb s "" then [] else [Text s])
  end.

(** The children of [n] replaced, as by an [innerHTML] assignment whose
    markup parses to [ks]. *)
Definition setChildren (ks : list Node) (n : Node) : Node :=
  match n with
  | Text s => Text s
  | El e _ => El e ks
  end.

(** *** Paths *)

Fixpoint replaceNth {A} (i : nat) (x : A) (l : list A) : list A :=
  match l, i with
  | [], _ => []
  | _ :: l', O => x :: l'
  | y :: l', S i' => y :: replaceNth i' x l'
  end.

Fixpoint getAt (p : path) (n : Node) : option Node :=
  match p with
  | [] => Some n
  | i :: p' =>
      match nth_error (children n) i with
      | Some k => getAt p' k
      | None => None
      end
  end.

(** The node at [p] replaced by its image under [f]; nothing changes when
    [p] leads nowhere. *)
Fixpoint updateAt (p : path) (f : Node -> Node) (n : Node) : Node :=
  match p with
  | [] => f n
  | i :: p' =>
      match n with
      | Text s => Text s
      | El e ks =>
          match nth_error ks i with
          | Some k => El e (replaceNth i (updateAt p' f k) ks)
          | None => n
          end
      end
  end.

(** *** Selectors *)

Inductive Selector :=
| ByClass (c : string)            (* .c *)
| ByAttr (a : string)             (* [a] *)
| ByAttrValue (a v : string).     (* [a="v"] *)

Definition matches (sel : Selector) (n : Node) : bool :=
  match n with
  | Text _ => false
  | El e _ =>
      match sel with
      | ByClass c => contains c (classList e)
      | ByAttr a => match attribute a e with Some _ => true | None => false end
      | ByAttrValue a v =>
          match attribute a e with
          | Some w => String.eqb w v
          | None => false
          end
      end
  end.

Definition below (i : nat) (p : path) : path := i :: p.

Definition shift (p : path) : path :=
  match p with
  | [] => []
  | i :: p' => S i :: p'
  end.

(** [n.querySelector(sel)]: the first descendant of [n], in document
    order, that matches; [n] itself is not a candidate. *)
Fixpoint querySelector (sel : Selector) (n : Node) : option path :=
  match n with
  | Text _ => None
  | El _ ks =>
      (fix first (l : list Node) : option path :=
         match l with
         | [] => None
         | k :: l' =>
             if matches sel k then Some [0%nat]
             else match querySelector sel k with
                  | Some p => Some (below 0 p)
                  | None => option_map shift (first l')
                  end
         end) ks
  end.

(** [n.querySelectorAll(sel)]: the descendants of [n] that match, in
    document order. *)
Fixpoint querySelectorAll (sel : Selector) (n : Node) : list path :=
  match n with
  | Text _ => []
  | El _ ks =>
      (fix each (i : nat) (l : list Node) : list path :=
         match l with
         | [] => []
         | k :: l' =>
             ((if matches sel k then [[i]] else [])
              ++ map (below i) (querySelectorAll sel k) ++ each (S i) l')%list
         end) 0%nat ks
  end.

(** [base.querySelector(sel)] for an element [base] of the tree [n]; the
    result is again a reference into [n]. *)
Definition querySelectorFrom (base : path) (sel : Selector) (n : Node)
  : option path :=
  match getAt base n with
  | Some b => option_map (app base) (querySelector sel b)
  | None => None
  end.

(** The [disabled] property reflects the attribute of that name. *)
Definition disabled (n : Node) : bool :=
  match getAttribute "disabled" n with
  | Some _ => true
  | None => false
  end.

Definition setDisabled (b : bool) (n : Node) : Node :=
  if b then setAttribute "disabled" "" n else removeAttribute "disabled" n.

(** The [value] property of a form control. *)
Definition valueOf (n : Node) : string :=
  match n with
  | Text _ => ""
  | El e _ => value e
  end.

(** Markup as the parser builds it. *)
Definition el (tag : string) (cls : list string)
  (attrs : list (string * string)) (ks : list Node) : Node :=
  El (mkElem tag cls attrs "") ks.

Definition control (tag : string) (attrs : list (string * string))
  (v : string) (ks : list Node) : Node :=
  El (mkElem tag [] attrs v) ks.

(** Character data between tags; there is no empty text node. *)
Definition text (s : string) : list Node :=
  if String.eqb s "" then [] else [Text s].

End Dom.

(* ------------------------------------------------------------------ *)
(** ** The card factory (cards.js, lines 1-96) *)

Module HRCard.
Import Js Dom.

(** [toggleExpanded(root, expanded)]: the lookups of body and footer have
    no effect and are left out. *)
Definition toggleExpanded (root : Node) (expanded : bool) : Node :=
  let header := querySelector (ByClass "card-header") root in
  if expanded then
    classList_add "expanded" root
  else
    let root := classList_remove "expanded" root in
    match header with
    | Some h => updateAt h (setAttribute "aria-expanded" "false") root
    | None => root
    end.

(** [root.classList.contains('expanded')] *)
Definition isExpanded (root : Node) : bool :=
  classList_contains "expanded" root.

(** The value of [aria-expanded] on the element that
    [root.querySelector('.card-header')] finds, if any. *)
Definition ariaExpanded (root : Node) : option string :=
  match querySelector (ByClass "card-header") root with
  | Some h =>
      match getAt h root with
      | Some n => getAttribute "aria-expanded" n
      | None => None
      end
  | None => None
  end.

Inductive HookName := OnInit | OnExpand | OnCollapse.

(** One invocation of a hook: which one, and the two arguments it got. *)
Record Call := mkCall {
  call_hook : HookName;
  call_id : Value;
  call_root : Node
}.

(** What a key or mouse event on the header carries. *)
Inductive HeaderEvent :=
| Click
| KeyDown (key : string).

Section Factory.

(** The state outside the card that the hooks of the caller read and
    write. *)
Variable World : Type.

(** How a call of a hook ends: it returns, or it throws.  Either way it
    has left the root it was handed and the world around it as the pair
    says. *)
Inductive Completion :=
| Returns (left : Node * World)
| Throws (exception : string) (left : Node * World).

Definition leaves (c : Completion) : Node * World :=
  match c with
  | Returns l => l
  | Throws _ l => l
  end.

Definition exception (c : Completion) : option string :=
  match c with
  | Returns _ => None
  | Throws e _ => Some e
  end.

(** A hook is caller code run with [(id, root)]: it may mutate the root it
    is handed and the world around it, and it may throw. *)
Definition Hook := Value -> Node -> World -> Completion.

(** The argument of [makeCard].  A hook field holds [Some f] when
    [typeof] of the field is ['function'] and [None] otherwise. *)
Record Config := mkConfig {
  id : Value;
  onInit : option Hook;
  onExpand : option Hook;
  onCollapse : option Hook;
  initiallyExpanded : Value
}.

(** [{}], the default of the parameter. *)
Definition emptyConfig : Config :=
  mkConfig VUndefined None None None VUndefined.

(** The card, the world, and the record of the hook invocations so far
    (the record is kept for the proofs; the script has none). *)
Record State := mkState {
  root : Node;
  world : World;
  calls : list Call
}.

(** How a step of the factory ends: what it threw, if it threw, and the
    state it left. *)
Record Ended := mkEnded {
  raised : option string;
  after : State
}.

(** [if (typeof h === 'function') h(id, root)] *)
Definition fire (name : HookName) (h : option Hook) (i : Value) (st : State)
  : Ended :=
  match h with
  | Some f =>
      let c := f i (root st) (world st) in
      mkEnded (exception c)
        (mkState (fst (leaves c)) (snd (leaves c))
           (calls st ++ [mkCall name i (root st)]))
  | None => mkEnded None st
  end.

Definition onRoot (f : Node -> Node) (st : State) : State :=
  mkState (f (root st)) (world st) (calls st).

Variable cfg : Config.

Definition doExpand (st : State) : Ended :=
  let st := onRoot (fun r => toggleExpanded r true) st in
  fire OnExpand (onExpand cfg) (id cfg) st.

Definition doCollapse (st : State) : Ended :=
  let st := onRoot (fun r => toggleExpanded r false) st in
  fire OnCollapse (onCollapse cfg) (id cfg) st.

Definition onToggle (st : State) : Ended :=
  let isNowExpanded := negb (isExpanded (root st)) in
  if isNowExpanded then doExpand st else doCollapse st.

(** The two listeners of the header.  What a listener throws is reported
    by the browser and goes no further: the card is as the listener left
    it. *)
Definition dispatch (ev : HeaderEvent) (st : State) : State :=
  match ev with
  | Click => after (onToggle st)
  | KeyDown key =>
      if (String.eqb key "Enter" || String.eqb key " ")%bool
      then after (onToggle st)
      else st
  end.

Definition run (evs : list HeaderEvent) (st : State) : State :=
  fold_left (fun s ev => dispatch ev s) evs st.

(** The root as composed before any hook runs (lines 26-50). *)
Definition freshRoot (i : Value) : Node :=
  let root := createElement "div" in
  let root := setClassName "card" root in
  let root := setAttribute "data-card-id" (ToString i) root in
  let header := createElement "div" in
  let header := setClassName "card-header" header in
  let header := setAttribute "role" "button" header in
  let header := setAttribute "aria-expanded" "false" header in
  let header := setAttribute "tabindex" "0" header in
  let body := createElement "div" in
  let body := setClassName "card-body" body in
  let footer := createElement "div" in
  let footer := setClassName "card-footer" footer in
  let root := appendChild root header in
  let root := appendChild root body in
  let root := appendChild root footer in
  root.

(** [makeCard(cfg)], called in world [w] with the call record [log].
    What a hook throws while the card is made leaves [makeCard] with
    it. *)
Definition makeCard (w : World) (log : list Call) : result State :=
  if negb (truthy (id cfg)) then Throw "makeCard: `id` is required"
  else
    let st := mkState (freshRoot (id cfg)) w log in
    (* Init once: didInit is false here and nowhere else *)
    let init := fire OnInit (onInit cfg) (id cfg) st in
    match raised init with
    | Some e => Throw e
    | None =>
        let st := after init in
        (* Initial state; the parameter defaults to false *)
        let initially :=
          match initiallyExpanded cfg with
          | VUndefined => VBool false
          | v => v
          end in
        if truthy initially then
          let expanded := doExpand st in
          match raised expanded with
          | Some e => Throw e
          | None => Ok (after expanded)
          end
        else Ok (onRoot (fun r => toggleExpanded r false) st)
    end.

End Factory.

Arguments Returns {World}.
Arguments Throws {World}.
Arguments leaves {World}.
Arguments exception {World}.
Arguments mkConfig {World}.
Arguments mkState {World}.
Arguments mkEnded {World}.
Arguments raised {World}.
Arguments after {World}.
Arguments root {World}.
Arguments world {World}.
Arguments calls {World}.
Arguments id {World}.
Arguments onInit {World}.
Arguments onExpand {World}.
Arguments onCollapse {World}.
Arguments initiallyExpanded {World}.
Arguments fire {World}.
Arguments onRoot {World}.
Arguments doExpand {World}.
Arguments doCollapse {World}.
Arguments onToggle {World}.
Arguments dispatch {World}.
Arguments run {World}.
Arguments makeCard {World}.
Arguments freshRoot : clear implicits.

(** *** Vocabulary of the statements about cards *)

(** The events that reach [onToggle]: a click, and the Enter and Space
    keys. *)
Definition activates (ev : HeaderEvent) : bool :=
  match ev with
  | Click => true
  | KeyDown key => (String.eqb key "Enter" || String.eqb key " ")%bool
  end.

(** The class list of the root, when the root is an element. *)
Definition rootClasses (r : Node) : option (list string) :=
  option_map classList (elem r).

(** Hooks that leave the class list of the root as it is, whether they
    return or throw. *)
Definition keepsClasses {W : Type} (h : Hook W) : Prop :=
  forall i r w, rootClasses (fst (leaves (h i r w))) = rootClasses r.

(** Hooks that leave the header and its [aria-expanded] as they are. *)
Definition keepsFlag {W : Type} (h : Hook W) : Prop :=
  forall i r w, ariaExpanded (fst (leaves (h i r w))) = ariaExpanded r.

Definition hooksOf {W : Type} (cfg : Config W) : list (option (Hook W)) :=
  [onInit cfg; onExpand cfg; onCollapse cfg].

Definition allHooks {W : Type} (P : Hook W -> Prop) (cfg : Config W) : Prop :=
  forall h, In (Some h) (hooksOf cfg) -> P h.

Definition sameHook (a b : HookName) : bool :=
  match a, b with
  | OnInit, OnInit | OnExpand, OnExpand | OnCollapse, OnCollapse => true
  | _, _ => false
  end.

(** How often the hook [name] was invoked in [log]. *)
Definition fired (name : HookName) (log : list Call) : nat :=
  List.length (filter (fun c => sameHook (call_hook c) name) log).

(** Whether the card starts expanded: [initiallyExpanded], false when
    left out. *)
Definition startsExpanded {W : Type} (cfg : Config W) : bool :=
  match initiallyExpanded cfg with
  | VUndefined => false
  | v => truthy v
  end.

(** The configuration with one hook replaced. *)
Definition withOnInit {W : Type} (h : option (Hook W)) (cfg : Config W)
  : Config W :=
  mkConfig (id cfg) h (onExpand cfg) (onCollapse cfg) (initiallyExpanded cfg).



(** What a call of the hook [h], if it is a function, leaves of the root
    [r] and the world [w]: the hook applied once. *)
Definition applied {W : Type} (h : option (Hook W)) (i : Value) (r : Node)
  (w : W) : Node * W :=
  match h with
  | Some f => leaves (f i r w)
  | None => (r, w)
  end.

(** What a call of the hook [h] throws, if it is a function and
    throws. *)
Definition thrown {W : Type} (h : option (Hook W)) (i : Value) (r : Node)
  (w : W) : option string :=
  match h with
  | Some f => exception (f i r w)
  | None => None
  end.


(** What succeeding for every truthy [id] would say of a
    configuration. *)
Definition succeedsWithId {W : Type} (cfg : Config W) : Prop :=
  forall w log,
    truthy (id cfg) = true -> exists st, makeCard cfg w log = Ok st.

(** An example: three hooks that count their invocations, in a world
    that is the count. *)
Definition tick : Hook nat := fun _ r w => Returns (r, S w).

Definition countingConfig : Config nat :=
  mkConfig (VStr "job-1") (Some tick) (Some tick) (Some tick) VUndefined.

(** The card that [makeCard] returns for it, and that card expanded by
    a click on its header. *)
Definition countingCard : State nat :=
  match makeCard countingConfig 0 [] with
  | Ok st => st
  | Throw _ => mkState (Text "") 0 []
  end.





(** An [onInit] that throws, [() => { throw new Error('no') }]. *)
Definition failing : Hook nat := fun _ r w => Throws "no" (r, w).

Definition faultyConfig : Config nat :=
  mkConfig (VStr "job-1") (Some failing) None None VUndefined.

(** An [onExpand] that mirrors the state in the flag of the header,
    [(id, root) => root.querySelector('.card-header')
                       ?.setAttribute('aria-expanded', 'true')]. *)
Definition flagging : Hook nat :=
  fun _ r w =>
    Returns
      (match querySelector (ByClass "card-header") r with
       | Some h => updateAt h (setAttribute "aria-expanded" "true") r
       | None => r
       end, w).

Definition flaggingConfig : Config nat :=
  mkConfig (VStr "job-1") None (Some flagging) None VUndefined.

Definition flaggingCard : State nat :=
  match makeCard flaggingConfig 0 [] with
  | Ok st => st
  | Throw _ => mkState (Text "") 0 []
  end.

(** The invocation that [fire] records, if the hook is a function. *)
Definition firing {W : Type} (name : HookName) (h : option (Hook W))
  (i : Value) (r : Node) : list Call :=
  match h with
  | Some _ => [mkCall name i r]
  | None => []
  end.

(** *** Hooks that count

    The hooks of a configuration made to count their own invocations, in
    three counters next to the world.  A call counts whether it returns
    or throws. *)







(** How many of the events reach [onToggle]. *)
Definition toggles (evs : list HeaderEvent) : nat :=
  List.length (filter activates evs).


End HRCard.

(* ------------------------------------------------------------------ *)
(** ** The page controller (cards.js, lines 96-462) *)

Module App.
Import Js Dom.

(** *** Utils *)

(** The double quote character. *)
Definition dquote : ascii := "034"%char.

(** The character class of the pattern: ampersand, less-than,
    greater-than and the double quote. *)
Definition special (c : ascii) : bool :=
  (Ascii.eqb c "&" || Ascii.eqb c "<" || Ascii.eqb c ">" || Ascii.eqb c dquote)%bool.

(** The object literal of the replacement callback. *)
Definition entities : list (string * string) :=
  [("&", "&amp;"); ("<", "&lt;"); (">", "&gt;"); (String dquote "", "&quot;")].

(** The callback [c => ({...}[c])] applied to one match, and the
    [ToString] that [replace] applies to what it returns: a match of two
    or more characters is no key of the object, the callback returns
    [undefined], and the match is replaced by the text undefined. *)
Definition replacement (matched : string) : string :=
  match lookup matched entities with
  | Some e => e
  | None => ToString VUndefined
  end.

Definition flush (matched : string) : string :=
  if String.eqb matched "" then "" else replacement matched.

(** [s.replace(pattern, callback)] for the global pattern of one or more
    special characters: every maximal run of them is one match.
    [matched] is the run read so far. *)
Fixpoint replaceAll (s : string) (matched : string) : string :=
  match s with
  | EmptyString => flush matched
  | String c s' =>
      if special c then replaceAll s' (matched ++ String c "")
      else flush matched ++ String c (replaceAll s' "")
  end.

Definition escapeHtml (s : Value) : string :=
  replaceAll (ToString (or_else s (VStr ""))) "".

(** The characters that end a tag, an element's text or a quoted
    attribute value, and whether a string has one. *)
Definition unsafe (c : ascii) : bool :=
  (Ascii.eqb c "<" || Ascii.eqb c ">" || Ascii.eqb c dquote)%bool.

Fixpoint hasUnsafe (s : string) : bool :=
  match s with
  | EmptyString => false
  | String c s' => (unsafe c || hasUnsafe s')%bool
  end.

(** A string field that may be [null]. *)
Definition ofNullable (s : option string) : Value :=
  match s with
  | Some x => VStr x
  | None => VNull
  end.

(** *** What the HTML parser reads

    A template is assigned to [innerHTML], and the parser reads the
    escaped text back in three kinds of places: between tags, inside a
    quoted attribute value, and inside a [textarea]. *)

Definition NUL : ascii := "000"%char.
Definition LF : ascii := "010"%char.
Definition FF : ascii := "012"%char.
Definition CR : ascii := "013"%char.

(** U+FFFD, the replacement character, in UTF-8. *)
Definition replacementCharacter : string :=
  String "239"%char (String "191"%char (String "189"%char "")).

(** The input stream: a carriage return with the line feed after it, and
    a carriage return on its own, become one line feed. *)
Fixpoint newlines (s : string) : string :=
  match s with
  | EmptyString => EmptyString
  | String c s' =>
      if Ascii.eqb c CR then
        String LF
          match s' with
          | EmptyString => EmptyString
          | String d s'' => if Ascii.eqb d LF then newlines s'' else newlines s'
          end
      else String c (newlines s')
  end.

(** The character references: the four that [escapeHtml] writes are
    decoded (it writes no other ampersand). *)
Fixpoint parsedText (fuel : nat) (s : string) : string :=
  match fuel with
  | O => s
  | S fuel' =>
      match s with
      | EmptyString => ""
      | String c s' =>
          let after n := substring n (String.length s) s in
          if prefix "&amp;" s then String "&" (parsedText fuel' (after 5))
          else if prefix "&lt;" s then String "<" (parsedText fuel' (after 4))
          else if prefix "&gt;" s then String ">" (parsedText fuel' (after 4))
          else if prefix "&quot;" s then String dquote (parsedText fuel' (after 6))
          else String c (parsedText fuel' s')
      end
  end.

(** Between tags a NUL character is dropped; in an attribute value and
    in a [textarea] it becomes the replacement character. *)
Fixpoint withoutNull (s : string) : string :=
  match s with
  | EmptyString => EmptyString
  | String c s' =>
      if Ascii.eqb c NUL then withoutNull s' else String c (withoutNull s')
  end.

Fixpoint withReplacement (s : string) : string :=
  match s with
  | EmptyString => EmptyString
  | String c s' =>
      if Ascii.eqb c NUL then replacementCharacter ++ withReplacement s'
      else String c (withReplacement s')
  end.

(** The value of a text input is its [value] attribute without line
    breaks. *)
Fixpoint stripNewlines (s : string) : string :=
  match s with
  | EmptyString => EmptyString
  | String c s' =>
      if (Ascii.eqb c LF || Ascii.eqb c CR)%bool then stripNewlines s'
      else String c (stripNewlines s')
  end.

(** A line feed right after the start tag of a [textarea] is left
    out. *)
Definition dropLeadingLF (s : string) : string :=
  match s with
  | EmptyString => EmptyString
  | String c s' => if Ascii.eqb c LF then s' else s
  end.

(** The markup [e] with its line breaks normalised and its character
    references decoded. *)
Definition parsed (e : string) : string :=
  let e' := newlines e in parsedText (String.length e') e'.

(** What a template shows for [${escapeHtml(v)}]: as the text of an
    element, as the value of a quoted attribute, as the value of the
    text input that has it as its [value] attribute, and as the text of
    a [textarea]. *)
Definition shown (v : Value) : string :=
  withoutNull (parsed (escapeHtml v)).

Definition shownAttribute (v : Value) : string :=
  withReplacement (parsed (escapeHtml v)).

Definition shownValue (v : Value) : string :=
  stripNewlines (shownAttribute v).

Definition shownArea (v : Value) : string :=
  dropLeadingLF (withReplacement (parsed (escapeHtml v))).

(** *** Records of the REST interface *)

Module Job.
Record t := mk {
  id : string;
  company_name : option string;
  job_title : string;
  job_description : string
}.
End Job.

Module Candidate.
Record t := mk {
  id : string;
  candidate_name : option string;
  candidate_cv_id : option string
}.
End Candidate.

(** *** The network *)

Inductive Method := GET | POST | PATCH | DELETE.

(** The JSON text of a request body, by the object it was made from. *)
Inductive Payload :=
| JobFields (job_title company_name job_description : string)
| CandidateName (candidate_name : string).

Record Request := mkRequest {
  method : Method;
  url : string;
  payload : option Payload
}.

(** The fields the script reads from the object of a response. *)
Record Data := mkData {
  jobs : option (list Job.t);
  candidates : option (list Candidate.t);
  content : option string
}.

Inductive Body :=
| NotJson                 (* res.json() rejects *)
| JsonNull                (* the body is null *)
| JsonObject (d : Data).

Inductive Response :=
| NetworkError            (* fetch rejects *)
| Http (ok : bool) (body : Body).

(** The other end: what it answers to a request, given the requests it
    has seen before. *)
Definition Server := list Request -> Request -> Response.

(** What the script does to the browser besides the DOM: the requests it
    has sent and the alerts it has raised, oldest first. *)
Record Browser := mkBrowser {
  requests : list Request;
  alerts : list string
}.

Definition API_BASE : string := "http://localhost:8000".

(** [fetch(...)]: the request is sent and answered. *)
Definition send (server : Server) (req : Request) (b : Browser)
  : Response * Browser :=
  (server (requests b) req, mkBrowser (requests b ++ [req]) (alerts b)).

(** [alert(msg)] *)
Definition alert (msg : string) (b : Browser) : Browser :=
  mkBrowser (requests b) (alerts b ++ [msg]).

(** *** Asynchronous functions

    An [async] function is a computation over the state it touches that
    either returns or rejects.  For the functions and listeners written
    in this monad every [await] is taken to settle before the next
    event is handled.  The two [onExpand] hooks of the candidates page
    are not written in it: they are called without [await], and what
    they do after their request is answered is kept as a pending step of
    its own (see [Pending] below). *)

Inductive outcome (A : Type) :=
| Returned (a : A)
| Rejected.
Arguments Returned {A} a.
Arguments Rejected {A}.

Definition M (S A : Type) : Type := S -> outcome A * S.

Definition ret {S A} (a : A) : M S A := fun s => (Returned a, s).

Definition throw {S A} : M S A := fun s => (Rejected, s).

Definition bind {S A B} (m : M S A) (k : A -> M S B) : M S B :=
  fun s =>
    match m s with
    | (Returned a, s') => k a s'
    | (Rejected, s') => (Rejected, s')
    end.

(** [try { m } catch { h }]: what [m] did before it threw stays done. *)
Definition tryCatch {S A} (m : M S A) (h : M S A) : M S A :=
  fun s =>
    match m s with
    | (Returned a, s') => (Returned a, s')
    | (Rejected, s') => h s'
    end.

Definition get {S} : M S S := fun s => (Returned s, s).

Definition modify {S} (f : S -> S) : M S unit := fun s => (Returned tt, f s).

Notation "x <- m ;; k" := (bind m (fun x => k))
  (at level 61, m at next level, right associativity).
Notation "m ;;; k" := (bind m (fun _ => k))
  (at level 61, right associativity).

Fixpoint forEach {S A} (l : list A) (f : A -> M S unit) : M S unit :=
  match l with
  | [] => ret tt
  | x :: l' => f x ;;; forEach l' f
  end.

(** A state that has the browser in it. *)
Class HasBrowser (S : Type) := {
  browser : S -> Browser;
  withBrowser : Browser -> S -> S
}.

#[export] Instance pairHasBrowser (X : Type) : HasBrowser (X * Browser) := {
  browser := snd;
  withBrowser := fun b s => (fst s, b)
}.

Section Net.
Context {S : Type} `{HasBrowser S}.
Variable server : Server.

(** [await fetch(...)]: rejects on a network error, else gives the
    response. *)
Definition fetch (req : Request) : M S (bool * Body) :=
  fun s =>
    let '(r, b) := send server req (browser s) in
    match r with
    | NetworkError => (Rejected, withBrowser b s)
    | Http ok body => (Returned (ok, body), withBrowser b s)
    end.

(** [await res.json()]: [None] is the value [null]. *)
Definition json (res : bool * Body) : M S (option Data) :=
  match snd res with
  | NotJson => throw
  | JsonNull => ret None
  | JsonObject d => ret (Some d)
  end.

Definition raise (msg : string) : M S unit :=
  modify (fun s => withBrowser (alert msg (browser s)) s).

(** [fetchJobs()]: reading [.jobs] of [null] throws. *)
Definition fetchJobs : M S (list Job.t) :=
  res <- fetch (mkRequest GET (API_BASE ++ "/jobs") None) ;;
  data <- json res ;;
  match data with
  | None => throw
  | Some d => ret (match jobs d with Some l => l | None => [] end)
  end.

Definition fetchCandidates : M S (list Candidate.t) :=
  res <- fetch (mkRequest GET (API_BASE ++ "/candidates") None) ;;
  data <- json res ;;
  match data with
  | None => throw
  | Some d => ret (match candidates d with Some l => l | None => [] end)
  end.

End Net.

(** *** Card-level operations

    A handler of a card works on the card (its root and what its
    closures hold) and on the browser. *)

Section CardOps.
Context {W : Type}.
Abbreviation Here := (HRCard.State W * Browser)%type.

Definition onCard (f : Node -> Node) : M Here unit :=
  modify (fun s => (HRCard.onRoot f (fst s), snd s)).

(** [base.querySelector(sel)]; [None] is [null]. *)
Definition query (base : path) (sel : Selector) : M Here (option path) :=
  fun s => (Returned (querySelectorFrom base sel (HRCard.root (fst s))), s).

(** A property access through a reference: on [null] it throws. *)
Definition deref (r : option path) : M Here Node :=
  fun s =>
    match r with
    | Some p =>
        match getAt p (HRCard.root (fst s)) with
        | Some n => (Returned n, s)
        | None => (Rejected, s)
        end
    | None => (Rejected, s)
    end.

Definition assign (r : option path) (f : Node -> Node) : M Here unit :=
  deref r ;;; match r with
              | Some p => onCard (updateAt p f)
              | None => throw
              end.

End CardOps.

(** *** Jobs page *)

(** What the listeners of a job card hold: the job object and the
    elements found when the card was initialised. *)
Record JobEnv := mkJobEnv {
  job : Job.t;
  header : path;
  body : path;
  btnEdit : option path
}.

Definition JobCard := HRCard.State (option JobEnv).

(** The three [innerHTML] templates of a job card.  White space between
    tags is left out. *)
Definition jobHeaderMarkup (j : Job.t) : list Node :=
  [ el "div" [] []
      [ el "div" ["card-title"] [] (text (shown (VStr (Job.job_title j))));
        el "div" ["card-subtitle"] []
          (text (shown (or_else (ofNullable (Job.company_name j)) (VStr "")))) ];
    el "button" ["link"] [("aria-expanded", "false")] [Text "Details"] ].

Definition jobBodyMarkup (j : Job.t) : list Node :=
  let title := VStr (Job.job_title j) in
  let company := or_else (ofNullable (Job.company_name j)) (VStr "") in
  let description := shownArea (or_else (VStr (Job.job_description j)) (VStr "")) in
  [ el "div" ["field"] []
      [ el "label" [] []
          [ Text "Job Title";
            control "input"
              [("data-f-job-title", ""); ("type", "text");
               ("value", shownAttribute title); ("disabled", "")]
              (shownValue title) [] ] ];
    el "div" ["field"] []
      [ el "label" [] []
          [ Text "Company Name";
            control "input"
              [("data-f-company-name", ""); ("type", "text");
               ("value", shownAttribute company); ("disabled", "")]
              (shownValue company) [] ] ];
    el "div" ["field"] []
      [ el "label" [] []
          [ Text "Descriptionaccording to my google chrome.";
            control "textarea"
              [("data-f-job-desc", ""); ("rows", "6"); ("disabled", "")]
              description (text description) ] ] ].

Definition jobFooterMarkup : list Node :=
  [ el "button" ["secondary"] [("data-act-edit", "")] [Text "Edit"];
    el "button" ["primary"] [("data-act-search", "")] [Text "Search"];
    el "button" ["danger"] [("data-act-delete", "")] [Text "Delete"] ].

(** The [onInit] hook of [buildJobCard]: the listeners it adds are
    recorded as the environment they close over. *)
Definition jobOnInit (j : Job.t) : HRCard.Hook (option JobEnv) :=
  fun _id root w =>
    let header := querySelector (ByClass "card-header") root in
    let body := querySelector (ByClass "card-body") root in
    let footer := querySelector (ByClass "card-footer") root in
    match header, body, footer with
    | Some header, Some body, Some footer =>
        let root := updateAt header (setChildren (jobHeaderMarkup j)) root in
        let root := updateAt body (setChildren (jobBodyMarkup j)) root in
        let root := updateAt footer (setChildren jobFooterMarkup) root in
        let btnEdit := querySelectorFrom footer (ByAttr "data-act-edit") root in
        HRCard.Returns (root, Some (mkJobEnv j header body btnEdit))
    | _, _, _ => HRCard.Returns (root, w)
    end.

(** [() => {}] *)
Definition noop {W : Type} : HRCard.Hook W :=
  fun _ root w => HRCard.Returns (root, w).

Definition jobConfig (j : Job.t) : HRCard.Config (option JobEnv) :=
  HRCard.mkConfig (VStr (Job.id j)) (Some (jobOnInit j)) (Some noop) (Some noop)
    VUndefined.

Definition buildJobCard (j : Job.t) : result JobCard :=
  HRCard.makeCard (jobConfig j) None [].

Section JobHandlers.
Variable server : Server.

Definition setJob (j : Job.t) : M (JobCard * Browser) unit :=
  modify (fun s =>
    let c := fst s in
    (HRCard.mkState (HRCard.root c)
       (option_map (fun e => mkJobEnv j (header e) (body e) (btnEdit e))
          (HRCard.world c))
       (HRCard.calls c), snd s)).

(** The click listener of the Edit button (lines 190-206), with the
    environment [env] it closes over. *)
Definition jobEditClick (env : JobEnv) : M (JobCard * Browser) unit :=
  let j := job env in
  titleInput <- query (body env) (ByAttr "data-f-job-title") ;;
  companyInput <- query (body env) (ByAttr "data-f-company-name") ;;
  desc <- query (body env) (ByAttr "data-f-job-desc") ;;
  t <- deref titleInput ;;
  let entering := disabled t in
  forEach [titleInput; companyInput; desc]
    (fun i => assign i (setDisabled (if negb entering then true else false))) ;;;
  assign (btnEdit env) (setTextContent (if entering then "Save" else "Edit")) ;;;
  if negb entering then
    tryCatch
      (t <- deref titleInput ;;
       c <- deref companyInput ;;
       d <- deref desc ;;
       res <- fetch server
                (mkRequest PATCH (API_BASE ++ "/jobs/" ++ Job.id j)
                   (Some (JobFields (valueOf t) (valueOf c) (valueOf d)))) ;;
       if negb (fst res) then throw
       else
         let j' := Job.mk (Job.id j) (Some (valueOf c)) (valueOf t) (valueOf d) in
         setJob j' ;;;
         title <- query (header env) (ByClass "card-title") ;;
         assign title (setTextContent (Job.job_title j')) ;;;
         subtitle <- query (header env) (ByClass "card-subtitle") ;;
         assign subtitle
           (setTextContent
              (ToString (or_else (ofNullable (Job.company_name j')) (VStr "")))))
      (raise "Failed to save job")
  else ret tt.

(** A click on the Edit button of a card: the listener runs if the card
    has one. *)
Definition clickEdit : M (JobCard * Browser) unit :=
  s <- get ;;
  match HRCard.world (fst s) with
  | Some env => jobEditClick env
  | None => ret tt
  end.

End JobHandlers.

(** *** Selectors given as text

    [candOnExpand] writes the selector for the CV card as text, with the
    identifier of the candidate between double quotes.  When the
    identifier has no double quote, no backslash, and no NUL character,
    line feed, form feed or carriage return, the text between the quotes
    is a string that stands for itself, and the selector is
    [ByAttrValue].  What [querySelector] makes of any other text (it
    throws when the text is no selector, and it looks for what the text
    means when it is one) is left to the selector engine [Css]. *)

Definition Css : Type := string -> Node -> result (option path).

Definition backslash : ascii := "092"%char.

Definition standsForItself (c : ascii) : bool :=
  negb (Ascii.eqb c dquote || Ascii.eqb c backslash || Ascii.eqb c NUL
        || Ascii.eqb c LF || Ascii.eqb c FF || Ascii.eqb c CR)%bool.

Fixpoint selectorSafe (s : string) : bool :=
  match s with
  | EmptyString => true
  | String c s' => (standsForItself c && selectorSafe s')%bool
  end.

(** The text [[a="v"]]. *)
Definition attributeSelector (a v : string) : string :=
  "[" ++ a ++ "=" ++ String dquote v ++ String dquote "]".

(** [root.querySelector(`[a="${v}"]`)] *)
Definition querySelectorText (css : Css) (a v : string) (root : Node)
  : result (option path) :=
  if selectorSafe v then Ok (querySelector (ByAttrValue a v) root)
  else css (attributeSelector a v) root.

(** *** Candidates page *)

(** A request for a document that has been sent, with the hook that
    sent it waiting at its [await]: the element whose text the hook
    will set (its path in the candidate card), and the answer that is on
    its way. *)
Record Pending := mkPending {
  target : path;
  answer : Response
}.

(** What the hooks and listeners of a candidate card share: the
    candidate object and the element the CV card is mounted in; and the
    calls of the two [onExpand] hooks that have not finished. *)
Record CandEnv := mkCandEnv {
  cand : Candidate.t;
  nestedMount : option path;
  waiting : list Pending
}.

(** The hooks of a candidate card send requests, so their world is the
    environment and the browser. *)
Definition CandWorld : Type := CandEnv * Browser.

Definition candHeaderMarkup (c : Candidate.t) : list Node :=
  [ el "div" ["card-title"] []
      (text (shown (or_else (ofNullable (Candidate.candidate_name c))
                      (VStr "(Unnamed)"))));
    el "button" ["link"] [("aria-expanded", "false")] [Text "Details"] ].

Definition candBodyMarkup (c : Candidate.t) : list Node :=
  let name := or_else (ofNullable (Candidate.candidate_name c)) (VStr "") in
  [ el "div" ["field"] []
      [ el "label" [] []
          [ Text "Name";
            control "input"
              [("data-f-cand-name", ""); ("type", "text");
               ("value", shownAttribute name); ("disabled", "")]
              (shownValue name) [] ] ];
    el "div" [] [("data-nested-cv", "")] [] ].

Definition candFooterMarkup : list Node :=
  [ el "button" ["secondary"] [("data-act-edit", "")] [Text "Edit"];
    el "button" ["danger"] [("data-act-delete", "")] [Text "Delete"] ].

Definition cvHeaderMarkup : list Node :=
  [ el "div" ["card-title"] [] [Text "CV"];
    el "button" ["link"] [("aria-expanded", "false")] [Text "Details"] ].

Definition cvBodyMarkup : list Node :=
  [ el "pre" ["muted"]
      [("data-f-cv", ""); ("style", "white-space:pre-wrap; margin:0;")] [] ].

Definition cvFooterMarkup : list Node :=
  [ el "label" ["cv-upload-label"] []
      [ el "input" []
          [("data-f-cv-file", ""); ("type", "file");
           ("accept", ".pdf,.doc,.docx,.txt,.md")] [];
        el "span" [] [] [Text "Click to browse or drop files here to upload"] ] ].

(** [if (x) x.innerHTML = ...] *)
Definition fillIfFound (r : option path) (ks : list Node) (root : Node) : Node :=
  match r with
  | Some p => updateAt p (setChildren ks) root
  | None => root
  end.

(** [onInit] of the nested CV card; the drag and drop listeners of the
    label change nothing that is kept here. *)
Definition cvOnInit : HRCard.Hook CandWorld :=
  fun _nid root2 w =>
    let h2 := querySelector (ByClass "card-header") root2 in
    let b2 := querySelector (ByClass "card-body") root2 in
    let f2 := querySelector (ByClass "card-footer") root2 in
    let root2 := fillIfFound h2 cvHeaderMarkup root2 in
    let root2 := fillIfFound b2 cvBodyMarkup root2 in
    let root2 := fillIfFound f2 cvFooterMarkup root2 in
    HRCard.Returns (root2, w).

(** The request for a document. *)
Definition documentRequest (cvId : string) : Request :=
  mkRequest GET (API_BASE ++ "/documents/" ++ cvId) None.

(** The text that the rest of the [try]/[catch] block of an [onExpand]
    hook writes once its request is answered (lines 345-346, 381-382).
    A [content] that is missing or [null] is written as the empty
    text. *)
Definition documentText (r : Response) : string :=
  match r with
  | NetworkError => "(No CV)"
  | Http false _ => "(No CV)"
  | Http true NotJson => "(No CV)"
  | Http true JsonNull => "(No CV)"
  | Http true (JsonObject d) =>
      match content d with
      | Some s => s
      | None => ""
      end
  end.

(** The element that holds the CV card, as the hooks of that card see
    it once the card is mounted (line 353): the card is its only child. *)
Definition mounted (root2 : Node) : Node :=
  el "div" [] [("data-nested-cv", "")] [root2].

Definition unmounted (mount : Node) (root2 : Node) : Node :=
  nth 0 (children mount) root2.

(** An element below the mount, as a reference into the candidate
    card. *)
Definition inCard (mount : option path) (p : path) : path :=
  match mount with
  | Some m => (m ++ p)%list
  | None => p
  end.

Section CandidateHooks.
Variable css : Css.
Variable server : Server.

(** [await fetch(...)] in a hook that nobody awaits: the request is
    sent, and the hook returns to its caller with the rest of its body
    waiting for the answer. *)
Definition request (cvId : string) (preEl : path) (w : CandWorld) : CandWorld :=
  let '(r, b) := send server (documentRequest cvId) (snd w) in
  (mkCandEnv (cand (fst w)) (nestedMount (fst w))
     (waiting (fst w) ++ [mkPending preEl r]), b).

(** [onExpand] of the nested CV card (lines 341-350), up to its first
    [await].  It is an [async] function: it does not throw. *)
Definition cvOnExpand : HRCard.Hook CandWorld :=
  fun _ root2 w =>
    let mount := mounted root2 in
    let pre := querySelector (ByAttr "data-f-cv") mount in
    HRCard.Returns
      match pre with
      | None => (root2, w)
      | Some pre =>
          match getAt pre mount with
          | None => (root2, w)
          | Some n =>
              if negb (String.eqb (textContent n) "") then (root2, w)
              else
                let c := cand (fst w) in
                if truthy (ofNullable (Candidate.candidate_cv_id c)) then
                  (root2,
                   request (ToString (ofNullable (Candidate.candidate_cv_id c)))
                     (inCard (nestedMount (fst w)) pre) w)
                else
                  (unmounted (updateAt pre (setTextContent "(No CV)") mount) root2,
                   w)
          end
      end.

Definition cvConfig (cvCardId : string) : HRCard.Config CandWorld :=
  HRCard.mkConfig (VStr cvCardId) (Some cvOnInit) (Some cvOnExpand)
    (Some noop) VUndefined.

(** [onInit] of a candidate card (lines 270-375).  The listeners of the
    Edit and Delete buttons and of the file input are not part of this
    development. *)
Definition candOnInit : HRCard.Hook CandWorld :=
  fun _id root w =>
    let c := cand (fst w) in
    let header := querySelector (ByClass "card-header") root in
    let body := querySelector (ByClass "card-body") root in
    let footer := querySelector (ByClass "card-footer") root in
    match header, body, footer with
    | Some header, Some body, Some footer =>
        let root := updateAt header (setChildren (candHeaderMarkup c)) root in
        let root := updateAt body (setChildren (candBodyMarkup c)) root in
        let root := updateAt footer (setChildren candFooterMarkup) root in
        let nestedMount := querySelectorFrom body (ByAttr "data-nested-cv") root in
        let cvCardId := Candidate.id c ++ "-cv" in
        match HRCard.makeCard (cvConfig cvCardId) w [] with
        | Ok cv =>
            match nestedMount with
            | Some m =>
                HRCard.Returns
                  (updateAt m (fun n => appendChild n (HRCard.root cv)) root,
                   (mkCandEnv c nestedMount (waiting (fst (HRCard.world cv))),
                    snd (HRCard.world cv)))
            | None =>
                HRCard.Throws "TypeError: nestedMount is null"
                  (root, (mkCandEnv c nestedMount (waiting (fst (HRCard.world cv))),
                          snd (HRCard.world cv)))
            end
        | Throw e => HRCard.Throws e (root, w)
        end
    | _, _, _ => HRCard.Returns (root, w)
    end.

(** The element [preEl] of lines 378-379: the region found from the CV
    card, or from the root when the selector finds no card. *)
Definition preEl (c : Candidate.t) (root : Node) : result (option path) :=
  match querySelectorText css "data-card-id" (Candidate.id c ++ "-cv") root with
  | Throw e => Throw e
  | Ok found =>
      let nested :=
        match found with
        | Some p => p
        | None => []
        end in
      Ok (querySelectorFrom nested (ByAttr "data-f-cv") root)
  end.

(** [onExpand] of a candidate card (lines 376-385), up to its first
    [await].  It is an [async] function: when [querySelector] throws,
    the promise of the call rejects and the caller goes on. *)
Definition candOnExpand : HRCard.Hook CandWorld :=
  fun _id root w =>
    let c := cand (fst w) in
    HRCard.Returns
      (if truthy (ofNullable (Candidate.candidate_cv_id c)) then
         match preEl c root with
         | Throw _ => (root, w)
         | Ok None => (root, w)
         | Ok (Some preEl) =>
             match getAt preEl root with
             | None => (root, w)
             | Some n =>
                 if String.eqb (textContent n) "" then
                   (root,
                    request (ToString (ofNullable (Candidate.candidate_cv_id c)))
                      preEl w)
                 else (root, w)
             end
         end
       else (root, w)).

Definition candConfig (c : Candidate.t) : HRCard.Config CandWorld :=
  HRCard.mkConfig (VStr (Candidate.id c)) (Some candOnInit) (Some candOnExpand)
    (Some noop) VUndefined.

Definition CandCard := HRCard.State CandWorld.

Definition buildCandidateCard (c : Candidate.t) (b : Browser) : result CandCard :=
  HRCard.makeCard (candConfig c) (mkCandEnv c None [], b) [].

(** A key or mouse event on the header of the candidate card. *)
Definition candHeaderEvent (ev : HRCard.HeaderEvent) (card : CandCard) : CandCard :=
  HRCard.dispatch (candConfig (cand (fst (HRCard.world card)))) ev card.

(** The same on the header of the CV card mounted inside it: that card
    is the first child of [nestedMount]. *)
Definition cvHeaderEvent (ev : HRCard.HeaderEvent) (card : CandCard) : CandCard :=
  let w := HRCard.world card in
  match nestedMount (fst w) with
  | None => card
  | Some m =>
      let at2 := (m ++ [0%nat])%list in
      match getAt at2 (HRCard.root card) with
      | None => card
      | Some root2 =>
          let cv :=
            HRCard.dispatch (cvConfig (Candidate.id (cand (fst w)) ++ "-cv")) ev
              (HRCard.mkState root2 w []) in
          HRCard.mkState
            (updateAt at2 (fun _ => HRCard.root cv) (HRCard.root card))
            (HRCard.world cv)
            (HRCard.calls card)
      end
  end.

(** The list without its [k]-th item. *)
Fixpoint removeNth {A : Type} (k : nat) (l : list A) : list A :=
  match l, k with
  | [], _ => []
  | _ :: l', O => l'
  | x :: l', S k' => x :: removeNth k' l'
  end.

(** The answer to the [k]-th of the requests that are waited for
    arrives, and the hook that sent it runs to its end: it sets the text
    of the element it holds. *)
Definition settle (k : nat) (card : CandCard) : CandCard :=
  let w := HRCard.world card in
  match nth_error (waiting (fst w)) k with
  | None => card
  | Some p =>
      HRCard.mkState
        (updateAt (target p) (setTextContent (documentText (answer p)))
           (HRCard.root card))
        (mkCandEnv (cand (fst w)) (nestedMount (fst w))
           (removeNth k (waiting (fst w))), snd w)
        (HRCard.calls card)
  end.

(** What happens to a candidate card: the user acts on one of the two
    headers, or the answer to a request arrives. *)
Inductive CandEvent :=
| OnCard (ev : HRCard.HeaderEvent)
| OnCv (ev : HRCard.HeaderEvent)
| Settle (k : nat).

Definition candEvent (e : CandEvent) (card : CandCard) : CandCard :=
  match e with
  | OnCard ev => candHeaderEvent ev card
  | OnCv ev => cvHeaderEvent ev card
  | Settle k => settle k card
  end.

Definition candEvents (es : list CandEvent) (card : CandCard) : CandCard :=
  fold_left (fun c e => candEvent e c) es card.

End CandidateHooks.

(** The requests for a document among [l]. *)
Definition isDocumentFetch (r : Request) : bool :=
  match method r with
  | GET => prefix (API_BASE ++ "/documents/") (url r)
  | _ => false
  end.

Definition documentFetches (l : list Request) : nat :=
  List.length (filter isDocumentFetch l).

(** *** The select box of the search page

    A single-selection list box: its options in order and the index of
    the selected one, if any.  When [dropDown] holds it is shown as a
    drop-down box, and the browser then selects the first option as soon
    as an option is added while none is selected. *)

Record SelectOption := mkOption {
  optionValue : string;
  optionText : string
}.

Record Select := mkSelect {
  dropDown : bool;
  options : list SelectOption;
  selectedIndex : option nat
}.

(** [select.value] *)
Definition selectValue (s : Select) : string :=
  match selectedIndex s with
  | Some i =>
      match nth_error (options s) i with
      | Some o => optionValue o
      | None => ""
      end
  | None => ""
  end.

Fixpoint indexOfValue (v : string) (l : list SelectOption) : option nat :=
  match l with
  | [] => None
  | o :: l' =>
      if String.eqb (optionValue o) v then Some 0%nat
      else option_map S (indexOfValue v l')
  end.

(** [select.value = v]: the first option with that value becomes the
    selected one; with no such option nothing is selected. *)
Definition setSelectValue (v : string) (s : Select) : Select :=
  mkSelect (dropDown s) (options s) (indexOfValue v (options s)).

(** [select.innerHTML = ''] *)
Definition clearOptions (s : Select) : Select :=
  mkSelect (dropDown s) [] None.

(** [select.appendChild(opt)] *)
Definition appendOption (o : SelectOption) (s : Select) : Select :=
  mkSelect (dropDown s) (options s ++ [o])
    (match selectedIndex s with
     | Some i => Some i
     | None => if dropDown s then Some 0%nat else None
     end).

(** *** The page *)

Record Page := mkPage {
  pageBrowser : Browser;
  jobsListEl : list JobCard;               (* children of #jobs-list *)
  candidatesListEl : list (Node * CandEnv); (* children of #candidates-list *)
  searchSelect : Select;                   (* #search-job-select *)
  searchInfo : string;                     (* text of #search-info *)
  visiblePage : option string              (* the page with class visible *)
}.

#[export] Instance pageHasBrowser : HasBrowser Page := {
  browser := pageBrowser;
  withBrowser := fun b p =>
    mkPage b (jobsListEl p) (candidatesListEl p) (searchSelect p)
      (searchInfo p) (visiblePage p)
}.

Definition withJobs (l : list JobCard) (p : Page) : Page :=
  mkPage (pageBrowser p) l (candidatesListEl p) (searchSelect p)
    (searchInfo p) (visiblePage p).

Definition withCandidates (l : list (Node * CandEnv)) (p : Page) : Page :=
  mkPage (pageBrowser p) (jobsListEl p) l (searchSelect p)
    (searchInfo p) (visiblePage p).

Definition withSelect (f : Select -> Select) (p : Page) : Page :=
  mkPage (pageBrowser p) (jobsListEl p) (candidatesListEl p)
    (f (searchSelect p)) (searchInfo p) (visiblePage p).

Definition withInfo (t : string) (p : Page) : Page :=
  mkPage (pageBrowser p) (jobsListEl p) (candidatesListEl p)
    (searchSelect p) t (visiblePage p).

Definition withVisible (v : option string) (p : Page) : Page :=
  mkPage (pageBrowser p) (jobsListEl p) (candidatesListEl p)
    (searchSelect p) (searchInfo p) v.

(** A list element of the page, by how its children are read and set. *)
Record Container (C : Type) := mkContainer {
  contents : Page -> list C;
  setContents : list C -> Page -> Page
}.
Arguments mkContainer {C}.
Arguments contents {C}.
Arguments setContents {C}.

Definition jobsList : Container JobCard := mkContainer jobsListEl withJobs.

Definition candidatesList : Container (Node * CandEnv) :=
  mkContainer candidatesListEl withCandidates.

(** [renderList(container, items, buildFn)] *)
Definition renderList {A C} (container : Container C) (items : list A)
  (buildFn : A -> M Page C) : M Page unit :=
  modify (setContents container []) ;;;
  forEach items (fun it =>
    c <- buildFn it ;;
    modify (fun p => setContents container (contents container p ++ [c]) p)).

Definition pageNames : list string := ["home"; "jobs"; "candidates"; "search"].

(** The names that the object [pages] has from its prototype: under
    them it holds a function or an object that has no [classList]. *)
Definition inheritedNames : list string :=
  ["constructor"; "hasOwnProperty"; "isPrototypeOf"; "propertyIsEnumerable";
   "toLocaleString"; "toString"; "valueOf"; "__proto__";
   "__defineGetter__"; "__defineSetter__"; "__lookupGetter__";
   "__lookupSetter__"].

(** [showPage(name)]: the navigation buttons and the scrolling are left
    out.  For a name that is no page, [pages[name]?.classList] is
    skipped when [pages] has nothing under the name, and is [undefined]
    when it has inherited something, and then the call of [add]
    throws. *)
Definition showPage (name : string) : M Page unit :=
  modify (withVisible None) ;;;
  if existsb (String.eqb name) pageNames then modify (withVisible (Some name))
  else if existsb (String.eqb name) inheritedNames then throw
  else ret tt.

(** The text that [updateSearchInfo(job)] writes; [None] is
    [undefined]. *)
Definition infoText (j : option Job.t) : string :=
  match j with
  | None => "No job selected."
  | Some j =>
      "Selected: " ++ Job.job_title j ++
      (if truthy (ofNullable (Job.company_name j))
       then " @ " ++ ToString (ofNullable (Job.company_name j))
       else "")
  end.

(** [updateSearchInfo(job)] *)
Definition updateSearchInfo (j : option Job.t) : M Page unit :=
  modify (withInfo (infoText j)).

(** The option that [ensureSearchJobs] makes for a job. *)
Definition jobOption (j : Job.t) : SelectOption :=
  mkOption (Job.id j)
    (Job.job_title j ++
     (if truthy (ofNullable (Job.company_name j))
      then " — " ++ ToString (ofNullable (Job.company_name j))
      else "")).

Definition when {S} (b : bool) (m : M S unit) : M S unit :=
  if b then m else ret tt.

Section PageController.
Variable css : Css.
Variable server : Server.

(** [ensureSearchJobs()] (lines 423-436) *)
Definition ensureSearchJobs : M Page unit :=
  jobs <- fetchJobs server ;;
  p <- get ;;
  let curr := selectValue (searchSelect p) in
  modify (withSelect clearOptions) ;;;
  forEach jobs (fun j =>
    let opt := jobOption j in
    modify (withSelect (appendOption opt))) ;;;
  p <- get ;;
  when (negb (Nat.eqb (List.length jobs) 0)
        && negb (truthy (VStr (selectValue (searchSelect p)))))%bool
    (match jobs with
     | j0 :: _ => modify (withSelect (setSelectValue (Job.id j0)))
     | [] => throw
     end) ;;;
  p <- get ;;
  when (truthy (VStr curr)
        && existsb (fun o => String.eqb (optionValue o) curr)
             (options (searchSelect p)))%bool
    (modify (withSelect (setSelectValue curr))) ;;;
  p <- get ;;
  let sel :=
    find (fun j => String.eqb (Job.id j) (selectValue (searchSelect p))) jobs in
  updateSearchInfo sel.

Definition ofResult {S A} (r : result A) : M S A :=
  match r with
  | Ok a => ret a
  | Throw _ => throw
  end.

(** [loadJobs()] (lines 223-227) *)
Definition loadJobs : M Page unit :=
  jobs <- fetchJobs server ;;
  renderList jobsList jobs (fun j => ofResult (buildJobCard j)) ;;;
  ensureSearchJobs.

(** [buildCandidateCard] as [renderList] calls it: the card is built in
    the browser of the page. *)
Definition mountCandidate (c : Candidate.t) : M Page (Node * CandEnv) :=
  p <- get ;;
  card <- ofResult (buildCandidateCard css server c (pageBrowser p)) ;;
  modify (withBrowser (snd (HRCard.world card))) ;;;
  ret (HRCard.root card, fst (HRCard.world card)).

(** [loadCandidates()] *)
Definition loadCandidates : M Page unit :=
  candidates <- fetchCandidates server ;;
  renderList candidatesList candidates mountCandidate.

(** The click listener of the Delete button of a job card (lines
    210-217); [confirmed] is the answer to the [confirm] prompt. *)
Definition jobDeleteClick (j : Job.t) (confirmed : bool) : M Page unit :=
  if negb confirmed then ret tt
  else
    tryCatch
      (res <- fetch server
                (mkRequest DELETE (API_BASE ++ "/jobs/" ++ Job.id j) None) ;;
       if negb (fst res) then throw else loadJobs)
      (raise "Failed to delete job").

(** The start of the page (lines 456-461).  A rejection of it is handled
    by nobody. *)
Definition init : M Page unit :=
  loadJobs ;;;
  loadCandidates ;;;
  ensureSearchJobs ;;;
  showPage "home".

End PageController.

(** *** Vocabulary of the statements about the page *)

(** The select box after [ensureSearchJobs] has emptied it and added the
    options of [jobs]. *)
Definition appendAll (jobs : list Job.t) (s : Select) : Select :=
  fold_left (fun s j => appendOption (jobOption j) s) jobs s.

Definition rebuilt (jobs : list Job.t) (s : Select) : Select :=
  appendAll jobs (clearOptions s).

(** Whether a response counts as a failure: the request was not answered,
    or not with a 2xx status. *)
Definition failed (r : Response) : bool :=
  match r with
  | NetworkError => true
  | Http ok _ => negb ok
  end.

(** The three form controls of a job card, by their selectors. *)
Definition jobFields : list Selector :=
  [ByAttr "data-f-job-title"; ByAttr "data-f-company-name"; ByAttr "data-f-job-desc"].

(** The control of a job card that [body.querySelector(sel)] finds. *)
Definition jobField (sel : Selector) (card : JobCard) : option Node :=
  match HRCard.world card with
  | Some env =>
      match querySelectorFrom (body env) sel (HRCard.root card) with
      | Some p => getAt p (HRCard.root card)
      | None => None
      end
  | None => None
  end.

Definition fieldsDisabled (card : JobCard) : list (option bool) :=
  map (fun sel => option_map disabled (jobField sel card)) jobFields.

Definition fieldValues (card : JobCard) : list (option string) :=
  map (fun sel => option_map valueOf (jobField sel card)) jobFields.

(** The user types [v] into the control that [sel] finds. *)
Definition typeInto (sel : Selector) (v : string) (card : JobCard) : JobCard :=
  match HRCard.world card with
  | Some env =>
      match querySelectorFrom (body env) sel (HRCard.root card) with
      | Some p => HRCard.onRoot (updateAt p (mapElem (withValue v))) card
      | None => card
      end
  | None => card
  end.

Definition typeAll (t c d : string) (card : JobCard) : JobCard :=
  typeInto (ByAttr "data-f-job-desc") d
    (typeInto (ByAttr "data-f-company-name") c
       (typeInto (ByAttr "data-f-job-title") t card)).

(** The header of a job card with all that is in it, the job object its
    listeners hold, and the label of its Edit button. *)
Definition headerOf (card : JobCard) : option Node :=
  match HRCard.world card with
  | Some env => getAt (header env) (HRCard.root card)
  | None => None
  end.

Definition jobOf (card : JobCard) : option Job.t :=
  option_map job (HRCard.world card).

Definition editLabel (card : JobCard) : option string :=
  match HRCard.world card with
  | Some env =>
      match btnEdit env with
      | Some p => option_map textContent (getAt p (HRCard.root card))
      | None => None
      end
  | None => None
  end.

(** The class list of a card made by [makeCard], by its state. *)
Definition cardClasses (expanded : bool) : list string :=
  if expanded then ["card"; "expanded"] else ["card"].

Definition cardHeaderAttributes : list (string * string) :=
  [("role", "button"); ("aria-expanded", "false"); ("tabindex", "0")].

(** The CV card in closed form: whether it is expanded, and the text of
    its display region. *)
Definition cvCardNode (cvCardId : string) (expanded : bool) (shownText : string)
  : Node :=
  el "div" (cardClasses expanded) [("data-card-id", cvCardId)]
    [ el "div" ["card-header"] cardHeaderAttributes cvHeaderMarkup;
      el "div" ["card-body"] []
        [ el "pre" ["muted"]
            [("data-f-cv", ""); ("style", "white-space:pre-wrap; margin:0;")]
            (text shownText) ];
      el "div" ["card-footer"] [] cvFooterMarkup ].

(** The candidate card in closed form: whether it and the CV card in it
    are expanded, and the text of the display region. *)
Definition candCardNode (c : Candidate.t) (expanded cvExpanded : bool)
  (shownText : string) : Node :=
  let name := or_else (ofNullable (Candidate.candidate_name c)) (VStr "") in
  el "div" (cardClasses expanded) [("data-card-id", Candidate.id c)]
    [ el "div" ["card-header"] cardHeaderAttributes (candHeaderMarkup c);
      el "div" ["card-body"] []
        [ el "div" ["field"] []
            [ el "label" [] []
                [ Text "Name";
                  control "input"
                    [("data-f-cand-name", ""); ("type", "text");
                     ("value", shownAttribute name); ("disabled", "")]
                    (shownValue name) [] ] ];
          el "div" [] [("data-nested-cv", "")]
            [ cvCardNode (Candidate.id c ++ "-cv") cvExpanded shownText ] ];
      el "div" ["card-footer"] [] candFooterMarkup ].

(** Where the display region is in a candidate card. *)
Definition regionPath : path := [1; 1; 0; 1; 0]%nat.

(** What decides the behaviour of a candidate card under events on the
    two headers: the two states, the text of the display region, the
    browser, and the answers that are waited for. *)
Record CandView := mkView {
  viewExpanded : bool;
  viewCvExpanded : bool;
  viewText : string;
  viewBrowser : Browser;
  viewWaiting : list Response
}.

(** A card is seen as [v] when its root is the closed form of [v] and
    its hooks hold the candidate [c], the mount and the browser of [v],
    and wait for the answers of [v], each to be written to the display
    region. *)
Definition seenAs (c : Candidate.t) (v : CandView) (card : CandCard) : Prop :=
  HRCard.root card = candCardNode c (viewExpanded v) (viewCvExpanded v) (viewText v)
  /\ HRCard.world card
     = (mkCandEnv c (Some [1; 1]%nat) (map (mkPending regionPath) (viewWaiting v)),
        viewBrowser v).

(** Whether [onExpand] of the candidate card, called on the card seen as
    [v] and just expanded, finds the display region. *)
Definition viewReaches (css : Css) (c : Candidate.t) (v : CandView) : bool :=
  match preEl css c (candCardNode c true (viewCvExpanded v) (viewText v)) with
  | Ok (Some _) => true
  | _ => false
  end.

(** The view once a request for the document of [c] is sent from it. *)
Definition viewRequest (server : Server) (c : Candidate.t) (v : CandView)
  (expanded cvExpanded : bool) : CandView :=
  let req := documentRequest (ToString (ofNullable (Candidate.candidate_cv_id c))) in
  mkView expanded cvExpanded (viewText v)
    (snd (send server req (viewBrowser v)))
    (viewWaiting v ++ [fst (send server req (viewBrowser v))]).

(** One event, on the view.  An expand hook asks for the document when
    the region is empty and the candidate has a CV identifier; the hook
    of the candidate card has to find the region first, and does nothing
    without an identifier, where the hook of the CV card writes the
    placeholder. *)
Definition viewStep (css : Css) (server : Server) (c : Candidate.t) (e : CandEvent)
  (v : CandView) : CandView :=
  let hasCv := truthy (ofNullable (Candidate.candidate_cv_id c)) in
  let empty := String.eqb (viewText v) "" in
  match e with
  | OnCard ev =>
      if negb (HRCard.activates ev) then v
      else if viewExpanded v then
        mkView false (viewCvExpanded v) (viewText v) (viewBrowser v) (viewWaiting v)
      else if (hasCv && viewReaches css c v && empty)%bool then
        viewRequest server c v true (viewCvExpanded v)
      else
        mkView true (viewCvExpanded v) (viewText v) (viewBrowser v) (viewWaiting v)
  | OnCv ev =>
      if negb (HRCard.activates ev) then v
      else if viewCvExpanded v then
        mkView (viewExpanded v) false (viewText v) (viewBrowser v) (viewWaiting v)
      else if negb empty then
        mkView (viewExpanded v) true (viewText v) (viewBrowser v) (viewWaiting v)
      else if hasCv then viewRequest server c v (viewExpanded v) true
      else
        mkView (viewExpanded v) true "(No CV)" (viewBrowser v) (viewWaiting v)
  | Settle k =>
      match nth_error (viewWaiting v) k with
      | Some r =>
          mkView (viewExpanded v) (viewCvExpanded v) (documentText r)
            (viewBrowser v) (removeNth k (viewWaiting v))
      | None => v
      end
  end.

(** The text of the CV display region of a candidate card. *)
Definition cvRegionText (card : CandCard) : option string :=
  match querySelector (ByAttr "data-f-cv") (HRCard.root card) with
  | Some p => option_map textContent (getAt p (HRCard.root card))
  | None => None
  end.


(** The answers that the hooks of the card wait for. *)
Definition awaited (card : CandCard) : list Pending :=
  waiting (fst (HRCard.world card)).



(** Whether an event on a candidate card reaches [onToggle] of the card
    it goes to. *)
Definition activating (e : CandEvent) : bool :=
  match e with
  | OnCard ev => HRCard.activates ev
  | OnCv ev => HRCard.activates ev
  | Settle _ => false
  end.


(** The requests for a document that the browser of the view has sent. *)
Definition fetchesIn (v : CandView) : nat :=
  documentFetches (requests (viewBrowser v)).

(** Events in a row, on the view. *)
Definition viewSteps (css : Css) (server : Server) (c : Candidate.t)
  (es : list CandEvent) (v : CandView) : CandView :=
  fold_left (fun v e => viewStep css server c e v) es v.

(** What staying in edit mode would say of a job card: its three
    controls are enabled. *)
Definition staysEditable (card : JobCard) : Prop :=
  fieldsDisabled card = [Some false; Some false; Some false].

(** The page before its script has run. *)
Definition blankPage (dropDown : bool) : Page :=
  mkPage (mkBrowser [] []) [] [] (mkSelect dropDown [] None) "" None.

(** *** Examples *)

Definition exampleJob : Job.t :=
  Job.mk "j1" (Some "Acme") "Engineer" "Builds things".

Definition otherJob : Job.t := Job.mk "j2" None "Cook" "Cooks".

Definition exampleCandidate : Candidate.t :=
  Candidate.mk "c1" (Some "Ann") (Some "d9").

Definition noData : Data := mkData None None None.

(** A server that cannot be reached. *)
Definition offline : Server := fun _ _ => NetworkError.

(** A server that answers every request with an error status. *)
Definition refusing : Server := fun _ _ => Http false (JsonObject noData).

(** A server that lists the two jobs. *)
Definition listing : Server :=
  fun _ _ => Http true (JsonObject (mkData (Some [exampleJob; otherJob]) None None)).

(** A selector engine that takes no selector text. *)
Definition strict : Css := fun _ _ => Throw "SyntaxError".


(** A server whose documents have text. *)
Definition withDocuments : Server :=
  fun _ _ => Http true (JsonObject (mkData None None (Some "Ten years of cooking"))).

(** The search page with the second job selected. *)
Definition searchingPage : Page :=
  withSelect
    (fun _ => mkSelect true [jobOption exampleJob; jobOption otherJob] (Some 1%nat))
    (blankPage true).

(** The card of the example job. *)
Definition exampleJobCard : JobCard :=
  match buildJobCard exampleJob with
  | Ok card => card
  | Throw _ => HRCard.mkState (Text "") None []
  end.

(** The card of the example candidate, built against the server with
    documents. *)
Definition exampleCandidateCard : CandCard :=
  match buildCandidateCard strict withDocuments exampleCandidate (mkBrowser [] []) with
  | Ok card => card
  | Throw _ =>
      HRCard.mkState (Text "") (mkCandEnv exampleCandidate None [], mkBrowser [] []) []
  end.

(** The card of the example job after a click on Edit, new values typed
    into its controls, and a click on Save that the server refuses. *)
Definition refusedSave : outcome unit * (JobCard * Browser) :=
  let entered := snd (clickEdit refusing (exampleJobCard, mkBrowser [] [])) in
  clickEdit refusing (typeAll "Chef" "Acme" "Cooks" (fst entered), snd entered).

End App.

(* ------------------------------------------------------------------ *)
(** ** The other listeners of the page controller

    The Search button of a job card and the Edit and Delete buttons of a
    candidate card, with the vocabulary of the statements about them.
    The file input of the CV card and the two forms read fields of a
    response that [Data] does not have, and are left out, as are the
    modals and the navigation buttons. *)

Module Listeners.
Import Js Dom App.

Section JobListeners.
Variable css : Css.
Variable server : Server.

(** The click listener of the Search button of a job card (lines
    207-209); [j] is the job object the listener holds. *)
Definition jobSearchClick (j : Job.t) : M Page unit :=
  ensureSearchJobs server ;;;
  modify (withSelect (setSelectValue (Job.id j))) ;;;
  updateSearchInfo (Some j) ;;;
  showPage "search".

(** The click listener of the Delete button of a candidate card (lines
    304-311); [confirmed] is the answer to the [confirm] prompt. *)
Definition candDeleteClick (c : Candidate.t) (confirmed : bool) : M Page unit :=
  if negb confirmed then ret tt
  else
    tryCatch
      (res <- fetch server
                (mkRequest DELETE (API_BASE ++ "/candidates/" ++ Candidate.id c)
                   None) ;;
       if negb (fst res) then throw else loadCandidates css server)
      (raise "Failed to delete candidate").

End JobListeners.

(** *** The Edit button of a candidate card *)

(** The elements that the click listener of the Edit button closes
    over. *)
Record CandRefs := mkCandRefs {
  candHeader : path;
  candBtnEdit : option path;
  candNameInput : option path
}.

(** Those elements, found as [onInit] finds them (lines 272-290): the
    three regions in the root that [makeCard] has composed, the button
    and the input once the markup is in. *)
Definition candRefs (c : Candidate.t) : option CandRefs :=
  let root := HRCard.freshRoot (VStr (Candidate.id c)) in
  let header := querySelector (ByClass "card-header") root in
  let body := querySelector (ByClass "card-body") root in
  let footer := querySelector (ByClass "card-footer") root in
  match header, body, footer with
  | Some header, Some body, Some footer =>
      let root := updateAt header (setChildren (candHeaderMarkup c)) root in
      let root := updateAt body (setChildren (candBodyMarkup c)) root in
      let root := updateAt footer (setChildren candFooterMarkup) root in
      let btnEdit := querySelectorFrom footer (ByAttr "data-act-edit") root in
      let nameInput := querySelectorFrom body (ByAttr "data-f-cand-name") root in
      Some (mkCandRefs header btnEdit nameInput)
  | _, _, _ => None
  end.

Section CandidateListeners.
Variable server : Server.

(** [c.candidate_name = v] on the candidate object that the hooks and
    listeners of the card share. *)
Definition setCandidateName (v : string) : M (CandCard * Browser) unit :=
  modify (fun s =>
    let card := fst s in
    let env := fst (HRCard.world card) in
    let c := cand env in
    (HRCard.mkState (HRCard.root card)
       (mkCandEnv
          (Candidate.mk (Candidate.id c) (Some v) (Candidate.candidate_cv_id c))
          (nestedMount env) (waiting env),
        snd (HRCard.world card))
       (HRCard.calls card), snd s)).

(** The click listener of the Edit button (lines 291-303). *)
Definition candEditClick (refs : CandRefs) : M (CandCard * Browser) unit :=
  n <- deref (candNameInput refs) ;;
  let entering := disabled n in
  assign (candNameInput refs) (setDisabled (if negb entering then true else false)) ;;;
  assign (candBtnEdit refs) (setTextContent (if entering then "Save" else "Edit")) ;;;
  if negb entering then
    tryCatch
      (s <- get ;;
       let c := cand (fst (HRCard.world (fst s))) in
       n <- deref (candNameInput refs) ;;
       r <- fetch server
              (mkRequest PATCH (API_BASE ++ "/candidates/" ++ Candidate.id c)
                 (Some (CandidateName (valueOf n)))) ;;
       if negb (fst r) then throw
       else
         setCandidateName (valueOf n) ;;;
         title <- query (candHeader refs) (ByClass "card-title") ;;
         assign title
           (setTextContent
              (ToString (or_else (VStr (valueOf n)) (VStr "(Unnamed)")))))
      (raise "Failed to save candidate")
  else ret tt.

(** A click on the Edit button of a candidate card.  The hooks of the
    card keep the browser in their world; the listener works on the same
    browser. *)
Definition clickCandidateEdit (card : CandCard) : outcome unit * CandCard :=
  let c := cand (fst (HRCard.world card)) in
  match candRefs c with
  | None => (Returned tt, card)
  | Some refs =>
      let '(o, (card', b)) := candEditClick refs (card, snd (HRCard.world card)) in
      (o, HRCard.mkState (HRCard.root card') (fst (HRCard.world card'), b)
            (HRCard.calls card'))
  end.

(** The user types [v] into the name input. *)
Definition typeName (v : string) (card : CandCard) : CandCard :=
  match candRefs (cand (fst (HRCard.world card))) with
  | Some refs =>
      match candNameInput refs with
      | Some p => HRCard.onRoot (updateAt p (mapElem (withValue v))) card
      | None => card
      end
  | None => card
  end.

End CandidateListeners.

(** *** Vocabulary of the further statements *)

(** Whether a string has a special character, and whether its special
    characters stand alone, no two of them next to each other. *)
Fixpoint hasSpecial (s : string) : bool :=
  match s with
  | EmptyString => false
  | String c s' => (special c || hasSpecial s')%bool
  end.

Fixpoint isolated (s : string) : bool :=
  match s with
  | EmptyString => true
  | String c s' =>
      match s' with
      | EmptyString => true
      | String d _ => (negb (special c && special d) && isolated s')%bool
      end
  end.

(** Whether a string has none of the characters [bad]. *)
Fixpoint noneOf (bad : list ascii) (s : string) : bool :=
  match s with
  | EmptyString => true
  | String c s' => (negb (existsb (Ascii.eqb c) bad) && noneOf bad s')%bool
  end.

(** A string whose special characters stand alone and that has no NUL
    character and no line break. *)
Definition plain (s : string) : bool :=
  (isolated s && noneOf [NUL; LF; CR] s)%bool.

(** The identifier a card is addressed by. *)
Definition cardId {W : Type} (card : HRCard.State W) : option string :=
  getAttribute "data-card-id" (HRCard.root card).

(** The text of the element that [header.querySelector(sel)] finds in a
    job card. *)
Definition headerText (sel : Selector) (card : JobCard) : option string :=
  match HRCard.world card with
  | Some env =>
      match querySelectorFrom (header env) sel (HRCard.root card) with
      | Some p => option_map textContent (getAt p (HRCard.root card))
      | None => None
      end
  | None => None
  end.

(** The events of a candidate card that go to its own header, and those
    that go to the header of the CV card. *)
Definition onCardEvents (es : list CandEvent) : list HRCard.HeaderEvent :=
  flat_map (fun e => match e with OnCard ev => [ev] | _ => [] end) es.

Definition onCvEvents (es : list CandEvent) : list HRCard.HeaderEvent :=
  flat_map (fun e => match e with OnCv ev => [ev] | _ => [] end) es.

(** Whether a job, a candidate has an identifier that is not empty, and
    whether all of a list have. *)
Definition jobHasId (j : Job.t) : bool := negb (String.eqb (Job.id j) "").

Definition candidateHasId (c : Candidate.t) : bool :=
  negb (String.eqb (Candidate.id c) "").

Definition jobsHaveIds (jobs : list Job.t) : bool := forallb jobHasId jobs.

Definition candidatesHaveIds (cs : list Candidate.t) : bool :=
  forallb candidateHasId cs.

(** The items at the front of a list that pass a test, up to the first
    one that does not. *)
Fixpoint leading {A : Type} (ok : A -> bool) (l : list A) : list A :=
  match l with
  | [] => []
  | x :: l' => if ok x then x :: leading ok l' else []
  end.

(** The page once a request has been sent from it. *)
Definition sent (req : Request) (p : Page) : Page :=
  withBrowser
    (mkBrowser (requests (pageBrowser p) ++ [req])%list (alerts (pageBrowser p))) p.

(** The card that [buildJobCard] returns for a job with an identifier. *)
Definition jobCardOf (j : Job.t) : JobCard :=
  match buildJobCard j with
  | Ok card => card
  | Throw _ => HRCard.mkState (Text "") None []
  end.

(** What [loadCandidates] puts in the list for a candidate: the card as
    built, collapsed and with an empty display region. *)
Definition candidateEntryOf (c : Candidate.t) : Node * CandEnv :=
  (candCardNode c false false "", mkCandEnv c (Some [1; 1]%nat) []).

(** The page once an alert has been raised on it. *)
Definition alerted (msg : string) (p : Page) : Page :=
  withBrowser (alert msg (pageBrowser p)) p.

(** The request that deletes a job, a candidate. *)
Definition deleteJobRequest (j : Job.t) : Request :=
  mkRequest DELETE (API_BASE ++ "/jobs/" ++ Job.id j) None.

Definition deleteCandidateRequest (c : Candidate.t) : Request :=
  mkRequest DELETE (API_BASE ++ "/candidates/" ++ Candidate.id c) None.

(** The requests the start of the page sends when nothing fails. *)
Definition startRequests : list Request :=
  [ mkRequest GET (API_BASE ++ "/jobs") None;
    mkRequest GET (API_BASE ++ "/jobs") None;
    mkRequest GET (API_BASE ++ "/candidates") None;
    mkRequest GET (API_BASE ++ "/jobs") None ].

(** The two list requests. *)
Definition jobsRequest : Request := mkRequest GET (API_BASE ++ "/jobs") None.

Definition candidatesRequest : Request :=
  mkRequest GET (API_BASE ++ "/candidates") None.

(** The parts of the page that [ensureSearchJobs] has no business with. *)
Definition sameLists (p p' : Page) : Prop :=
  jobsListEl p' = jobsListEl p
  /\ candidatesListEl p' = candidatesListEl p
  /\ visiblePage p' = visiblePage p
  /\ alerts (pageBrowser p') = alerts (pageBrowser p).

(** The request that saves a job, a candidate. *)
Definition saveJobRequest (j : Job.t) (t c d : string) : Request :=
  mkRequest PATCH (API_BASE ++ "/jobs/" ++ Job.id j) (Some (JobFields t c d)).

Definition saveCandidateRequest (c : Candidate.t) (v : string) : Request :=
  mkRequest PATCH (API_BASE ++ "/candidates/" ++ Candidate.id c)
    (Some (CandidateName v)).

(** What is read off a candidate card: the candidate object its
    listeners hold, the text of its title, whether its name input is
    disabled and what is in it, and the label of its Edit button. *)
Definition candidateOf (card : CandCard) : Candidate.t :=
  cand (fst (HRCard.world card)).

Definition candTitle (card : CandCard) : option string :=
  match querySelectorFrom [0%nat] (ByClass "card-title") (HRCard.root card) with
  | Some p => option_map textContent (getAt p (HRCard.root card))
  | None => None
  end.

Definition nameInput (card : CandCard) : option Node :=
  match querySelector (ByAttr "data-f-cand-name") (HRCard.root card) with
  | Some p => getAt p (HRCard.root card)
  | None => None
  end.

Definition candEditLabel (card : CandCard) : option string :=
  match querySelectorFrom [2%nat] (ByAttr "data-act-edit") (HRCard.root card) with
  | Some p => option_map textContent (getAt p (HRCard.root card))
  | None => None
  end.

(** *** More examples *)

(** A server that lists the two example jobs and the example candidate,
    accepts every deletion, and refuses everything else. *)
Definition steady : Server :=
  fun _ req =>
    match method req with
    | GET =>
        if String.eqb (url req) (API_BASE ++ "/jobs") then
          Http true (JsonObject (mkData (Some [exampleJob; otherJob]) None None))
        else if String.eqb (url req) (API_BASE ++ "/candidates") then
          Http true (JsonObject (mkData None (Some [exampleCandidate]) None))
        else Http false NotJson
    | DELETE => Http true JsonNull
    | _ => Http false NotJson
    end.

(** A job that came without an identifier, and a server that lists it
    between the two example jobs. *)
Definition nameless : Job.t := Job.mk "" None "Draft" "".

Definition careless : Server :=
  fun _ _ =>
    Http true (JsonObject (mkData (Some [exampleJob; nameless; otherJob]) None None)).

(** A server that accepts a deletion and cannot be reached after it. *)
Definition forgetful : Server :=
  fun _ req =>
    match method req with
    | DELETE => Http true JsonNull
    | _ => NetworkError
    end.

(** A server that accepts every request and has nothing to list. *)
Definition accepting : Server := fun _ _ => Http true (JsonObject noData).

(** A candidate with no CV on record. *)
Definition newcomer : Candidate.t := Candidate.mk "c2" (Some "Bo") None.

Definition newcomerCard : CandCard :=
  match buildCandidateCard strict offline newcomer (mkBrowser [] []) with
  | Ok card => card
  | Throw _ =>
      HRCard.mkState (Text "") (mkCandEnv newcomer None [], mkBrowser [] []) []
  end.

(** The card of the example candidate, built while the server is
    unreachable. *)
Definition strandedCard : CandCard :=
  match buildCandidateCard strict offline exampleCandidate (mkBrowser [] []) with
  | Ok card => card
  | Throw _ =>
      HRCard.mkState (Text "") (mkCandEnv exampleCandidate None [], mkBrowser [] []) []
  end.

End Listeners.

(* ------------------------------------------------------------------ *)
(** * Properties *)

(** ** The DOM tree *)

Module DomFacts.
Import Dom.

Lemma contains_add c l : contains c (add c l) = true.
Proof.
  unfold add. destruct (contains c l) eqn:E; [exact E|].
  unfold contains. rewrite existsb_app. simpl.
  rewrite String.eqb_refl. now rewrite orb_true_r.
Qed.

Lemma contains_remove c l : contains c (remove c l) = false.
Proof.
  unfold contains, remove. induction l as [|x l IH]; simpl; [reflexivity|].
  destruct (String.eqb c x) eqn:E; simpl; [exact IH|].
  now rewrite E, IH.
Qed.



Lemma lookup_store a v l : lookup a (store a v l) = Some v.
Proof.
  induction l as [|[k w] l IH]; simpl.
  - now rewrite String.eqb_refl.
  - destruct (String.eqb a k) eqn:E; simpl; now rewrite E.
Qed.


Lemma nth_error_replaceNth {A} i (x y : A) l :
  nth_error l i = Some y -> nth_error (replaceNth i x l) i = Some x.
Proof.
  revert i. induction l as [|z l IH]; intros [|i]; simpl; try discriminate; auto.
Qed.


Lemma getAt_updateAt p f n k :
  getAt p n = Some k -> getAt p (updateAt p f n) = Some (f k).
Proof.
  revert n. induction p as [|i p IH]; intros n; simpl.
  - now intros [= ->].
  - destruct n as [s|e ks]; simpl.
    + destruct i; discriminate.
    + destruct (nth_error ks i) as [c|] eqn:E; [|discriminate].
      intros Hk. simpl. rewrite (nth_error_replaceNth _ _ _ _ E). now apply IH.
Qed.



(** A search never returns the node it started from. *)
Lemma querySelector_below sel n p : querySelector sel n = Some p -> p <> [].
Proof.
  destruct n as [s|e ks]; simpl; [discriminate|].
  revert p. induction ks as [|k ks IH]; intros p; [discriminate|].
  destruct (matches sel k); [intros [= <-]; discriminate|].
  destruct (querySelector sel k); [intros [= <-]; discriminate|].
  match goal with |- context [option_map shift ?x] => destruct x as [q|] eqn:E end;
    simpl; [|discriminate].
  intros [= <-]. specialize (IH q eq_refl).
  destruct q; [contradiction|discriminate].
Qed.

Lemma querySelector_mapElem sel f n :
  querySelector sel (mapElem f n) = querySelector sel n.
Proof. now destruct n. Qed.

Lemma getAt_mapElem i p f n :
  getAt (i :: p) (mapElem f n) = getAt (i :: p) n.
Proof. now destruct n. Qed.

Lemma elem_updateAt_attr p a v n :
  option_map classList (elem (updateAt p (setAttribute a v) n))
  = option_map classList (elem n).
Proof.
  destruct p as [|i p]; destruct n as [s|e ks]; simpl; try reflexivity.
  now destruct (nth_error ks i).
Qed.

Lemma matches_class_updateAt_attr c p a v n :
  matches (ByClass c) (updateAt p (setAttribute a v) n) = matches (ByClass c) n.
Proof.
  pose proof (elem_updateAt_attr p a v n) as H.
  destruct (updateAt p (setAttribute a v) n), n; simpl in *;
    try discriminate; try reflexivity.
  now injection H as ->.
Qed.

(** Setting an attribute somewhere does not move what a class selector
    finds. *)
Lemma querySelector_updateAt_attr c p a v n :
  querySelector (ByClass c) (updateAt p (setAttribute a v) n)
  = querySelector (ByClass c) n.
Proof.
  revert n. induction p as [|i p IH]; intros n.
  - apply querySelector_mapElem.
  - destruct n as [s|e ks]; [reflexivity|]. simpl updateAt.
    destruct (nth_error ks i) as [k0|] eqn:E; [|reflexivity].
    simpl. revert i E. induction ks as [|k ks IHks]; intros i E.
    + destruct i; discriminate.
    + destruct i as [|i]; simpl in *.
      * injection E as ->.
        now rewrite matches_class_updateAt_attr, IH.
      * now rewrite (IHks i E).
Qed.

(** What [querySelector] finds matches the selector. *)
Lemma querySelector_matches sel n p :
  querySelector sel n = Some p ->
  exists k, getAt p n = Some k /\ matches sel k = true.
Proof.
  revert n p. fix IH 1. intros [s|e ks] p; simpl; [discriminate|].
  revert p. induction ks as [|k ks IHks]; intros p; [discriminate|].
  destruct (matches sel k) eqn:Ek.
  - intros [= <-]. simpl. eauto.
  - destruct (querySelector sel k) as [q|] eqn:Eq.
    + intros [= <-]. simpl. now apply IH.
    + match goal with |- context [option_map shift ?x] => destruct x as [q'|] eqn:E' end;
        simpl; [|discriminate].
      intros [= <-]. destruct (IHks q' eq_refl) as (k' & H & Hm).
      destruct q' as [|j q']; simpl in *; eauto.
      injection H as <-. exists (El e ks). split; [|exact Hm].
      (* the root itself is no candidate *)
      exfalso. revert E'. clear. induction ks as [|k' ks' IH']; [discriminate|].
      destruct (matches sel k'); [discriminate|].
      destruct (querySelector sel k'); [discriminate|].
      destruct ((fix first (l : list Node) : option path :=
                   match l with
                   | [] => None
                   | k :: l' =>
                       if matches sel k then Some [0%nat]
                       else match querySelector sel k with
                            | Some p => Some (below 0 p)
                            | None => option_map shift (first l')
                            end
                   end) ks') as [[|? ?]|]; simpl; try discriminate.
      intros _. now apply IH'.
Qed.

Lemma getAt_app p q n :
  getAt (p ++ q)%list n = match getAt p n with
                     | Some b => getAt q b
                     | None => None
                     end.
Proof.
  revert n. induction p as [|i p IH]; intros n; simpl; [reflexivity|].
  destruct (nth_error (children n) i); [apply IH|reflexivity].
Qed.

(** Every descendant that matches is among what [querySelectorAll]
    lists. *)
Lemma querySelectorAll_each sel ks : forall j i q k0 k,
  nth_error ks i = Some k0 ->
  getAt q k0 = Some k -> matches sel k = true ->
  (forall q' k', q = q' -> q' <> [] -> getAt q' k0 = Some k' -> matches sel k' = true ->
     In q' (querySelectorAll sel k0)) ->
  In ((j + i)%nat :: q)
    ((fix each (i : nat) (l : list Node) : list path :=
        match l with
        | [] => []
        | k :: l' =>
            ((if matches sel k then [[i]] else [])
             ++ map (below i) (querySelectorAll sel k) ++ each (S i) l')%list
        end) j ks).
Proof.
  induction ks as [|k1 ks IH]; intros j i q k0 k Hn Hq Hm Hrec.
  - destruct i; discriminate.
  - destruct i as [|i]; cbn [nth_error] in Hn.
    + injection Hn as ->. rewrite Nat.add_0_r.
      destruct q as [|i' q'].
      * cbn in Hq. injection Hq as ->. rewrite Hm. now left.
      * apply in_or_app. right. apply in_or_app. left.
        apply in_map. apply (Hrec _ k eq_refl); [discriminate|exact Hq|exact Hm].
    + apply in_or_app. right. apply in_or_app. right.
      replace (j + S i)%nat with (S j + i)%nat by lia.
      now apply (IH (S j) i q k0 k).
Qed.

Lemma querySelectorAll_complete sel q : forall n k,
  q <> [] -> getAt q n = Some k -> matches sel k = true ->
  In q (querySelectorAll sel n).
Proof.
  induction q as [|i q IH]; intros n k Hne Hq Hm; [contradiction|].
  destruct n as [s|e ks]; [destruct i; discriminate|].
  cbn [getAt children] in Hq.
  destruct (nth_error ks i) as [k0|] eqn:En; [|discriminate].
  cbn [querySelectorAll].
  apply (querySelectorAll_each sel ks 0 i q k0 k En Hq Hm).
  intros q' k' <- Hne' Hq' Hm'. now apply (IH k0 k').
Qed.

(** So what [base.querySelector(sel)] finds is among them too. *)
Lemma querySelectorFrom_listed base sel n p :
  querySelectorFrom base sel n = Some p -> In p (querySelectorAll sel n).
Proof.
  unfold querySelectorFrom. destruct (getAt base n) as [b|] eqn:Eb; [|discriminate].
  destruct (querySelector sel b) as [q|] eqn:Eq; [|discriminate].
  intros [= <-]. destruct (querySelector_matches _ _ _ Eq) as (k & Hk & Hm).
  apply (querySelectorAll_complete sel (base ++ q)%list n k).
  - apply querySelector_below in Eq. destruct base; [exact Eq|discriminate].
  - now rewrite getAt_app, Eb.
  - exact Hm.
Qed.

End DomFacts.

(** ** The card factory *)

Module CardFacts.
Import Js Dom DomFacts HRCard.

Lemma isExpanded_rootClasses r :
  isExpanded r = match rootClasses r with
                 | Some l => contains "expanded" l
                 | None => false
                 end.
Proof. now destruct r. Qed.

Lemma rootClasses_toggleExpanded r b :
  rootClasses (toggleExpanded r b)
  = option_map (if b then add "expanded" else remove "expanded") (rootClasses r).
Proof.
  unfold toggleExpanded, rootClasses. destruct b.
  - now destruct r.
  - destruct (querySelector (ByClass "card-header") r) as [h|].
    + rewrite elem_updateAt_attr. now destruct r.
    + now destruct r.
Qed.


Lemma isExpanded_collapse r : isExpanded (toggleExpanded r false) = false.
Proof.
  rewrite isExpanded_rootClasses, rootClasses_toggleExpanded.
  destruct (rootClasses r); simpl; [apply contains_remove|reflexivity].
Qed.

Lemma element_rootClasses r : elem r <> None <-> rootClasses r <> None.
Proof. unfold rootClasses. destruct (elem r); simpl; split; congruence. Qed.

Lemma element_toggleExpanded r b :
  elem r <> None -> elem (toggleExpanded r b) <> None.
Proof.
  rewrite !element_rootClasses, rootClasses_toggleExpanded.
  destruct (rootClasses r); simpl; congruence.
Qed.


(** Expanding leaves the flag of the header alone. *)
Lemma ariaExpanded_expand r :
  ariaExpanded (toggleExpanded r true) = ariaExpanded r.
Proof.
  unfold ariaExpanded, toggleExpanded, classList_add.
  rewrite querySelector_mapElem.
  destruct (querySelector (ByClass "card-header") r) as [h|] eqn:E; [|reflexivity].
  destruct h as [|i p]; [now apply querySelector_below in E|].
  now rewrite getAt_mapElem.
Qed.

Lemma querySelector_found sel n p :
  querySelector sel n = Some p ->
  exists e ks, getAt p n = Some (El e ks).
Proof.
  revert n p. fix IH 1. intros [s|e ks] p; simpl; [discriminate|].
  revert p. induction ks as [|k ks IHks]; intros p; [discriminate|].
  destruct (matches sel k) eqn:Ek.
  - intros [= <-]. simpl. destruct k; [discriminate|]. eauto.
  - destruct (querySelector sel k) as [q|] eqn:Eq.
    + intros [= <-]. simpl. now apply IH.
    + match goal with |- context [option_map shift ?x] => destruct x as [q'|] eqn:E' end;
        simpl; [|discriminate].
      intros [= <-]. destruct (IHks q' eq_refl) as (e' & ks' & H).
      destruct q' as [|j q']; simpl in *; eauto.
Qed.

(** Collapsing writes the flag of the header, when there is a header. *)
Lemma ariaExpanded_collapse r :
  querySelector (ByClass "card-header") r <> None ->
  ariaExpanded (toggleExpanded r false) = Some "false".
Proof.
  intros Hh. unfold ariaExpanded, toggleExpanded.
  destruct (querySelector (ByClass "card-header") r) as [h|] eqn:E; [|contradiction].
  unfold classList_remove.
  rewrite querySelector_updateAt_attr, querySelector_mapElem, E.
  destruct (querySelector_found _ _ _ E) as (e & ks & Hg).
  destruct h as [|i p]; [now apply querySelector_below in E|].
  rewrite <- (getAt_mapElem i p (withClasses (remove "expanded"))) in Hg.
  rewrite (getAt_updateAt _ _ _ _ Hg). simpl. apply lookup_store.
Qed.

Lemma ariaExpanded_header r :
  ariaExpanded r <> None -> querySelector (ByClass "card-header") r <> None.
Proof. unfold ariaExpanded. now destruct (querySelector _ r). Qed.



Lemma querySelector_classList_remove sel c r :
  querySelector sel (classList_remove c r) = querySelector sel r.
Proof. apply querySelector_mapElem. Qed.



End CardFacts.

Module CardLaws.
Import Js Dom DomFacts HRCard CardFacts.
Local Open Scope list_scope.

Section Laws.
Context {W : Type}.
Variable cfg : Config W.

Lemma fire_calls name (h : option (Hook W)) i st :
  calls (after (fire name h i st)) = calls st ++ firing name h i (root st).
Proof. destruct h as [f|]; simpl; [reflexivity|now rewrite app_nil_r]. Qed.

(** The call leaves what the hook, applied once, leaves. *)
Lemma fire_applied name (h : option (Hook W)) i st :
  (root (after (fire name h i st)), world (after (fire name h i st)))
  = applied h i (root st) (world st).
Proof.
  destruct h as [f|]; simpl; [|reflexivity].
  now destruct (leaves (f i (root st) (world st))).
Qed.

Lemma fire_raised name (h : option (Hook W)) i st :
  raised (fire name h i st) = thrown h i (root st) (world st).
Proof. now destruct h. Qed.

Lemma fire_root (P : Node -> Prop) name (h : option (Hook W)) i st :
  (forall f, h = Some f -> forall r w, P r -> P (fst (leaves (f i r w)))) ->
  P (root st) -> P (root (after (fire name h i st))).
Proof.
  intros Hf HP. destruct h as [f|]; simpl; [|exact HP].
  exact (Hf f eq_refl (root st) (world st) HP).
Qed.

Lemma fire_rootClasses name (h : option (Hook W)) i st :
  (forall f, h = Some f -> keepsClasses f) ->
  rootClasses (root (after (fire name h i st))) = rootClasses (root st).
Proof.
  intros Hf. destruct h as [f|]; simpl; [|reflexivity].
  exact (Hf f eq_refl i (root st) (world st)).
Qed.

Lemma fire_ariaExpanded name (h : option (Hook W)) i st :
  (forall f, h = Some f -> keepsFlag f) ->
  ariaExpanded (root (after (fire name h i st))) = ariaExpanded (root st).
Proof.
  intros Hf. destruct h as [f|]; simpl; [|reflexivity].
  exact (Hf f eq_refl i (root st) (world st)).
Qed.

Lemma doExpand_calls st :
  calls (after (doExpand cfg st))
  = calls st ++ firing OnExpand (onExpand cfg) (id cfg) (toggleExpanded (root st) true).
Proof. unfold doExpand. now rewrite fire_calls. Qed.

Lemma doCollapse_calls st :
  calls (after (doCollapse cfg st))
  = calls st ++ firing OnCollapse (onCollapse cfg) (id cfg) (toggleExpanded (root st) false).
Proof. unfold doCollapse. now rewrite fire_calls. Qed.

Lemma dispatch_activates ev st :
  activates ev = true -> dispatch cfg ev st = after (onToggle cfg st).
Proof. destruct ev; simpl; [reflexivity|]. now intros ->. Qed.

Lemma dispatch_other ev st :
  activates ev = false -> dispatch cfg ev st = st.
Proof. destruct ev; simpl; [discriminate|]. now intros ->. Qed.

Lemma run_app evs evs' st :
  run cfg (evs ++ evs') st = run cfg evs' (run cfg evs st).
Proof. apply fold_left_app. Qed.

Lemma fired_app name l l' : fired name (l ++ l') = fired name l + fired name l'.
Proof. unfold fired. now rewrite filter_app, length_app. Qed.

Lemma fired_firing name name' (h : option (Hook W)) i r :
  fired name (firing name' h i r)
  = match h with
    | Some _ => if sameHook name' name then 1 else 0
    | None => 0
    end.
Proof.
  destruct h; simpl; [|reflexivity].
  unfold fired; simpl. now destruct (sameHook name' name).
Qed.

Lemma doExpand_applied st :
  (root (after (doExpand cfg st)), world (after (doExpand cfg st)))
  = applied (onExpand cfg) (id cfg) (toggleExpanded (root st) true) (world st).
Proof. unfold doExpand. now rewrite fire_applied. Qed.

Lemma doCollapse_applied st :
  (root (after (doCollapse cfg st)), world (after (doCollapse cfg st)))
  = applied (onCollapse cfg) (id cfg) (toggleExpanded (root st) false) (world st).
Proof. unfold doCollapse. now rewrite fire_applied. Qed.

Lemma dispatch_expands ev st :
  activates ev = true -> isExpanded (root st) = false ->
  dispatch cfg ev st = after (doExpand cfg st).
Proof.
  intros Hev Hc. rewrite (dispatch_activates _ _ Hev). unfold onToggle. now rewrite Hc.
Qed.

Lemma dispatch_collapses ev st :
  activates ev = true -> isExpanded (root st) = true ->
  dispatch cfg ev st = after (doCollapse cfg st).
Proof.
  intros Hev Hc. rewrite (dispatch_activates _ _ Hev). unfold onToggle. now rewrite Hc.
Qed.

Lemma initially_startsExpanded :
  truthy match initiallyExpanded cfg with
         | VUndefined => VBool false
         | v => v
         end
  = startsExpanded cfg.
Proof. unfold startsExpanded. now destruct (initiallyExpanded cfg). Qed.

(** [makeCard] by cases: the identifier, how [onInit] ends, the initial
    state, how [onExpand] ends. *)
Lemma makeCard_cases w log :
  let init := fire OnInit (onInit cfg) (id cfg) (mkState (freshRoot (id cfg)) w log) in
  makeCard cfg w log
  = if negb (truthy (id cfg)) then Throw "makeCard: `id` is required"
    else match raised init with
         | Some e => Throw e
         | None =>
             if startsExpanded cfg then
               match raised (doExpand cfg (after init)) with
               | Some e => Throw e
               | None => Ok (after (doExpand cfg (after init)))
               end
             else Ok (onRoot (fun r => toggleExpanded r false) (after init))
         end.
Proof. cbv zeta. unfold makeCard. now rewrite initially_startsExpanded. Qed.

Lemma makeCard_Ok w log st :
  makeCard cfg w log = Ok st ->
  let init := fire OnInit (onInit cfg) (id cfg) (mkState (freshRoot (id cfg)) w log) in
  truthy (id cfg) = true
  /\ raised init = None
  /\ (startsExpanded cfg = true -> raised (doExpand cfg (after init)) = None)
  /\ st = if startsExpanded cfg then after (doExpand cfg (after init))
          else onRoot (fun r => toggleExpanded r false) (after init).
Proof.
  rewrite makeCard_cases. cbv zeta.
  destruct (truthy (id cfg)); [|discriminate]. cbn [negb].
  destruct (raised (fire OnInit _ _ _)); [discriminate|].
  destruct (startsExpanded cfg).
  - destruct (raised (doExpand cfg _)); [discriminate|].
    intros [= <-]. auto.
  - intros [= <-]. repeat split; congruence.
Qed.

Section Classes.
Hypothesis keeps : allHooks keepsClasses cfg.

Lemma keeps_onInit f : onInit cfg = Some f -> keepsClasses f.
Proof. intros E. apply keeps. unfold hooksOf. rewrite E. now left. Qed.

Lemma keeps_onExpand f : onExpand cfg = Some f -> keepsClasses f.
Proof. intros E. apply keeps. unfold hooksOf. rewrite E. right; now left. Qed.

Lemma keeps_onCollapse f : onCollapse cfg = Some f -> keepsClasses f.
Proof. intros E. apply keeps. unfold hooksOf. rewrite E. right; right; now left. Qed.

Lemma doExpand_rootClasses st :
  rootClasses (root (after (doExpand cfg st)))
  = option_map (add "expanded") (rootClasses (root st)).
Proof.
  unfold doExpand. rewrite (fire_rootClasses _ _ _ _ keeps_onExpand).
  apply (rootClasses_toggleExpanded _ true).
Qed.

Lemma doCollapse_rootClasses st :
  rootClasses (root (after (doCollapse cfg st)))
  = option_map (remove "expanded") (rootClasses (root st)).
Proof.
  unfold doCollapse. rewrite (fire_rootClasses _ _ _ _ keeps_onCollapse).
  apply (rootClasses_toggleExpanded _ false).
Qed.

Lemma onToggle_element st :
  elem (root st) <> None -> elem (root (after (onToggle cfg st))) <> None.
Proof.
  rewrite !element_rootClasses. unfold onToggle.
  destruct (negb (isExpanded (root st)));
    rewrite ?doExpand_rootClasses, ?doCollapse_rootClasses;
    destruct (rootClasses (root st)); simpl; congruence.
Qed.

Lemma onToggle_flips st :
  elem (root st) <> None ->
  isExpanded (root (after (onToggle cfg st))) = negb (isExpanded (root st)).
Proof.
  intros He. apply element_rootClasses in He. unfold onToggle.
  destruct (isExpanded (root st)) eqn:E; simpl;
    rewrite isExpanded_rootClasses,
      ?doExpand_rootClasses, ?doCollapse_rootClasses;
    destruct (rootClasses (root st)); simpl; try contradiction.
  - apply contains_remove.
  - apply contains_add.
Qed.

Lemma dispatch_element ev st :
  elem (root st) <> None -> elem (root (dispatch cfg ev st)) <> None.
Proof.
  intros He. destruct (activates ev) eqn:E.
  - rewrite (dispatch_activates _ _ E). now apply onToggle_element.
  - now rewrite (dispatch_other _ _ E).
Qed.


Lemma makeCard_element w log st :
  makeCard cfg w log = Ok st -> elem (root st) <> None.
Proof.
  intros Hmk. destruct (makeCard_Ok _ _ _ Hmk) as (_ & _ & _ & ->).
  apply element_rootClasses.
  set (st1 := after (fire OnInit _ _ _)).
  assert (H1 : rootClasses (root st1) <> None).
  { unfold st1. rewrite (fire_rootClasses _ _ _ _ keeps_onInit). discriminate. }
  destruct (startsExpanded cfg).
  - rewrite doExpand_rootClasses. destruct (rootClasses (root st1)); simpl; congruence.
  - change (rootClasses (toggleExpanded (root st1) false) <> None).
    rewrite rootClasses_toggleExpanded.
    destruct (rootClasses (root st1)); simpl; congruence.
Qed.

Lemma run_alternates evs st :
  elem (root st) <> None ->
  forallb activates evs = true ->
  isExpanded (root (run cfg evs st))
  = xorb (isExpanded (root st)) (Nat.odd (List.length evs)).
Proof.
  revert st. induction evs as [|ev evs IH]; intros st He Hall.
  - simpl. now rewrite xorb_false_r.
  - simpl in Hall. apply andb_prop in Hall as [Hev Hall].
    change (run cfg (ev :: evs) st) with (run cfg evs (dispatch cfg ev st)).
    rewrite IH; [|now apply dispatch_element|exact Hall].
    rewrite (dispatch_activates _ _ Hev), (onToggle_flips _ He).
    change (List.length (ev :: evs)) with (S (List.length evs)).
    rewrite Nat.odd_succ, <- Nat.negb_odd.
    destruct (isExpanded (root st)), (Nat.odd (List.length evs)); reflexivity.
Qed.

End Classes.

Lemma dispatch_fired_OnInit ev st :
  fired OnInit (calls (dispatch cfg ev st)) = fired OnInit (calls st).
Proof.
  destruct (activates ev) eqn:E.
  - rewrite (dispatch_activates _ _ E). unfold onToggle.
    destruct (negb (isExpanded (root st)));
      rewrite ?doExpand_calls, ?doCollapse_calls, fired_app, fired_firing;
      destruct (onExpand cfg), (onCollapse cfg); simpl; lia.
  - now rewrite (dispatch_other _ _ E).
Qed.

Lemma run_fired_OnInit evs st :
  fired OnInit (calls (run cfg evs st)) = fired OnInit (calls st).
Proof.
  revert st. induction evs as [|ev evs IH]; intros st; [reflexivity|].
  simpl. now rewrite IH, dispatch_fired_OnInit.
Qed.

(** What the flag needs of the hooks: [onInit], which only ever gets the
    root as composed, leaves the flag of that root as it is, and the
    other two leave the flag of any root as it is. *)
Section Flag.
Hypothesis init_flag :
  forall h w, onInit cfg = Some h ->
    ariaExpanded (fst (leaves (h (id cfg) (freshRoot (id cfg)) w))) = Some "false".
Hypothesis expand_flag : forall h, onExpand cfg = Some h -> keepsFlag h.
Hypothesis collapse_flag : forall h, onCollapse cfg = Some h -> keepsFlag h.

Lemma doExpand_flag st :
  ariaExpanded (root (after (doExpand cfg st))) = ariaExpanded (root st).
Proof.
  unfold doExpand. rewrite (fire_ariaExpanded _ _ _ _ expand_flag).
  apply ariaExpanded_expand.
Qed.

Lemma doCollapse_flag st :
  ariaExpanded (root st) <> None ->
  ariaExpanded (root (after (doCollapse cfg st))) = Some "false".
Proof.
  intros Hh. unfold doCollapse. rewrite (fire_ariaExpanded _ _ _ _ collapse_flag).
  apply ariaExpanded_collapse. now apply ariaExpanded_header.
Qed.

Lemma dispatch_flag ev st :
  ariaExpanded (root st) = Some "false" ->
  ariaExpanded (root (dispatch cfg ev st)) = Some "false".
Proof.
  intros Hf. destruct (activates ev) eqn:E.
  - rewrite (dispatch_activates _ _ E). unfold onToggle.
    destruct (negb (isExpanded (root st))).
    + now rewrite doExpand_flag.
    + apply doCollapse_flag. now rewrite Hf.
  - now rewrite (dispatch_other _ _ E).
Qed.

Lemma run_flag evs st :
  ariaExpanded (root st) = Some "false" ->
  ariaExpanded (root (run cfg evs st)) = Some "false".
Proof.
  revert st. induction evs as [|ev evs IH]; intros st Hf; [exact Hf|].
  simpl. apply IH. now apply dispatch_flag.
Qed.

Lemma makeCard_flag w log st :
  makeCard cfg w log = Ok st -> ariaExpanded (root st) = Some "false".
Proof.
  intros Hmk. destruct (makeCard_Ok _ _ _ Hmk) as (_ & _ & _ & ->).
  set (st1 := after (fire OnInit _ _ _)).
  assert (H1 : ariaExpanded (root st1) = Some "false").
  { unfold st1, fire. destruct (onInit cfg) as [h|] eqn:E; [|reflexivity].
    exact (init_flag h w eq_refl). }
  destruct (startsExpanded cfg).
  - now rewrite doExpand_flag.
  - change (ariaExpanded (toggleExpanded (root st1) false) = Some "false").
    apply ariaExpanded_collapse, ariaExpanded_header. now rewrite H1.
Qed.

End Flag.
End Laws.

Lemma keepsFlag_init {W : Type} (cfg : Config W) :
  allHooks keepsFlag cfg ->
  forall h w, onInit cfg = Some h ->
    ariaExpanded (fst (leaves (h (id cfg) (freshRoot (id cfg)) w))) = Some "false".
Proof.
  intros Hk h w E. rewrite (Hk h); [reflexivity|].
  unfold hooksOf. rewrite E. now left.
Qed.

Lemma keepsFlag_expand {W : Type} (cfg : Config W) :
  allHooks keepsFlag cfg -> forall h, onExpand cfg = Some h -> keepsFlag h.
Proof. intros Hk h E. apply Hk. unfold hooksOf. rewrite E. right; now left. Qed.

Lemma keepsFlag_collapse {W : Type} (cfg : Config W) :
  allHooks keepsFlag cfg -> forall h, onCollapse cfg = Some h -> keepsFlag h.
Proof. intros Hk h E. apply Hk. unfold hooksOf. rewrite E. right; right; now left. Qed.


Lemma tick_keepsFlag : allHooks keepsFlag countingConfig.
Proof. intros h [E|[E|[E|[]]]]; injection E as <-; intros i r w; reflexivity. Defined.

End CardLaws.

(* ------------------------------------------------------------------ *)
(** ** The statements about the card factory *)

Import Js Dom HRCard.
Local Open Scope list_scope.




(** C2.  When [makeCard] succeeds and [onInit] is a function, the hook is
    invoked once while the card is made: it is the first invocation the
    call adds to the record, it gets the root as composed, which has no
    expanded class yet, it returns, the initial state
    ([initiallyExpanded], false when left out) is applied to what the
    hook leaves behind, and no event on the header invokes it again. *)
Theorem onInit_exactly_once {W : Type} (cfg : Config W) (h : Hook W) (w : W)
  (log : list Call) (st0 : State W) :
  onInit cfg = Some h ->
  makeCard cfg w log = Ok st0 ->
  let fresh := freshRoot (id cfg) in
  let first := mkCall OnInit (id cfg) fresh in
  let left := leaves (h (id cfg) fresh w) in
  isExpanded fresh = false /\
  st0 = (if startsExpanded cfg then fun st => after (doExpand cfg st)
         else onRoot (fun r => toggleExpanded r false))
          (mkState (fst left) (snd left) (log ++ [first])) /\
  (exists rest, calls st0 = log ++ first :: rest /\ fired OnInit rest = 0) /\
  (initiallyExpanded cfg = VUndefined -> isExpanded (root st0) = false) /\
  (forall evs, fired OnInit (calls (run cfg evs st0)) = fired OnInit log + 1) /\
  exception (h (id cfg) fresh w) = None.
Proof.
  intros Hh Hmk fresh first left.
  destruct (CardLaws.makeCard_Ok cfg _ _ _ Hmk) as (_ & Hr & _ & Hst).
  rewrite Hh in Hst, Hr. cbn [fire after raised root world calls] in Hst, Hr.
  fold fresh in Hst, Hr. fold left in Hst. fold first in Hst.
  assert (Hst' : st0 = (if startsExpanded cfg then fun st => after (doExpand cfg st)
                        else onRoot (fun r => toggleExpanded r false))
                         (mkState (fst left) (snd left) (log ++ [first]))).
  { rewrite Hst. now destruct (startsExpanded cfg). }
  assert (Hcalls : exists rest, calls st0 = log ++ first :: rest /\ fired OnInit rest = 0).
  { rewrite Hst'. destruct (startsExpanded cfg).
    - rewrite CardLaws.doExpand_calls. cbn [calls]. rewrite <- app_assoc.
      eexists; split; [reflexivity|].
      rewrite CardLaws.fired_firing. now destruct (onExpand cfg).
    - cbn [onRoot calls]. exists []. split; reflexivity. }
  split; [reflexivity|]. split; [exact Hst'|]. split; [exact Hcalls|]. split; [|split].
  - intros Hu. rewrite Hst'. unfold startsExpanded. rewrite Hu.
    apply CardFacts.isExpanded_collapse.
  - intros evs. rewrite CardLaws.run_fired_OnInit.
    destruct Hcalls as (rest & -> & Hrest).
    rewrite CardLaws.fired_app.
    change (first :: rest) with ([first] ++ rest).
    rewrite CardLaws.fired_app, Hrest. unfold first, fired. simpl. lia.
  - exact Hr.
Qed.

Lemma onInit_exactly_once_witness :
  fired OnInit (calls (run countingConfig [Click; KeyDown "Enter"; Click] countingCard))
  = 1.
Proof.
  exact (proj1 (proj2 (proj2 (proj2 (proj2
           (onInit_exactly_once countingConfig tick 0 [] countingCard eq_refl eq_refl)))))
           [Click; KeyDown "Enter"; Click]).
Defined.

(** C3, as the claim has it, fails: a truthy [id] does not make the call
    succeed.  [makeCard] runs [onInit], and [onExpand] when the card
    starts expanded, before it returns, and what they throw leaves
    [makeCard] with it: with an [onInit] that throws, the call throws
    for a truthy [id] and returns no node. *)
Lemma throwing_hook_fails_with_id :
  truthy (id faultyConfig) = true
  /\ makeCard faultyConfig 0 [] = Throw "no"
  /\ ~ succeedsWithId faultyConfig.
Proof.
  split; [reflexivity|]. split; [reflexivity|].
  intros H. destruct (H 0 [] eq_refl) as [st Hst]. discriminate Hst.
Qed.

(** C3, amended.  [makeCard] throws its own error, and returns no node,
    when the [id] of its argument is not truthy, as it is when the
    argument is left out.  With a truthy [id] it throws what [onInit]
    throws on the root as composed; if [onInit] returns and the card
    starts expanded, it throws what [onExpand] throws on the root with
    the class expanded; and if neither throws it returns the card: the
    root as composed, with what [onInit] did to it, in its initial
    state, with what [onExpand] did to it if the card starts expanded.
    Without these two hooks the card returned is the root as composed
    in its initial state, an element that carries the identifier. *)
Theorem makeCard_requires_id {W : Type} (cfg : Config W) (w : W) (log : list Call) :
  (truthy (id cfg) = false ->
     makeCard cfg w log = Throw "makeCard: `id` is required") /\
  makeCard (emptyConfig W) w log = Throw "makeCard: `id` is required" /\
  (truthy (id cfg) = true ->
     let fresh := freshRoot (id cfg) in
     let init := applied (onInit cfg) (id cfg) fresh w in
     let handed := toggleExpanded (fst init) true in
     match thrown (onInit cfg) (id cfg) fresh w with
     | Some e => makeCard cfg w log = Throw e
     | None =>
         if startsExpanded cfg then
           match thrown (onExpand cfg) (id cfg) handed (snd init) with
           | Some e => makeCard cfg w log = Throw e
           | None =>
               exists st,
                 makeCard cfg w log = Ok st
                 /\ (root st, world st)
                    = applied (onExpand cfg) (id cfg) handed (snd init)
           end
         else
           exists st,
             makeCard cfg w log = Ok st
             /\ root st = toggleExpanded (fst init) false
             /\ world st = snd init
     end) /\
  (truthy (id cfg) = true -> onInit cfg = None -> onExpand cfg = None ->
     exists st,
       makeCard cfg w log = Ok st
       /\ root st = toggleExpanded (freshRoot (id cfg)) (startsExpanded cfg)
       /\ world st = w
       /\ elem (root st) <> None
       /\ getAttribute "data-card-id" (root st) = Some (ToString (id cfg))
       /\ isExpanded (root st) = startsExpanded cfg).
Proof.
  split; [|split; [|split]].
  - intros Hf. unfold makeCard. now rewrite Hf.
  - reflexivity.
  - intros Ht fresh init handed.
    rewrite CardLaws.makeCard_cases. cbv zeta. rewrite Ht. cbn [negb].
    rewrite CardLaws.fire_raised. cbn [root world]. fold fresh.
    destruct (thrown (onInit cfg) (id cfg) fresh w); [reflexivity|].
    pose proof (CardLaws.fire_applied (W := W) OnInit (onInit cfg) (id cfg)
                  (mkState fresh w log)) as Hi.
    cbn [root world] in Hi. fold init in Hi.
    set (st1 := after (fire OnInit (onInit cfg) (id cfg) (mkState fresh w log))) in *.
    assert (Hr : root st1 = fst init) by now rewrite <- Hi.
    assert (Hw : world st1 = snd init) by now rewrite <- Hi.
    destruct (startsExpanded cfg).
    + assert (Hx : raised (doExpand cfg st1)
                   = thrown (onExpand cfg) (id cfg) handed (snd init)).
      { unfold doExpand. rewrite CardLaws.fire_raised. cbn [onRoot root world].
        now rewrite Hr, Hw. }
      rewrite Hx.
      destruct (thrown (onExpand cfg) (id cfg) handed (snd init)); [reflexivity|].
      eexists. split; [reflexivity|].
      rewrite CardLaws.doExpand_applied, Hr, Hw. reflexivity.
    + eexists. split; [reflexivity|]. cbn [onRoot root world]. now rewrite Hr, Hw.
  - intros Ht Hi He.
    rewrite CardLaws.makeCard_cases. cbv zeta. rewrite Ht. cbn [negb].
    unfold doExpand. rewrite Hi, He. cbn [fire raised after onRoot].
    destruct (startsExpanded cfg); eexists; (split; [reflexivity|]);
      cbn [root world]; repeat split; discriminate.
Qed.

Lemma makeCard_requires_id_witness :
  makeCard (mkConfig (VStr "") (Some tick) None None VUndefined) 0 []
  = Throw "makeCard: `id` is required"
  /\ exists st, makeCard countingConfig 0 [] = Ok st /\ world st = 1.
Proof.
  split.
  - exact (proj1 (makeCard_requires_id
                    (mkConfig (VStr "") (Some tick) None None VUndefined) 0 [])
             eq_refl).
  - destruct (proj1 (proj2 (proj2 (makeCard_requires_id countingConfig 0 []))) eq_refl)
      as (st & Hst & _ & Hw).
    exists st. split; [exact Hst|exact Hw].
Defined.



(** C9.  A collapse sets [aria-expanded] of the header to false and an
    expand leaves it as it is.  On a click or an Enter or Space key
    press on the header of an expanded card, the root that [onCollapse]
    is handed, and that is the card if there is no such hook, has the
    flag false, whatever it was before; on a collapsed card, the root
    that [onExpand] is handed has the flag it had.  The flag is false on
    the root as composed, and the collapse that [makeCard] ends with,
    when the card does not start expanded, sets it again.  So for hooks
    that leave the flag alone it reads false after any events, also
    while the card is expanded. *)
Theorem aria_flag_only_cleared {W : Type} (cfg : Config W) (st : State W)
  (ev : HeaderEvent) :
  activates ev = true ->
  let st' := dispatch cfg ev st in
  let cleared (r : Node) :=
    match querySelector (ByClass "card-header") r with
    | Some _ => Some "false"%string
    | None => None
    end in
  (isExpanded (root st) = true ->
     let handed := toggleExpanded (root st) false in
     ariaExpanded handed = cleared (root st) /\
     (root st', world st') = applied (onCollapse cfg) (id cfg) handed (world st)) /\
  (isExpanded (root st) = false ->
     let handed := toggleExpanded (root st) true in
     ariaExpanded handed = ariaExpanded (root st) /\
     (root st', world st') = applied (onExpand cfg) (id cfg) handed (world st)) /\
  (forall i, ariaExpanded (freshRoot i) = Some "false"%string) /\
  (forall w log st0,
     makeCard cfg w log = Ok st0 -> startsExpanded cfg = false ->
     let init := applied (onInit cfg) (id cfg) (freshRoot (id cfg)) w in
     root st0 = toggleExpanded (fst init) false /\
     ariaExpanded (root st0) = cleared (fst init)) /\
  (forall w log st0 evs,
     allHooks keepsFlag cfg -> makeCard cfg w log = Ok st0 ->
     ariaExpanded (root (run cfg evs st0)) = Some "false"%string).
Proof.
  intros Hev st' cleared.
  assert (Hclear : forall r, ariaExpanded (toggleExpanded r false) = cleared r).
  { intros r. unfold cleared.
    destruct (querySelector (ByClass "card-header") r) as [h|] eqn:E.
    - apply CardFacts.ariaExpanded_collapse. now rewrite E.
    - unfold ariaExpanded, toggleExpanded. rewrite E.
      now rewrite CardFacts.querySelector_classList_remove, E. }
  split; [|split; [|split; [|split]]].
  - intros Hc handed. split; [apply Hclear|].
    unfold st'. rewrite (CardLaws.dispatch_collapses cfg _ _ Hev Hc).
    apply CardLaws.doCollapse_applied.
  - intros Hc handed. split; [apply CardFacts.ariaExpanded_expand|].
    unfold st'. rewrite (CardLaws.dispatch_expands cfg _ _ Hev Hc).
    apply CardLaws.doExpand_applied.
  - reflexivity.
  - intros w log st0 Hmk Hs init.
    destruct (CardLaws.makeCard_Ok cfg _ _ _ Hmk) as (_ & _ & _ & ->).
    rewrite Hs. cbn [onRoot root].
    pose proof (CardLaws.fire_applied (W := W) OnInit (onInit cfg) (id cfg)
                  (mkState (freshRoot (id cfg)) w log)) as Hi.
    cbn [root world] in Hi. fold init in Hi.
    assert (Hr : root (after (fire OnInit (onInit cfg) (id cfg)
                                (mkState (freshRoot (id cfg)) w log))) = fst init)
      by now rewrite <- Hi.
    rewrite Hr. split; [reflexivity|apply Hclear].
  - intros w log st0 evs Hk Hmk.
    pose proof (CardLaws.keepsFlag_init cfg Hk) as Hi.
    pose proof (CardLaws.keepsFlag_expand cfg Hk) as He.
    pose proof (CardLaws.keepsFlag_collapse cfg Hk) as Hc.
    exact (CardLaws.run_flag cfg He Hc evs st0
             (CardLaws.makeCard_flag cfg Hi He _ _ _ Hmk)).
Qed.

Lemma aria_flag_only_cleared_witness :
  let expanded := dispatch flaggingConfig Click flaggingCard in
  isExpanded (root expanded) = true /\
  ariaExpanded (root expanded) = Some "true"%string /\
  ariaExpanded (root (dispatch flaggingConfig Click expanded)) = Some "false"%string.
Proof.
  cbv zeta. split; [reflexivity|]. split; [reflexivity|].
  destruct (proj1 (aria_flag_only_cleared flaggingConfig
                     (dispatch flaggingConfig Click flaggingCard) Click eq_refl)
              eq_refl) as [Hf Hr].
  exact (eq_trans (f_equal ariaExpanded (f_equal fst Hr)) Hf).
Defined.

(* ------------------------------------------------------------------ *)
(** ** The page controller *)

Module AppFacts.
Import App.

Example escapeHtml_single : escapeHtml (VStr "R&D <b>") = "R&amp;D &lt;b&gt;".
Proof. reflexivity. Qed.

(** A run of special characters is one match, and no key of the
    callback's object. *)
Example escapeHtml_run : escapeHtml (VStr "a<<b") = "aundefinedb".
Proof. reflexivity. Qed.

Example escapeHtml_number : escapeHtml (VNum (mkSafe 42 eq_refl)) = "42".
Proof. reflexivity. Qed.

Example escapeHtml_zero : escapeHtml (VNum (mkSafe 0 eq_refl)) = "".
Proof. reflexivity. Qed.

Lemma hasUnsafe_app a b : hasUnsafe (a ++ b)%string = (hasUnsafe a || hasUnsafe b)%bool.
Proof.
  induction a as [|c a IH]; simpl; [reflexivity|].
  now rewrite IH, orb_assoc.
Qed.

Lemma unsafe_special c : special c = false -> unsafe c = false.
Proof.
  unfold special, unsafe.
  destruct (Ascii.eqb c "&"), (Ascii.eqb c "<"), (Ascii.eqb c ">"),
    (Ascii.eqb c dquote); simpl; congruence.
Qed.

Lemma replacement_safe m : hasUnsafe (replacement m) = false.
Proof.
  unfold replacement, entities. cbn [lookup].
  repeat match goal with
         | |- context [if ?b then _ else _] => destruct b
         end; reflexivity.
Qed.

Lemma flush_safe m : hasUnsafe (flush m) = false.
Proof.
  unfold flush. destruct (String.eqb m ""); [reflexivity|apply replacement_safe].
Qed.

Lemma replaceAll_safe s : forall m, hasUnsafe (replaceAll s m) = false.
Proof.
  induction s as [|c s IH]; intros m; simpl.
  - apply flush_safe.
  - destruct (special c) eqn:E; [apply IH|].
    rewrite hasUnsafe_app, flush_safe. simpl.
    now rewrite (unsafe_special _ E), IH.
Qed.

End AppFacts.

(** C10.  Whatever value [escapeHtml] is given, the string it returns has
    no less-than sign, no greater-than sign and no double quote; for
    [null], [undefined] and the empty string it returns the empty
    string. *)
Theorem escapeHtml_safe (v : Value) :
  App.hasUnsafe (App.escapeHtml v) = false /\
  App.escapeHtml VNull = "" /\
  App.escapeHtml VUndefined = "" /\
  App.escapeHtml (VStr "") = "".
Proof.
  split; [apply AppFacts.replaceAll_safe|]. repeat split.
Qed.

Module PageFacts.
Import App.
Local Open Scope list_scope.

Lemma fetch_page server req (p : Page) o p' :
  fetch server req p = (o, p') -> exists b, p' = withBrowser b p.
Proof.
  unfold fetch. destruct (send server req (browser p)) as [r b].
  destruct r; intros [= <- <-]; eexists; reflexivity.
Qed.

Lemma fetchJobs_page server (p : Page) o p' :
  fetchJobs server p = (o, p') -> exists b, p' = withBrowser b p.
Proof.
  unfold fetchJobs, bind.
  destruct (fetch server _ p) as [[res|] p1] eqn:E.
  - apply fetch_page in E as [b ->]. unfold json.
    destruct (snd res); unfold throw, ret.
    + intros [= <- <-]; eexists; reflexivity.
    + intros [= <- <-]; eexists; reflexivity.
    + intros [= <- <-]; eexists; reflexivity.
  - apply fetch_page in E as [b ->]. intros [= <- <-]; eexists; reflexivity.
Qed.

Lemma forEach_append jobs p :
  forEach jobs (fun j => let opt := jobOption j in modify (withSelect (appendOption opt))) p
  = (Returned tt, withSelect (appendAll jobs) p).
Proof.
  revert p. induction jobs as [|j jobs IH]; intros p.
  - simpl. unfold ret. now destruct p.
  - simpl. unfold bind, modify. rewrite IH. now destruct p.
Qed.

Lemma appendAll_shape jobs s :
  appendAll jobs s
  = mkSelect (dropDown s) (options s ++ map jobOption jobs)
      (match selectedIndex s with
       | Some i => Some i
       | None => match jobs with
                 | [] => None
                 | _ :: _ => if dropDown s then Some 0%nat else None
                 end
       end).
Proof.
  revert s. induction jobs as [|j jobs IH]; intros s.
  - simpl. rewrite app_nil_r. destruct s as [d o [i|]]; reflexivity.
  - unfold appendAll in *. simpl. rewrite IH. simpl. rewrite <- app_assoc. simpl.
    destruct (selectedIndex s); [reflexivity|].
    destruct (dropDown s); [reflexivity|]. now destruct jobs.
Qed.

Lemma rebuilt_shape jobs s :
  rebuilt jobs s
  = mkSelect (dropDown s) (map jobOption jobs)
      (match jobs with
       | [] => None
       | _ :: _ => if dropDown s then Some 0%nat else None
       end).
Proof. unfold rebuilt. now rewrite appendAll_shape. Qed.

Lemma indexOfValue_found v l :
  existsb (fun o => String.eqb (optionValue o) v) l = true ->
  exists i o, indexOfValue v l = Some i /\ nth_error l i = Some o /\ optionValue o = v.
Proof.
  induction l as [|o l IH]; simpl; [discriminate|].
  destruct (String.eqb (optionValue o) v) eqn:E.
  - intros _. exists 0%nat, o. apply String.eqb_eq in E. auto.
  - simpl. intros H. destruct (IH H) as (i & o' & -> & Hn & Hv).
    exists (S i), o'. auto.
Qed.

Lemma selectValue_set v s :
  existsb (fun o => String.eqb (optionValue o) v) (options s) = true ->
  selectValue (setSelectValue v s) = v.
Proof.
  intros H. destruct (indexOfValue_found _ _ H) as (i & o & Hi & Hn & Hv).
  unfold selectValue, setSelectValue. simpl. now rewrite Hi, Hn.
Qed.

Lemma existsb_option_In v jobs :
  existsb (fun o => String.eqb (optionValue o) v) (map jobOption jobs) = true
  <-> In v (map Job.id jobs).
Proof.
  induction jobs as [|j jobs IH]; simpl; [split; [discriminate|tauto]|].
  rewrite orb_true_iff, IH, String.eqb_eq. tauto.
Qed.

(** A list request that is not answered rejects [loadJobs], and nothing
    is alerted. *)
Lemma loadJobs_unreachable server (p : Page) :
  server (requests (pageBrowser p)) (mkRequest GET (API_BASE ++ "/jobs") None)
  = NetworkError ->
  fst (loadJobs server p) = Rejected
  /\ alerts (pageBrowser (snd (loadJobs server p))) = alerts (pageBrowser p).
Proof.
  intros E. unfold loadJobs, fetchJobs, bind, fetch, send.
  cbn [browser pageHasBrowser]. now rewrite E.
Qed.

Lemma find_In_id v jobs :
  In v (map Job.id jobs) ->
  exists j, find (fun j => String.eqb (Job.id j) v) jobs = Some j /\ Job.id j = v.
Proof.
  induction jobs as [|j jobs IH]; simpl; [tauto|].
  destruct (String.eqb (Job.id j) v) eqn:E.
  - intros _. exists j. apply String.eqb_eq in E. auto.
  - intros [H|H]; [subst; now rewrite String.eqb_refl in E|auto].
Qed.

Lemma truthy_VStr s : truthy (VStr s) = true <-> s <> "".
Proof.
  simpl. rewrite negb_true_iff. split.
  - intros H ->. discriminate.
  - intros H. destruct (String.eqb s "") eqn:E; [|reflexivity].
    apply String.eqb_eq in E. contradiction.
Qed.


End PageFacts.

Module CandidateFacts.
Import App.
Local Open Scope list_scope.

(** The hooks are run on the closed form of the card, with what the
    templates show left as it is. *)
Ltac run_hooks := cbv -[shown shownAttribute shownValue].

Ltac run_hooks_in H := cbv -[shown shownAttribute shownValue] in H.

(** The two places where a closed form has text that may be empty. *)
Ltac by_texts c t :=
  destruct c as [cid cname ccv];
  unfold candCardNode, cvCardNode, candHeaderMarkup, text;
  cbn [Candidate.id Candidate.candidate_name Candidate.candidate_cv_id];
  destruct (String.eqb (shown _) ""); destruct t as [|ch t].

(** The two halves of an equation between pairs. *)
Ltac unpair Ha Hroot Hworld :=
  pose proof (f_equal fst Ha) as Hroot; pose proof (f_equal snd Ha) as Hworld;
  cbn [fst snd] in Hroot, Hworld; clear Ha.

Lemma append_empty s : (s ++ "")%string = s.
Proof. induction s as [|ch s IH]; simpl; [reflexivity|now rewrite IH]. Qed.

Lemma build_seen css server c b card :
  buildCandidateCard css server c b = Ok card ->
  seenAs c (mkView false false "" b []) card.
Proof.
  destruct c as [[|a cid] cname ccv]; destruct b as [reqs als]; intros H.
  - cbv in H. discriminate.
  - run_hooks_in H. injection H as <-. run_hooks. split; reflexivity.
Qed.

(** *** The closed forms under the operations of the factory *)

Lemma isExpanded_cand c e1 e2 t : HRCard.isExpanded (candCardNode c e1 e2 t) = e1.
Proof. now destruct e1. Qed.

Lemma toggle_cand c e1 e2 t b :
  HRCard.toggleExpanded (candCardNode c e1 e2 t) b = candCardNode c b e2 t.
Proof. now destruct e1, b. Qed.

Lemma isExpanded_cv i e t : HRCard.isExpanded (cvCardNode i e t) = e.
Proof. now destruct e. Qed.

Lemma toggle_cv i e t b :
  HRCard.toggleExpanded (cvCardNode i e t) b = cvCardNode i b t.
Proof. now destruct e, b. Qed.

Lemma mounted_cv c e1 e2 t :
  getAt [1; 1; 0]%nat (candCardNode c e1 e2 t)
  = Some (cvCardNode (Candidate.id c ++ "-cv") e2 t).
Proof. reflexivity. Qed.

Lemma put_cv c e1 e2 t e2' t' :
  updateAt [1; 1; 0]%nat (fun _ => cvCardNode (Candidate.id c ++ "-cv") e2' t')
    (candCardNode c e1 e2 t)
  = candCardNode c e1 e2' t'.
Proof. reflexivity. Qed.

Lemma region_node c e1 e2 t :
  exists n, getAt regionPath (candCardNode c e1 e2 t) = Some n /\ textContent n = t.
Proof.
  eexists. split; [reflexivity|].
  destruct t as [|ch t]; [reflexivity|]. cbn. now rewrite append_empty.
Qed.

Lemma write_region c e1 e2 t t' :
  updateAt regionPath (setTextContent t') (candCardNode c e1 e2 t)
  = candCardNode c e1 e2 t'.
Proof. reflexivity. Qed.

(** The display region is the one element of the card with the
    attribute the hooks look for. *)
Lemma region_listed c e1 e2 t :
  querySelectorAll (ByAttr "data-f-cv") (candCardNode c e1 e2 t) = [regionPath].
Proof. by_texts c t; reflexivity. Qed.

Lemma region_first c e1 e2 t :
  querySelector (ByAttr "data-f-cv") (candCardNode c e1 e2 t) = Some regionPath.
Proof. by_texts c t; reflexivity. Qed.

Lemma region_only c e1 e2 t p q :
  querySelectorFrom p (ByAttr "data-f-cv") (candCardNode c e1 e2 t) = Some q ->
  q = regionPath.
Proof.
  intros H. apply DomFacts.querySelectorFrom_listed in H.
  rewrite region_listed in H. destruct H as [H|[]]. now symmetry.
Qed.

Lemma region_from_cv c e1 e2 t :
  querySelectorFrom [1; 1; 0]%nat (ByAttr "data-f-cv") (candCardNode c e1 e2 t)
  = Some regionPath.
Proof. by_texts c t; reflexivity. Qed.

(** The selector with the identifier of the CV card finds that card. *)
Lemma card_found c e1 e2 t :
  querySelector (ByAttrValue "data-card-id" (Candidate.id c ++ "-cv"))
    (candCardNode c e1 e2 t)
  = Some [1; 1; 0]%nat.
Proof.
  pose proof (String.eqb_refl (Candidate.id c ++ "-cv")) as E.
  by_texts c t; cbn [Candidate.id] in E; run_hooks_in E; run_hooks;
    rewrite E; reflexivity.
Qed.

(** Whatever the selector engine makes of the text of the selector, the
    hook of the candidate card ends up with the display region or with
    nothing. *)
Lemma preEl_region css c e1 e2 t q :
  preEl css c (candCardNode c e1 e2 t) = Ok (Some q) -> q = regionPath.
Proof.
  unfold preEl. destruct (querySelectorText css _ _ _) as [found|]; [|discriminate].
  intros [= H]. now apply region_only in H.
Qed.

Lemma preEl_safe css c e1 e2 t :
  selectorSafe (Candidate.id c ++ "-cv") = true ->
  preEl css c (candCardNode c e1 e2 t) = Ok (Some regionPath).
Proof.
  intros Hs. unfold preEl, querySelectorText.
  now rewrite Hs, card_found, region_from_cv.
Qed.

Lemma selectorSafe_app a b :
  selectorSafe (a ++ b) = (selectorSafe a && selectorSafe b)%bool.
Proof.
  induction a as [|ch a IH]; [reflexivity|].
  cbn [append selectorSafe]. now rewrite IH, andb_assoc.
Qed.

Lemma selectorSafe_cv i : selectorSafe (i ++ "-cv") = selectorSafe i.
Proof. rewrite selectorSafe_app. cbn. now rewrite andb_true_r. Qed.

(** What the hook of the CV card leaves of the card in closed form. *)
Lemma cvOnExpand_closed server i cid t w :
  HRCard.leaves (cvOnExpand server i (cvCardNode cid true t) w)
  = if negb (String.eqb t "") then (cvCardNode cid true t, w)
    else if truthy (ofNullable (Candidate.candidate_cv_id (cand (fst w)))) then
      (cvCardNode cid true t,
       request server
         (ToString (ofNullable (Candidate.candidate_cv_id (cand (fst w)))))
         (inCard (nestedMount (fst w)) [0; 1; 0]%nat) w)
    else (cvCardNode cid true "(No CV)", w).
Proof.
  unfold cvOnExpand. cbn [HRCard.leaves].
  destruct t as [|ch t]; [|reflexivity].
  cbn [String.eqb negb].
  change (querySelector (ByAttr "data-f-cv") (mounted (cvCardNode cid true "")))
    with (Some [0; 1; 0]%nat).
  cbv beta iota.
  change (getAt [0; 1; 0]%nat (mounted (cvCardNode cid true "")))
    with (Some (el "pre" ["muted"]
                  [("data-f-cv", ""); ("style", "white-space:pre-wrap; margin:0;")]
                  [])).
  cbv beta iota.
  change (textContent (el "pre" ["muted"]
                         [("data-f-cv", ""); ("style", "white-space:pre-wrap; margin:0;")]
                         [])) with "".
  cbn [String.eqb negb].
  destruct (truthy _); reflexivity.
Qed.

(** *** One event *)

Lemma removeNth_map {A B} (f : A -> B) k l :
  removeNth k (map f l) = map f (removeNth k l).
Proof.
  revert k. induction l as [|x l IH]; intros [|k]; cbn; try reflexivity.
  now rewrite IH.
Qed.

Lemma step_card css server c v card ev :
  HRCard.activates ev = true ->
  seenAs c v card ->
  seenAs c (viewStep css server c (OnCard ev) v) (candHeaderEvent css server ev card).
Proof.
  intros Hev [Hr Hw]. destruct card as [r w calls].
  cbn [HRCard.root HRCard.world] in *. subst r w.
  unfold candHeaderEvent. cbn [HRCard.world fst cand].
  unfold viewStep. cbv zeta. rewrite Hev. cbn [negb].
  destruct v as [e1 e2 t b ws].
  cbn [viewExpanded viewCvExpanded viewText viewBrowser viewWaiting].
  set (st := HRCard.mkState _ _ calls).
  destruct e1.
  - (* the card is collapsed *)
    rewrite (CardLaws.dispatch_collapses _ _ _ Hev) by apply isExpanded_cand.
    pose proof (CardLaws.doCollapse_applied (candConfig css server c) st) as Ha.
    cbn [HRCard.applied candConfig HRCard.onCollapse noop HRCard.leaves st
         HRCard.root HRCard.world] in Ha.
    rewrite toggle_cand in Ha. unpair Ha Hroot Hworld.
    split; [exact Hroot|exact Hworld].
  - (* the card is expanded, and its hook runs *)
    rewrite (CardLaws.dispatch_expands _ _ _ Hev) by apply isExpanded_cand.
    pose proof (CardLaws.doExpand_applied (candConfig css server c) st) as Ha.
    cbn [HRCard.applied candConfig HRCard.onExpand st HRCard.root HRCard.world] in Ha.
    rewrite toggle_cand in Ha.
    unfold candOnExpand in Ha. cbn [HRCard.leaves fst cand] in Ha.
    unfold viewReaches. cbn [viewCvExpanded viewText].
    destruct (truthy (ofNullable (Candidate.candidate_cv_id c))); cbn [andb];
      [|unpair Ha Hroot Hworld; split; [exact Hroot|exact Hworld]].
    destruct (preEl css c (candCardNode c true e2 t)) as [[q|]|m] eqn:Ep;
      cbn [andb];
      try (unpair Ha Hroot Hworld; split; [exact Hroot|exact Hworld]).
    apply preEl_region in Ep. subst q.
    destruct (region_node c true e2 t) as (n & Hn & Ht). rewrite Hn, Ht in Ha.
    destruct (String.eqb t "");
      unpair Ha Hroot Hworld; split; try exact Hroot; try exact Hworld.
    etransitivity; [exact Hworld|]. unfold request, viewRequest, send.
    cbn [fst snd cand nestedMount waiting viewText viewBrowser viewWaiting].
    now rewrite map_app.
Qed.

(** The card with the CV card in it put back. *)
Lemma put_back c e1 e2 t e2' t' root2 :
  root2 = cvCardNode (Candidate.id c ++ "-cv") e2' t' ->
  updateAt [1; 1; 0]%nat (fun _ => root2) (candCardNode c e1 e2 t)
  = candCardNode c e1 e2' t'.
Proof. intros ->. apply put_cv. Qed.

Lemma step_cv css server c v card ev :
  HRCard.activates ev = true ->
  seenAs c v card ->
  seenAs c (viewStep css server c (OnCv ev) v) (cvHeaderEvent server ev card).
Proof.
  intros Hev [Hr Hw]. destruct card as [r w calls].
  cbn [HRCard.root HRCard.world] in *. subst r w.
  unfold cvHeaderEvent. cbn [HRCard.world HRCard.root HRCard.calls fst cand nestedMount app].
  rewrite mounted_cv. cbv beta iota zeta.
  unfold viewStep. cbv zeta. rewrite Hev. cbn [negb].
  destruct v as [e1 e2 t b ws].
  cbn [viewExpanded viewCvExpanded viewText viewBrowser viewWaiting].
  set (w := (mkCandEnv c (Some [1; 1]%nat) (map (mkPending regionPath) ws), b)).
  set (st := HRCard.mkState (cvCardNode (Candidate.id c ++ "-cv") e2 t) w []).
  set (cfg := cvConfig server (Candidate.id c ++ "-cv")).
  destruct e2.
  - rewrite (CardLaws.dispatch_collapses cfg _ _ Hev) by apply isExpanded_cv.
    pose proof (CardLaws.doCollapse_applied cfg st) as Ha.
    cbn [HRCard.applied cfg cvConfig HRCard.onCollapse noop HRCard.leaves st
         HRCard.root HRCard.world] in Ha.
    rewrite toggle_cv in Ha. unpair Ha Hroot Hworld.
    split; cbn [HRCard.root HRCard.world viewExpanded viewCvExpanded viewText
                viewBrowser viewWaiting];
      [apply put_back; exact Hroot|exact Hworld].
  - rewrite (CardLaws.dispatch_expands cfg _ _ Hev) by apply isExpanded_cv.
    pose proof (CardLaws.doExpand_applied cfg st) as Ha.
    cbn [HRCard.applied cfg cvConfig HRCard.onExpand st HRCard.root HRCard.world] in Ha.
    rewrite toggle_cv, cvOnExpand_closed in Ha.
    cbn [w fst cand nestedMount inCard app] in Ha.
    destruct (String.eqb t "") eqn:Et; cbn [negb] in *.
    + destruct (truthy (ofNullable (Candidate.candidate_cv_id c)));
        unpair Ha Hroot Hworld;
        (split; cbn [HRCard.root HRCard.world viewExpanded viewCvExpanded viewText
                     viewBrowser viewWaiting];
         [apply put_back; exact Hroot|]).
      * etransitivity; [exact Hworld|]. unfold request, viewRequest, send.
        cbn [w fst snd cand nestedMount waiting viewText viewBrowser viewWaiting].
        now rewrite map_app.
      * exact Hworld.
    + unpair Ha Hroot Hworld.
      split; cbn [HRCard.root HRCard.world viewExpanded viewCvExpanded viewText
                  viewBrowser viewWaiting];
        [apply put_back; exact Hroot|exact Hworld].
Qed.

Lemma step_settle c v card k :
  seenAs c v card -> forall css server,
  seenAs c (viewStep css server c (Settle k) v) (settle k card).
Proof.
  intros [Hr Hw] css server. destruct card as [r w calls].
  cbn [HRCard.root HRCard.world] in *. subst r w.
  unfold settle, viewStep. cbv zeta.
  cbn [HRCard.world HRCard.root HRCard.calls fst snd waiting cand nestedMount].
  rewrite nth_error_map.
  destruct (nth_error (viewWaiting v) k) as [r|]; cbn [option_map].
  - cbn [target answer]. rewrite write_region, removeNth_map. split; reflexivity.
  - split; reflexivity.
Qed.

Lemma step_seen css server c v card e :
  seenAs c v card ->
  seenAs c (viewStep css server c e v) (candEvent css server e card).
Proof.
  intros Hs. destruct e as [ev|ev|k].
  - destruct (HRCard.activates ev) eqn:E; [now apply step_card|].
    unfold viewStep. cbv zeta. rewrite E. cbn [negb candEvent]. unfold candHeaderEvent.
    now rewrite (CardLaws.dispatch_other _ _ _ E).
  - destruct (HRCard.activates ev) eqn:E; [now apply step_cv|].
    unfold viewStep. cbv zeta. rewrite E. cbn [negb candEvent].
    destruct Hs as [Hr Hw]. destruct card as [r w calls].
    cbn [HRCard.root HRCard.world] in *. subst r w.
    unfold cvHeaderEvent.
    cbn [HRCard.world HRCard.root HRCard.calls fst cand nestedMount app].
    rewrite mounted_cv. cbv beta iota zeta.
    rewrite (CardLaws.dispatch_other _ _ _ E). cbn [HRCard.root HRCard.world].
    rewrite put_cv. split; reflexivity.
  - now apply step_settle.
Qed.

Lemma events_seen css server c es v card :
  seenAs c v card ->
  seenAs c (viewSteps css server c es v) (candEvents css server es card).
Proof.
  revert v card. induction es as [|e es IH]; intros v card Hs; [exact Hs|].
  simpl. apply IH. now apply step_seen.
Qed.

(** *** What is read off a card that is seen as a view *)

Lemma seen_region c v card :
  seenAs c v card -> cvRegionText card = Some (viewText v).
Proof.
  intros [Hr _]. unfold cvRegionText. rewrite Hr, region_first.
  destruct (region_node c (viewExpanded v) (viewCvExpanded v) (viewText v))
    as (n & Hn & Ht).
  rewrite Hn. cbn [option_map]. now rewrite Ht.
Qed.

Lemma seen_browser c v card :
  seenAs c v card -> snd (HRCard.world card) = viewBrowser v.
Proof. intros [_ Hw]. now rewrite Hw. Qed.



(** *** Requests *)

Lemma documentFetches_document l cvId :
  documentFetches (l ++ [documentRequest cvId]) = S (documentFetches l).
Proof.
  assert (E : isDocumentFetch (documentRequest cvId) = true)
    by (destruct cvId; reflexivity).
  unfold documentFetches. rewrite filter_app, length_app.
  cbn [filter]. rewrite E. simpl. lia.
Qed.


(** A request from the view: one more request for a document, one more
    answer to wait for. *)
Lemma viewRequest_sends server c v e1 e2 :
  fetchesIn (viewRequest server c v e1 e2) = S (fetchesIn v)
  /\ viewText (viewRequest server c v e1 e2) = viewText v
  /\ viewWaiting (viewRequest server c v e1 e2)
     = viewWaiting v
       ++ [server (requests (viewBrowser v))
             (documentRequest (ToString (ofNullable (Candidate.candidate_cv_id c))))]
  /\ alerts (viewBrowser (viewRequest server c v e1 e2)) = alerts (viewBrowser v)
  /\ requests (viewBrowser (viewRequest server c v e1 e2))
     = requests (viewBrowser v)
       ++ [documentRequest (ToString (ofNullable (Candidate.candidate_cv_id c)))].
Proof.
  unfold viewRequest, fetchesIn, send.
  cbn [viewBrowser viewText viewWaiting fst snd requests alerts].
  split; [apply documentFetches_document|]. repeat split.
Qed.



(** An event that reaches [onToggle], on the view of a card just built
    for a candidate with a CV identifier. *)
Lemma first_step css server c b e :
  truthy (ofNullable (Candidate.candidate_cv_id c)) = true ->
  activating e = true ->
  match e with
  | OnCard _ =>
      if viewReaches css c (mkView false false "" b []) then
        exists e1 e2,
          viewStep css server c e (mkView false false "" b [])
          = viewRequest server c (mkView false false "" b []) e1 e2
      else
        viewStep css server c e (mkView false false "" b [])
        = mkView true false "" b []
  | _ =>
      exists e1 e2,
        viewStep css server c e (mkView false false "" b [])
        = viewRequest server c (mkView false false "" b []) e1 e2
  end.
Proof.
  intros Hcv He. unfold viewStep. cbv zeta. rewrite Hcv.
  cbn [viewExpanded viewCvExpanded viewText String.eqb negb andb].
  destruct e as [ev|ev|k]; cbn [activating] in He; try discriminate;
    rewrite He; cbn [negb].
  - rewrite andb_true_r. destruct (viewReaches css c _); [eauto|reflexivity].
  - eauto.
Qed.


End CandidateFacts.

(** ** The cards of the page

    The hooks that the page controller hands to [makeCard] meet what the
    statements about the card factory ask of hooks. *)

Module PageCards.
Import Js Dom DomFacts HRCard CardFacts App.
Local Open Scope list_scope.

(** An update below the root, or one that keeps the element data, keeps
    the class list of the root. *)
Lemma rootClasses_updateAt p g n :
  (forall x, rootClasses (g x) = rootClasses x) ->
  rootClasses (updateAt p g n) = rootClasses n.
Proof.
  intros Hg. destruct p as [|i p]; [apply Hg|].
  destruct n as [s|e ks]; simpl; [reflexivity|].
  now destruct (nth_error ks i).
Qed.

Lemma rootClasses_setChildren ks n : rootClasses (setChildren ks n) = rootClasses n.
Proof. now destruct n. Qed.

Lemma rootClasses_setTextContent t n :
  elem n <> None -> rootClasses (setTextContent t n) = rootClasses n.
Proof. destruct n; [intros H; now contradiction H|reflexivity]. Qed.

Lemma rootClasses_below i p g n :
  rootClasses (updateAt (i :: p) g n) = rootClasses n.
Proof.
  destruct n as [s|e ks]; simpl; [reflexivity|].
  now destruct (nth_error ks i).
Qed.

Lemma rootClasses_found sel g n p :
  querySelector sel n = Some p ->
  rootClasses (updateAt p g n) = rootClasses n.
Proof.
  intros E. destruct p as [|i p]; [now apply querySelector_below in E|].
  apply rootClasses_below.
Qed.

Lemma rootClasses_foundFrom base sel g n p :
  querySelectorFrom base sel n = Some p ->
  rootClasses (updateAt p g n) = rootClasses n.
Proof.
  unfold querySelectorFrom. destruct (getAt base n) as [b|]; [|discriminate].
  destruct (querySelector sel b) as [q|] eqn:E; [|discriminate].
  intros [= <-]. destruct q as [|i q]; [now apply querySelector_below in E|].
  destruct base as [|j base]; apply rootClasses_below.
Qed.

Lemma noop_keepsClasses {W} : keepsClasses (@noop W).
Proof. intros i r w. reflexivity. Qed.

Lemma jobOnInit_keepsClasses j : keepsClasses (jobOnInit j).
Proof.
  intros i r w. unfold jobOnInit.
  destruct (querySelector (ByClass "card-header") r) as [h|] eqn:Eh; [|reflexivity].
  destruct (querySelector (ByClass "card-body") r) as [b|] eqn:Eb; [|reflexivity].
  destruct (querySelector (ByClass "card-footer") r) as [f|] eqn:Ef; [|reflexivity].
  cbn [fst leaves].
  destruct h as [|? h]; [now apply querySelector_below in Eh|].
  destruct b as [|? b]; [now apply querySelector_below in Eb|].
  destruct f as [|? f]; [now apply querySelector_below in Ef|].
  now rewrite !rootClasses_below.
Qed.

Lemma jobConfig_keepsClasses j : allHooks keepsClasses (jobConfig j).
Proof.
  intros h [E|[E|[E|[]]]]; injection E as <-.
  - apply jobOnInit_keepsClasses.
  - apply noop_keepsClasses.
  - apply noop_keepsClasses.
Qed.

Lemma fillIfFound_rootClasses sel ks n :
  rootClasses (fillIfFound (querySelector sel n) ks n) = rootClasses n.
Proof.
  unfold fillIfFound. destruct (querySelector sel n) as [p|] eqn:E; [|reflexivity].
  now apply (rootClasses_found sel).
Qed.

Lemma cvOnInit_keepsClasses : keepsClasses cvOnInit.
Proof.
  intros i r w. unfold cvOnInit. cbn [fst leaves].
  destruct (querySelector (ByClass "card-header") r) as [[|? h]|] eqn:Eh;
    [now apply querySelector_below in Eh| |];
  (destruct (querySelector (ByClass "card-body") r) as [[|? b]|] eqn:Eb;
    [now apply querySelector_below in Eb| |]);
  (destruct (querySelector (ByClass "card-footer") r) as [[|? f]|] eqn:Ef;
    [now apply querySelector_below in Ef| |]);
  unfold fillIfFound; now rewrite ?rootClasses_below.
Qed.

Lemma cvOnExpand_keepsClasses server : keepsClasses (cvOnExpand server).
Proof.
  intros i r w. unfold cvOnExpand. cbn [leaves].
  destruct (querySelector (ByAttr "data-f-cv") (mounted r)) as [pre|] eqn:E;
    [|reflexivity].
  destruct (getAt pre (mounted r)) as [n|] eqn:En; [|reflexivity].
  destruct (negb (String.eqb (textContent n) "")); [reflexivity|].
  destruct (truthy _); [reflexivity|]. cbn [fst].
  destruct pre as [|k pre]; [now apply querySelector_below in E|].
  unfold mounted, el, unmounted. cbn [updateAt].
  destruct k as [|k]; cbn [nth_error].
  - cbn [replaceNth children nth]. destruct pre as [|k pre].
    + cbn [updateAt]. cbn in En. injection En as <-.
      destruct r; [|reflexivity].
      cbn in E. discriminate.
    + apply rootClasses_below.
  - destruct k; reflexivity.
Qed.

Lemma candOnInit_keepsClasses server : keepsClasses (candOnInit server).
Proof.
  intros i r w. unfold candOnInit.
  destruct (querySelector (ByClass "card-header") r) as [[|? h]|] eqn:Eh;
    [now apply querySelector_below in Eh| |reflexivity].
  destruct (querySelector (ByClass "card-body") r) as [[|? b]|] eqn:Eb;
    [now apply querySelector_below in Eb| |reflexivity].
  destruct (querySelector (ByClass "card-footer") r) as [[|? f]|] eqn:Ef;
    [now apply querySelector_below in Ef| |reflexivity].
  destruct (makeCard _ w []) as [cv|msg]; cbn [fst leaves].
  - match goal with
    | |- context [querySelectorFrom ?base ?sel ?n] =>
        destruct (querySelectorFrom base sel n) as [m|] eqn:Em
    end; cbn [fst leaves].
    + rewrite (rootClasses_foundFrom _ _ _ _ _ Em). now rewrite !rootClasses_below.
    + now rewrite !rootClasses_below.
  - now rewrite !rootClasses_below.
Qed.

Lemma candOnExpand_keepsClasses css server : keepsClasses (candOnExpand css server).
Proof.
  intros i r w. unfold candOnExpand. cbn [leaves].
  destruct (truthy _); [|reflexivity].
  destruct (preEl css _ r) as [[pre|]|m]; try reflexivity.
  destruct (getAt pre r) as [n|]; [|reflexivity].
  destruct (String.eqb (textContent n) ""); reflexivity.
Qed.

Lemma candConfig_keepsClasses css server c :
  allHooks keepsClasses (candConfig css server c).
Proof.
  intros h [E|[E|[E|[]]]]; injection E as <-.
  - apply candOnInit_keepsClasses.
  - apply candOnExpand_keepsClasses.
  - apply noop_keepsClasses.
Qed.

Lemma cvConfig_keepsClasses server k : allHooks keepsClasses (cvConfig server k).
Proof.
  intros h [E|[E|[E|[]]]]; injection E as <-.
  - apply cvOnInit_keepsClasses.
  - apply cvOnExpand_keepsClasses.
  - apply noop_keepsClasses.
Qed.

Lemma makeCard_starts_collapsed {W} (cfg : Config W) w log st :
  startsExpanded cfg = false ->
  makeCard cfg w log = Ok st -> isExpanded (root st) = false.
Proof.
  intros Hs Hm. apply CardLaws.makeCard_Ok in Hm as (_ & _ & _ & ->).
  rewrite Hs. apply isExpanded_collapse.
Qed.

(** The card that [buildJobCard] returns: the fresh root as [onInit]
    leaves it, collapsed. *)
Lemma buildJobCard_card j card :
  buildJobCard j = Ok card ->
  card = onRoot (fun r => toggleExpanded r false)
           (after (fire OnInit (Some (jobOnInit j)) (VStr (Job.id j))
                     (mkState (freshRoot (VStr (Job.id j))) None []))).
Proof.
  intros Hb. now apply CardLaws.makeCard_Ok in Hb as (_ & _ & _ & ->).
Qed.

(** What the templates of a job card show, taken as it is. *)
Ltac as_shown :=
  unfold jobOnInit, jobHeaderMarkup, jobBodyMarkup;
  cbn [Job.id Job.job_title Job.company_name Job.job_description];
  repeat match goal with
         | |- context [shown ?v] => generalize (shown v); intro
         | |- context [shownAttribute ?v] => generalize (shownAttribute v); intro
         | |- context [shownValue ?v] => generalize (shownValue v); intro
         | |- context [shownArea ?v] => generalize (shownArea v); intro
         end.

Lemma jobOnInit_flag j w :
  ariaExpanded
    (fst (leaves (jobOnInit j (VStr (Job.id j)) (freshRoot (VStr (Job.id j))) w)))
  = Some "false".
Proof. reflexivity. Qed.

(** The cards of the jobs page: a run of clicks and key presses on the
    header leaves the card expanded when their number is odd, and the
    flag of the header false throughout. *)
Lemma job_card_states j card evs :
  buildJobCard j = Ok card ->
  forallb activates evs = true ->
  isExpanded (root (run (jobConfig j) evs card)) = Nat.odd (List.length evs)
  /\ ariaExpanded (root (run (jobConfig j) evs card)) = Some "false".
Proof.
  intros Hb Hall. unfold buildJobCard in Hb. split.
  - rewrite (CardLaws.run_alternates _ (jobConfig_keepsClasses j));
      [|exact (CardLaws.makeCard_element _ (jobConfig_keepsClasses j) _ _ _ Hb)
       |exact Hall].
    now rewrite (makeCard_starts_collapsed (jobConfig j) _ _ _ eq_refl Hb).
  - apply CardLaws.run_flag.
    + intros h [= <-]. intros i r w. reflexivity.
    + intros h [= <-]. intros i r w. reflexivity.
    + apply (CardLaws.makeCard_flag (jobConfig j)) with (w := None) (log := []);
        [|intros h [= <-]; intros i r w; reflexivity|exact Hb].
      intros h w [= <-]. apply jobOnInit_flag.
Qed.

(** The cards of the candidates page: under any events the flag of the
    header of the card, and that of the CV card in it, is false. *)
Lemma candidate_card_flags css server c b card es :
  buildCandidateCard css server c b = Ok card ->
  ariaExpanded (root (candEvents css server es card)) = Some "false"
  /\ option_map ariaExpanded
       (getAt [1; 1; 0]%nat (root (candEvents css server es card)))
     = Some (Some "false").
Proof.
  intros Hb.
  destruct (CandidateFacts.events_seen css server c es _ _
              (CandidateFacts.build_seen _ _ _ _ _ Hb))
    as [Hr _].
  rewrite Hr. split; reflexivity.
Qed.

End PageCards.

(* ------------------------------------------------------------------ *)
(** ** The statements about the page controller *)

Import App.





(** C6, as the claim has it, fails: after a save that the server refuses
    the alert is raised and the three controls of the card are
    disabled. *)
Lemma refused_save_disables_fields :
  alerts (snd (snd refusedSave)) = ["Failed to save job"]
  /\ ~ staysEditable (fst (snd refusedSave)).
Proof. split; [reflexivity|]. intros H. vm_compute in H. discriminate. Qed.

(** C6, amended.  On the card of a job, after a click on Edit and new
    values typed into the three controls, a click on Save whose request
    fails (no answer, or an answer that is not 2xx) returns with the
    alert raised, leaves the job object and the header with its title
    and subtitle as they were, and leaves the three controls disabled,
    with the typed values in them, and the button labelled Edit. *)
Theorem failed_save_keeps_job (server : Server) (j : Job.t) (b0 : Browser) (t c d : string)
  (card0 : JobCard) :
  buildJobCard j = Ok card0 ->
  (forall log req, method req = PATCH -> failed (server log req) = true) ->
  let entered := snd (clickEdit server (card0, b0)) in
  let typed := typeAll t c d (fst entered) in
  let saved := clickEdit server (typed, snd entered) in
  fieldsDisabled (fst entered) = [Some false; Some false; Some false] /\
  fst saved = Returned tt /\
  alerts (snd (snd saved)) = alerts b0 ++ ["Failed to save job"] /\
  jobOf (fst (snd saved)) = Some j /\
  headerOf (fst (snd saved)) = headerOf card0 /\
  fieldsDisabled (fst (snd saved)) = [Some true; Some true; Some true] /\
  fieldValues (fst (snd saved)) = [Some t; Some c; Some d] /\
  editLabel (fst (snd saved)) = Some "Edit".
Proof.
  intros Hb Hfail.
  rewrite (PageCards.buildJobCard_card _ _ Hb).
  destruct j as [jid jco jti jde].
  PageCards.as_shown.
  destruct b0 as [reqs als].
  vm_compute.
  match goal with
  | |- context [server ?l ?r] =>
      pose proof (Hfail l r eq_refl) as Hf; destruct (server l r) as [|[|] bd]
  end; try discriminate Hf; repeat split; reflexivity.
Qed.

Lemma failed_save_keeps_job_witness :
  jobOf (fst (snd refusedSave)) = Some exampleJob
  /\ headerOf (fst (snd refusedSave)) = headerOf exampleJobCard.
Proof.
  pose proof (failed_save_keeps_job refusing exampleJob (mkBrowser [] [])
                "Chef" "Acme" "Cooks" exampleJobCard eq_refl
                (fun log req _ => eq_refl)) as H.
  exact (conj (proj1 (proj2 (proj2 (proj2 H))))
              (proj1 (proj2 (proj2 (proj2 (proj2 H)))))).
Defined.

(** C7.  The code at a failing input: when the server cannot be reached,
    [loadJobs] and the start of the page reject with the request sent
    and no alert raised; when the server answers the list request with
    an error status, [loadJobs] returns with an empty list and no alert.
    The listener of the Delete button, next to it, catches the same
    failure and raises its alert. *)
Theorem list_load_failure_escapes (css : Css) :
  let p := blankPage true in
  let listRequest := mkRequest GET "http://localhost:8000/jobs" None in
  fetchJobs offline p = (Rejected, withBrowser (mkBrowser [listRequest] []) p) /\
  loadJobs offline p = (Rejected, withBrowser (mkBrowser [listRequest] []) p) /\
  init css offline p = (Rejected, withBrowser (mkBrowser [listRequest] []) p) /\
  fst (loadJobs refusing p) = Returned tt /\
  alerts (pageBrowser (snd (loadJobs refusing p))) = [] /\
  jobsListEl (snd (loadJobs refusing p)) = [] /\
  fst (jobDeleteClick offline exampleJob true p) = Returned tt /\
  alerts (pageBrowser (snd (jobDeleteClick offline exampleJob true p)))
    = ["Failed to delete job"].
Proof. repeat split. Qed.

(** C8.  When [ensureSearchJobs] has the list of jobs, it returns with
    the select box holding one option per job, in order; the value that
    was selected before (the empty value is that of a select box with
    nothing selected) is selected again when a job has it as its
    identifier; otherwise the first job, if there is one, is selected;
    and the info line is the text for the job whose identifier is the
    selected value, which is a job of the list whenever the list is not
    empty. *)
Theorem ensureSearchJobs_keeps_selection (server : Server) (p p1 : Page)
  (jobs : list Job.t) :
  fetchJobs server p = (Returned jobs, p1) ->
  exists p2,
    ensureSearchJobs server p = (Returned tt, p2) /\
    let curr := selectValue (searchSelect p) in
    let now := selectValue (searchSelect p2) in
    options (searchSelect p2) = map jobOption jobs /\
    (curr <> "" -> In curr (map Job.id jobs) -> now = curr) /\
    (curr = "" \/ ~ In curr (map Job.id jobs) ->
       forall j0 rest, jobs = j0 :: rest -> now = Job.id j0) /\
    searchInfo p2 = infoText (find (fun j => String.eqb (Job.id j) now) jobs) /\
    (jobs <> [] ->
       exists j, find (fun j => String.eqb (Job.id j) now) jobs = Some j /\
                 Job.id j = now).
Proof.
  intros Hf. destruct (PageFacts.fetchJobs_page _ _ _ _ Hf) as [b ->].
  unfold ensureSearchJobs. unfold bind at 1. rewrite Hf.
  unfold bind at 1. unfold get at 1.
  unfold bind at 1. unfold modify at 1.
  unfold bind at 1. rewrite PageFacts.forEach_append.
  set (curr := selectValue (searchSelect (withBrowser b p))).
  assert (Hcurr : curr = selectValue (searchSelect p)) by reflexivity.
  set (p3 := withSelect (appendAll jobs) (withSelect clearOptions (withBrowser b p))).
  assert (Hs3 : searchSelect p3 = rebuilt jobs (searchSelect p)) by reflexivity.
  unfold bind at 1. unfold get at 1.
  destruct jobs as [|j0 rest].
  - (* no job *)
    rewrite PageFacts.rebuilt_shape in Hs3.
    eexists. split.
    + unfold bind, when, get, modify, ret, updateSearchInfo. cbn -[p3 infoText].
      rewrite Hs3. cbn -[p3 infoText]. rewrite andb_false_r. reflexivity.
    + cbn -[p3 infoText]. rewrite Hs3. cbn. repeat split; try tauto; try congruence.
  - (* at least one job: after the default the first option is selected *)
    set (sel1 := mkSelect (dropDown (searchSelect p))
                   (map jobOption (j0 :: rest)) (Some 0%nat)).
    assert (H1 : forall q, searchSelect q = rebuilt (j0 :: rest) (searchSelect p) ->
       when (negb (Nat.eqb (List.length (j0 :: rest)) 0)
             && negb (truthy (VStr (selectValue (searchSelect q)))))%bool
         (modify (withSelect (setSelectValue (Job.id j0)))) q
       = (Returned tt, withSelect (fun _ => sel1) q)).
    { intros q Hq. destruct q as [qb qj qc qs qi qv]. cbn [searchSelect] in *.
      subst qs. rewrite PageFacts.rebuilt_shape. unfold when, modify, ret, withSelect, sel1.
      cbn [List.length Nat.eqb negb andb searchSelect pageBrowser jobsListEl
           candidatesListEl searchInfo visiblePage].
      destruct (dropDown (searchSelect p)) eqn:Ed.
      - cbn. destruct (String.eqb (Job.id j0) "") eqn:E0; cbn; [|reflexivity].
        apply String.eqb_eq in E0. unfold setSelectValue. cbn.
        rewrite E0. reflexivity.
      - cbn. unfold setSelectValue. cbn. now rewrite String.eqb_refl. }
    unfold bind at 1. rewrite (H1 p3 Hs3).
    unfold bind at 1. unfold get at 1.
    set (p4 := withSelect (fun _ => sel1) p3).
    assert (Hs4 : searchSelect p4 = sel1) by reflexivity.
    unfold bind at 1. rewrite Hs4.
    change (options sel1) with (map jobOption (j0 :: rest)).
    destruct (truthy (VStr curr)
              && existsb (fun o => String.eqb (optionValue o) curr)
                   (map jobOption (j0 :: rest)))%bool eqn:Ec.
    + (* the previous value is still there *)
      apply andb_prop in Ec as [Ht Hex].
      apply PageFacts.truthy_VStr in Ht.
      eexists. split; [reflexivity|].
      cbn -[p4 infoText find sel1 map In].
      assert (Hv : selectValue (setSelectValue curr sel1) = curr)
        by (apply PageFacts.selectValue_set; exact Hex).
      rewrite Hs4, Hv.
      apply PageFacts.existsb_option_In in Hex.
      split; [reflexivity|]. split; [reflexivity|]. split; [|split].
      * intros [H|H]; [|contradiction]. rewrite <- Hcurr in H. contradiction.
      * reflexivity.
      * intros _. now apply PageFacts.find_In_id.
    + (* it is gone: the first job stays selected *)
      eexists. split; [reflexivity|].
      cbn -[p4 infoText find sel1 map In].
      rewrite Hs4.
      change (selectValue sel1) with (Job.id j0).
      apply andb_false_iff in Ec.
      split; [reflexivity|]. split; [|split; [|split]].
      * intros Hne Hin. destruct Ec as [Ht|Hex].
        -- rewrite <- Hcurr in Hne. apply PageFacts.truthy_VStr in Hne. congruence.
        -- rewrite <- Hcurr in Hin. apply PageFacts.existsb_option_In in Hin. congruence.
      * intros _ j0' rest' [= <- <-]. reflexivity.
      * reflexivity.
      * intros _. apply PageFacts.find_In_id. now left.
Qed.

Lemma ensureSearchJobs_keeps_selection_witness :
  exists p2,
    ensureSearchJobs listing searchingPage = (Returned tt, p2)
    /\ selectValue (searchSelect p2) = "j2"
    /\ searchInfo p2 = "Selected: Cook".
Proof.
  destruct (ensureSearchJobs_keeps_selection listing searchingPage _ _ eq_refl)
    as (p2 & Hrun & _ & Hkeep & _ & Hinfo & _).
  exists p2. split; [exact Hrun|].
  assert (Hv : selectValue (searchSelect p2) = "j2").
  { apply Hkeep; [discriminate|]. right; now left. }
  split; [exact Hv|]. rewrite Hinfo, Hv. reflexivity.
Defined.

(* ------------------------------------------------------------------ *)
(** * Further properties

    What the code shows beyond the statements above: the escaping of the
    templates, the construction and the events of a card, the loading of
    the two lists, the listeners of the buttons, and the start of the
    page. *)

Import Listeners.

(* ------------------------------------------------------------------ *)
(** ** Escaping *)

Module UtilFacts.
Import Js Dom App Listeners.
Local Open Scope string_scope.

Lemma replaceAll_plain s : hasSpecial s = false -> replaceAll s "" = s.
Proof.
  induction s as [|c s IH]; simpl; [reflexivity|].
  intros H. apply orb_false_iff in H as [Hc Hs].
  rewrite Hc. simpl. now rewrite IH.
Qed.

Lemma truthy_string s : ToString (or_else (VStr s) (VStr "")) = s.
Proof. unfold or_else. simpl. now destruct s. Qed.

Lemma substring_all m r : String.length r <= m -> substring 0 m r = r.
Proof.
  revert m. induction r as [|c r IH]; intros m H.
  - now destruct m.
  - destruct m as [|m]; simpl in *; [lia|]. rewrite IH; [reflexivity|lia].
Qed.

Lemma special_cases c :
  special c = true -> c = "&"%char \/ c = "<"%char \/ c = ">"%char \/ c = dquote.
Proof.
  unfold special. rewrite !orb_true_iff, !Ascii.eqb_eq. tauto.
Qed.

Lemma parsedText_plain fuel c r :
  special c = false ->
  parsedText (S fuel) (String c r) = String c (parsedText fuel r).
Proof.
  intros H. cbn [parsedText].
  assert (Hc : c <> "&"%char).
  { intros ->. discriminate. }
  assert (Hp : forall e, prefix (String "&" e) (String c r) = false).
  { intros e. cbn [prefix]. destruct (ascii_dec "&" c); [congruence|reflexivity]. }
  now rewrite !Hp.
Qed.

Lemma prefix_nil r : prefix "" r = true.
Proof. now destruct r. Qed.

Lemma prefix_cons a s r : prefix (String a s) (String a r) = prefix s r.
Proof. cbn [prefix]. destruct (ascii_dec a a); [reflexivity|contradiction]. Qed.

Lemma prefix_diff a b s r : a <> b -> prefix (String a s) (String b r) = false.
Proof. intros H. cbn [prefix]. destruct (ascii_dec a b); [contradiction|reflexivity]. Qed.

Ltac prefix_steps :=
  repeat first [ rewrite prefix_nil | rewrite prefix_cons
               | rewrite prefix_diff by discriminate ].

Lemma parsedText_entity fuel c r :
  special c = true ->
  String.length r <= fuel ->
  parsedText (S fuel) (replacement (String c "") ++ r)
  = String c (parsedText fuel r).
Proof.
  intros Hs Hr.
  destruct (special_cases c Hs) as [-> | [-> | [-> | ->]]].
  all: unfold replacement;
    cbn [lookup entities String.eqb Ascii.eqb Bool.eqb fst snd append dquote].
  all: cbn [parsedText]; cbv zeta; prefix_steps.
  all: cbn [String.length substring]; rewrite substring_all by lia; reflexivity.
Qed.

Lemma length_append a b :
  String.length (a ++ b) = String.length a + String.length b.
Proof. induction a as [|c a IH]; simpl; [reflexivity|now rewrite IH]. Qed.

(** What the parser reads back from the escaped text of a string whose
    special characters stand alone. *)
Lemma parsed_isolated s :
  isolated s = true ->
  (forall fuel, String.length (replaceAll s "") <= fuel ->
     parsedText fuel (replaceAll s "") = s)
  /\ (forall c fuel,
        special c = true ->
        match s with String d _ => special d = false | EmptyString => True end ->
        String.length (replaceAll s (String c "")) <= fuel ->
        parsedText fuel (replaceAll s (String c "")) = String c s).
Proof.
  induction s as [|d s IH]; intros Hi.
  - split.
    + intros fuel _. now destruct fuel.
    + intros c fuel Hc _ Hf. cbn [replaceAll flush String.eqb] in *.
      destruct fuel as [|fuel].
      { destruct (special_cases c Hc) as [-> | [-> | [-> | ->]]]; cbn in Hf; lia. }
      rewrite <- (CandidateFacts.append_empty (replacement (String c ""))) at 1.
      rewrite parsedText_entity; [|exact Hc|cbn; lia]. now destruct fuel.
  - assert (Hs : isolated s = true).
    { cbn [isolated] in Hi. destruct s; [reflexivity|].
      now apply andb_prop in Hi as [_ Hi]. }
    destruct (IH Hs) as [IH1 IH2]. split.
    + intros fuel Hf. cbn [replaceAll] in *.
      destruct (special d) eqn:Ed.
      * apply IH2; [exact Ed| |exact Hf].
        cbn [isolated] in Hi. destruct s as [|e s]; [exact I|].
        apply andb_prop in Hi as [Hi _]. rewrite Ed in Hi. cbn in Hi.
        now apply negb_true_iff in Hi.
      * cbn [flush String.eqb append] in *. destruct fuel as [|fuel]; [cbn in Hf; lia|].
        rewrite parsedText_plain by exact Ed. rewrite IH1; [reflexivity|].
        cbn in Hf. lia.
    + intros c fuel Hc Hd Hf. cbn [replaceAll] in *. rewrite Hd in *.
      cbn [append flush String.eqb] in *.
      assert (Hl : String.length (replacement (String c "")) >= 1).
      { destruct (special_cases c Hc) as [-> | [-> | [-> | ->]]]; cbn; lia. }
      rewrite length_append in Hf. cbn [String.length] in Hf.
      destruct fuel as [|fuel]; [lia|].
      rewrite parsedText_entity; [|exact Hc|cbn [String.length]; lia].
      destruct fuel as [|fuel]; [lia|].
      rewrite parsedText_plain by exact Hd. rewrite IH1; [reflexivity|lia].
Qed.

(** Strings without certain characters. *)
Lemma noneOf_weaken bad bad' s :
  (forall c, existsb (Ascii.eqb c) bad' = true -> existsb (Ascii.eqb c) bad = true) ->
  noneOf bad s = true -> noneOf bad' s = true.
Proof.
  intros Hsub. induction s as [|c s IH]; [reflexivity|].
  cbn [noneOf]. intros H. apply andb_prop in H as [Hc Hs].
  rewrite (IH Hs), andb_true_r. apply negb_true_iff in Hc. apply negb_true_iff.
  destruct (existsb (Ascii.eqb c) bad') eqn:E; [|reflexivity].
  now rewrite (Hsub c E) in Hc.
Qed.

Lemma noneOf_app bad a b :
  noneOf bad (a ++ b) = (noneOf bad a && noneOf bad b)%bool.
Proof.
  induction a as [|c a IH]; [reflexivity|].
  cbn [append noneOf]. now rewrite IH, andb_assoc.
Qed.

Lemma plain_parts s :
  plain s = true ->
  isolated s = true /\ noneOf [CR] s = true /\ noneOf [NUL] s = true
  /\ noneOf [LF; CR] s = true /\ noneOf [LF] s = true.
Proof.
  unfold plain. intros H. apply andb_prop in H as [Hi Hn]. split; [exact Hi|].
  repeat split; apply (noneOf_weaken [NUL; LF; CR]); try exact Hn;
    intros c; cbn [existsb]; rewrite ?orb_false_r, ?orb_true_iff; tauto.
Qed.

Lemma newlines_same s : noneOf [CR] s = true -> newlines s = s.
Proof.
  induction s as [|c s IH]; [reflexivity|].
  cbn [noneOf existsb newlines]. rewrite orb_false_r. intros H.
  apply andb_prop in H as [Hc Hs]. apply negb_true_iff in Hc.
  now rewrite Hc, (IH Hs).
Qed.

Lemma withoutNull_same s : noneOf [NUL] s = true -> withoutNull s = s.
Proof.
  induction s as [|c s IH]; [reflexivity|].
  cbn [noneOf existsb withoutNull]. rewrite orb_false_r. intros H.
  apply andb_prop in H as [Hc Hs]. apply negb_true_iff in Hc.
  now rewrite Hc, (IH Hs).
Qed.

Lemma withReplacement_same s : noneOf [NUL] s = true -> withReplacement s = s.
Proof.
  induction s as [|c s IH]; [reflexivity|].
  cbn [noneOf existsb withReplacement]. rewrite orb_false_r. intros H.
  apply andb_prop in H as [Hc Hs]. apply negb_true_iff in Hc.
  now rewrite Hc, (IH Hs).
Qed.

Lemma stripNewlines_same s : noneOf [LF; CR] s = true -> stripNewlines s = s.
Proof.
  induction s as [|c s IH]; [reflexivity|].
  cbn [noneOf existsb stripNewlines]. rewrite orb_false_r. intros H.
  apply andb_prop in H as [Hc Hs]. apply negb_true_iff in Hc.
  now rewrite Hc, (IH Hs).
Qed.

Lemma dropLeadingLF_same s : noneOf [LF] s = true -> dropLeadingLF s = s.
Proof.
  destruct s as [|c s]; [reflexivity|].
  cbn [noneOf existsb dropLeadingLF]. rewrite orb_false_r. intros H.
  apply andb_prop in H as [Hc _]. apply negb_true_iff in Hc. now rewrite Hc.
Qed.

(** Escaping writes no carriage return of its own. *)
Lemma replacement_noCR m : noneOf [CR] (replacement m) = true.
Proof.
  unfold replacement, entities. cbn [lookup].
  repeat match goal with
         | |- context [if ?b then _ else _] => destruct b
         end; reflexivity.
Qed.

Lemma replaceAll_noCR s : forall m,
  noneOf [CR] s = true -> noneOf [CR] (replaceAll s m) = true.
Proof.
  induction s as [|c s IH]; intros m H.
  - cbn [replaceAll]. unfold flush. destruct (String.eqb m ""); [reflexivity|].
    apply replacement_noCR.
  - cbn [noneOf] in H. apply andb_prop in H as [Hc Hs].
    cbn [replaceAll]. destruct (special c); [now apply IH|].
    rewrite noneOf_app. cbn [noneOf]. rewrite Hc, (IH _ Hs), andb_true_r.
    unfold flush. destruct (String.eqb m ""); [reflexivity|]. apply replacement_noCR.
Qed.

(** What the parser reads back from the escaped text of a string whose
    special characters stand alone and that has no carriage return. *)
Lemma parsed_round_trip s :
  isolated s = true -> noneOf [CR] s = true -> parsed (escapeHtml (VStr s)) = s.
Proof.
  intros Hi Hn. unfold parsed, escapeHtml. rewrite truthy_string. cbv zeta.
  rewrite (newlines_same _ (replaceAll_noCR s "" Hn)).
  now apply (proj1 (parsed_isolated s Hi)).
Qed.

Lemma shown_round_trip s : plain s = true -> shown (VStr s) = s.
Proof.
  intros H. destruct (plain_parts s H) as (Hi & Hc & Hn & _).
  unfold shown. rewrite (parsed_round_trip s Hi Hc). now apply withoutNull_same.
Qed.

Lemma shownValue_round_trip s : plain s = true -> shownValue (VStr s) = s.
Proof.
  intros H. destruct (plain_parts s H) as (Hi & Hc & Hn & Hl & _).
  unfold shownValue, shownAttribute. rewrite (parsed_round_trip s Hi Hc).
  rewrite (withReplacement_same _ Hn). now apply stripNewlines_same.
Qed.

Lemma shownArea_round_trip s : plain s = true -> shownArea (VStr s) = s.
Proof.
  intros H. destruct (plain_parts s H) as (Hi & Hc & Hn & _ & Hl).
  unfold shownArea. rewrite (parsed_round_trip s Hi Hc).
  rewrite (withReplacement_same _ Hn). now apply dropLeadingLF_same.
Qed.

End UtilFacts.

(** X1.  [escapeHtml] returns a string that has none of the four
    special characters as it is. *)
Theorem escapeHtml_plain (s : string) :
  hasSpecial s = false -> escapeHtml (VStr s) = s.
Proof.
  intros H. unfold escapeHtml. rewrite UtilFacts.truthy_string.
  now apply UtilFacts.replaceAll_plain.
Qed.

Lemma escapeHtml_plain_witness : escapeHtml (VStr "Cook") = "Cook"%string.
Proof. exact (escapeHtml_plain "Cook" eq_refl). Defined.

(** X2.  Escaping and parsing are a round trip on the strings whose
    special characters stand alone and that have no carriage return and
    no NUL character: a template shows such a string as it is where it
    is the text of an element or the value of a quoted attribute, each
    special character written as its entity and read back.  A text
    input that has the string as its [value] attribute holds it as it
    is when it has no line feed either, and a [textarea] when it does
    not start with one. *)
Theorem shown_isolated (s : string) :
  isolated s = true ->
  noneOf [NUL; CR] s = true ->
  shown (VStr s) = s
  /\ shownAttribute (VStr s) = s
  /\ (noneOf [LF] s = true -> shownValue (VStr s) = s)
  /\ (dropLeadingLF s = s -> shownArea (VStr s) = s).
Proof.
  intros Hi Hn.
  assert (Hc : noneOf [CR] s = true).
  { apply (UtilFacts.noneOf_weaken [NUL; CR]); [|exact Hn].
    intros c; cbn [existsb]; rewrite ?orb_false_r, ?orb_true_iff; tauto. }
  assert (Hz : noneOf [NUL] s = true).
  { apply (UtilFacts.noneOf_weaken [NUL; CR]); [|exact Hn].
    intros c; cbn [existsb]; rewrite ?orb_false_r, ?orb_true_iff; tauto. }
  unfold shownValue, shownArea, shownAttribute, shown.
  rewrite (UtilFacts.parsed_round_trip s Hi Hc).
  rewrite (UtilFacts.withoutNull_same _ Hz), (UtilFacts.withReplacement_same _ Hz).
  repeat split.
  - intros Hl. apply UtilFacts.stripNewlines_same.
    revert Hc Hl. clear. induction s as [|c s IH]; [reflexivity|].
    cbn [noneOf existsb]. rewrite !orb_false_r. intros Hc Hl.
    apply andb_prop in Hc as [Hc Hs]. apply andb_prop in Hl as [Hl Hs'].
    apply negb_true_iff in Hc, Hl. now rewrite Hc, Hl, (IH Hs Hs').
  - now intros ->.
Qed.

Lemma shown_isolated_witness :
  shown (VStr "R&D <lab>") = "R&D <lab>"%string
  /\ shownValue (VStr "R&D <lab>") = "R&D <lab>"%string.
Proof.
  pose proof (shown_isolated "R&D <lab>" eq_refl eq_refl) as H.
  exact (conj (proj1 H) (proj1 (proj2 (proj2 H)) eq_refl)).
Defined.

(* ------------------------------------------------------------------ *)
(** ** The card factory *)

Module MoreCardFacts.
Import Js Dom DomFacts HRCard CardFacts.
Local Open Scope list_scope.










Lemma div2_SS n : Nat.div2 (S (S n)) = S (Nat.div2 n).
Proof. reflexivity. Qed.




(** *** Hooks that count *)

Section Counting.
Context {W : Type}.
Variable cfg : Config W.








End Counting.

End MoreCardFacts.

(** X3.  A card made without hooks has the three regions as the first,
    second and third child of its root, in that order, and each is what
    its selector finds; the root carries the identifier as text in
    [data-card-id]; the card is expanded exactly when
    [initiallyExpanded] is truthy; it has no text; and making it
    touches nothing else. *)
Theorem makeCard_regions {W : Type} (i initially : Value) (w : W) (log : list Call) :
  truthy i = true ->
  let cfg := mkConfig i None None None initially in
  exists st,
    makeCard cfg w log = Ok st
    /\ querySelector (ByClass "card-header") (root st) = Some [0]
    /\ querySelector (ByClass "card-body") (root st) = Some [1]
    /\ querySelector (ByClass "card-footer") (root st) = Some [2]
    /\ getAttribute "data-card-id" (root st) = Some (ToString i)
    /\ isExpanded (root st) = startsExpanded cfg
    /\ textContent (root st) = ""%string
    /\ world st = w /\ calls st = log.
Proof.
  intros Ht cfg. rewrite CardLaws.makeCard_cases. cbv zeta.
  change (id cfg) with i. rewrite Ht. cbn [negb].
  destruct (startsExpanded cfg); eexists; (split; [reflexivity|]); repeat split.
Qed.

Lemma makeCard_regions_witness :
  exists st : State nat,
    makeCard (mkConfig (VNum (mkSafe 7 eq_refl)) None None None (VBool true)) 0 []
    = Ok st
    /\ getAttribute "data-card-id" (root st) = Some "7"%string
    /\ isExpanded (root st) = true.
Proof.
  destruct (makeCard_regions (VNum (mkSafe 7 eq_refl)) (VBool true) 0 [] eq_refl)
    as (st & H1 & _ & _ & _ & H5 & H6 & _).
  exists st. split; [exact H1|]. split; [exact H5|exact H6].
Defined.





(** X6.  Key presses other than Enter and Space do nothing: a run of
    events leaves the card as the clicks and the Enter and Space presses
    among them leave it. *)
Theorem run_ignores_other_keys {W : Type} (cfg : Config W) (evs : list HeaderEvent)
  (st : State W) :
  run cfg evs st = run cfg (filter activates evs) st.
Proof.
  revert st. induction evs as [|ev evs IH]; intros st; [reflexivity|].
  cbn [filter]. destruct (activates ev) eqn:E.
  - cbn [run fold_left]. apply IH.
  - cbn [run fold_left]. rewrite (CardLaws.dispatch_other cfg _ _ E). apply IH.
Qed.



(* ------------------------------------------------------------------ *)
(** ** The lists and the listeners of the page *)

Module MorePageFacts.
Import Js Dom App Listeners.
Local Open Scope list_scope.

Lemma fetch_sent server req (p : Page) :
  snd (fetch server req p) = sent req p.
Proof.
  unfold fetch, send. cbn [browser pageHasBrowser].
  now destruct (server _ _).
Qed.

Lemma fetchJobs_sent server (p : Page) :
  snd (fetchJobs server p) = sent jobsRequest p.
Proof.
  unfold fetchJobs, bind.
  pose proof (fetch_sent server jobsRequest p) as H. unfold jobsRequest in H.
  destruct (fetch server _ p) as [[res|] p1]; cbn [snd] in *; [|exact H].
  unfold json. destruct (snd res); [exact H|exact H|exact H].
Qed.

Lemma fetchCandidates_sent server (p : Page) :
  snd (fetchCandidates server p) = sent candidatesRequest p.
Proof.
  unfold fetchCandidates, bind.
  pose proof (fetch_sent server candidatesRequest p) as H. unfold candidatesRequest in H.
  destruct (fetch server _ p) as [[res|] p1]; cbn [snd] in *; [|exact H].
  unfold json. destruct (snd res); [exact H|exact H|exact H].
Qed.

(** What [ensureSearchJobs] leaves in the select box for the jobs it
    was given and the value selected before. *)
Lemma ensureSearchJobs_run server (p p1 : Page) jobs :
  fetchJobs server p = (Returned jobs, p1) ->
  exists sel,
    ensureSearchJobs server p
    = (Returned tt,
       withInfo (infoText (find (fun j => String.eqb (Job.id j) (selectValue sel)) jobs))
         (withSelect (fun _ => sel) p1))
    /\ options sel = map jobOption jobs.
Proof.
  intros Hf. unfold ensureSearchJobs. unfold bind at 1. rewrite Hf.
  unfold bind at 1. unfold get at 1.
  unfold bind at 1. unfold modify at 1.
  unfold bind at 1. rewrite PageFacts.forEach_append.
  unfold bind at 1. unfold get at 1.
  set (p3 := withSelect (appendAll jobs) (withSelect clearOptions p1)).
  assert (Hs3 : searchSelect p3 = rebuilt jobs (searchSelect p1)) by reflexivity.
  assert (Ho3 : options (searchSelect p3) = map jobOption jobs).
  { rewrite Hs3, PageFacts.rebuilt_shape. reflexivity. }
  destruct jobs as [|j0 rest].
  - cbn [List.length Nat.eqb negb andb when]. unfold bind at 1. unfold ret at 1.
    unfold bind at 1. unfold get at 1.
    unfold bind at 1.
    destruct (truthy (VStr (selectValue (searchSelect p1))) &&
              existsb _ (options (searchSelect p3)))%bool eqn:Ec.
    + rewrite Ho3 in Ec. cbn in Ec. rewrite andb_false_r in Ec. discriminate.
    + cbn [when]. unfold ret at 1. unfold bind at 1. unfold get at 1.
      unfold updateSearchInfo, modify.
      exists (searchSelect p3). split; [|exact Ho3].
      destruct p1; reflexivity.
  - cbn [List.length Nat.eqb negb andb].
    unfold bind at 1.
    destruct (negb (truthy (VStr (selectValue (searchSelect p3))))) eqn:E1; cbn [when].
    + unfold modify at 1. unfold bind at 1. unfold get at 1. unfold bind at 1.
      match goal with
      | |- context [when ?c _] => destruct c
      end; cbn [when].
      * unfold modify at 1. unfold bind at 1. unfold get at 1.
        unfold updateSearchInfo, modify.
        exists (setSelectValue (selectValue (searchSelect p1))
                  (setSelectValue (Job.id j0) (searchSelect p3))).
        split; [|exact Ho3].
        destruct p1; reflexivity.
      * unfold ret at 1. unfold bind at 1. unfold get at 1.
        unfold updateSearchInfo, modify.
        exists (setSelectValue (Job.id j0) (searchSelect p3)). split; [|exact Ho3].
        destruct p1; reflexivity.
    + unfold ret at 1. unfold bind at 1. unfold get at 1. unfold bind at 1.
      match goal with
      | |- context [when ?c _] => destruct c
      end; cbn [when].
      * unfold modify at 1. unfold bind at 1. unfold get at 1.
        unfold updateSearchInfo, modify.
        exists (setSelectValue (selectValue (searchSelect p1)) (searchSelect p3)).
        split; [|exact Ho3].
        destruct p1; reflexivity.
      * unfold ret at 1. unfold bind at 1. unfold get at 1.
        unfold updateSearchInfo, modify.
        exists (searchSelect p3). split; [|exact Ho3].
        destruct p1; reflexivity.
Qed.


Lemma ensureSearchJobs_cases server (p : Page) :
  (exists jobs sel,
     fetchJobs server p = (Returned jobs, sent jobsRequest p)
     /\ ensureSearchJobs server p
        = (Returned tt,
           withInfo (infoText (find (fun j => String.eqb (Job.id j) (selectValue sel)) jobs))
             (withSelect (fun _ => sel) (sent jobsRequest p)))
     /\ options sel = map jobOption jobs)
  \/ (fetchJobs server p = (Rejected, sent jobsRequest p)
      /\ ensureSearchJobs server p = (Rejected, sent jobsRequest p)).
Proof.
  pose proof (fetchJobs_sent server p) as Hs.
  destruct (fetchJobs server p) as [[jobs|] p1] eqn:Hf; cbn [snd] in Hs; subst p1.
  - left. destruct (ensureSearchJobs_run _ _ _ _ Hf) as (sel & Hrun & Ho).
    exists jobs, sel. auto.
  - right. split; [reflexivity|]. unfold ensureSearchJobs, bind. now rewrite Hf.
Qed.

Lemma jobOnInit_returns j i r w : HRCard.exception (jobOnInit j i r w) = None.
Proof.
  unfold jobOnInit.
  destruct (querySelector (ByClass "card-header") r); [|reflexivity].
  destruct (querySelector (ByClass "card-body") r); [|reflexivity].
  destruct (querySelector (ByClass "card-footer") r); reflexivity.
Qed.

Lemma buildJobCard_cases j :
  buildJobCard j
  = if jobHasId j then
      Ok (HRCard.onRoot (fun r => HRCard.toggleExpanded r false)
            (HRCard.after
               (HRCard.fire HRCard.OnInit (Some (jobOnInit j)) (VStr (Job.id j))
                  (HRCard.mkState (HRCard.freshRoot (VStr (Job.id j))) None []))))
    else Throw "makeCard: `id` is required".
Proof.
  unfold buildJobCard. rewrite CardLaws.makeCard_cases. cbv zeta.
  unfold jobHasId. cbn [HRCard.id jobConfig truthy].
  destruct (negb (String.eqb (Job.id j) "")); [|reflexivity]. cbn [negb].
  rewrite CardLaws.fire_raised. cbn [HRCard.thrown HRCard.onInit jobConfig].
  now rewrite jobOnInit_returns.
Qed.

Lemma jobHasId_true j : jobHasId j = true -> buildJobCard j = Ok (jobCardOf j).
Proof.
  intros E. unfold jobCardOf. now rewrite buildJobCard_cases, E.
Qed.

Lemma jobHasId_false j :
  jobHasId j = false -> buildJobCard j = Throw "makeCard: `id` is required".
Proof. intros E. now rewrite buildJobCard_cases, E. Qed.

Lemma forEach_jobs jobs (p : Page) :
  forEach jobs
    (fun it : Job.t =>
       c <- ofResult (buildJobCard it) ;;
       modify (fun p => setContents jobsList (contents jobsList p ++ [c]) p)) p
  = (if jobsHaveIds jobs then Returned tt else Rejected,
     withJobs (jobsListEl p ++ map jobCardOf (leading jobHasId jobs)) p).
Proof.
  revert p. induction jobs as [|j jobs IH]; intros p.
  - cbn. rewrite app_nil_r. now destruct p.
  - cbn [forEach jobsHaveIds forallb leading]. unfold bind at 1. unfold bind at 1.
    destruct (jobHasId j) eqn:E.
    + rewrite (jobHasId_true _ E). cbn [ofResult]. unfold ret at 1. unfold modify at 1.
      rewrite IH. cbn [andb]. fold (jobsHaveIds jobs). f_equal.
      destruct p. cbn. now rewrite <- app_assoc.
    + rewrite (jobHasId_false _ E). cbn [ofResult]. unfold throw.
      cbn [andb map]. rewrite app_nil_r. now destruct p.
Qed.

Lemma renderList_jobs jobs (p : Page) :
  renderList jobsList jobs (fun j => ofResult (buildJobCard j)) p
  = (if jobsHaveIds jobs then Returned tt else Rejected,
     withJobs (map jobCardOf (leading jobHasId jobs)) p).
Proof.
  unfold renderList. unfold bind at 1. unfold modify at 1.
  rewrite forEach_jobs. now destruct p.
Qed.

Lemma loadJobs_cases server (p : Page) :
  match fst (fetchJobs server p) with
  | Rejected => loadJobs server p = (Rejected, sent jobsRequest p)
  | Returned jobs =>
      let p1 := withJobs (map jobCardOf (leading jobHasId jobs)) (sent jobsRequest p) in
      if jobsHaveIds jobs then loadJobs server p = ensureSearchJobs server p1
      else loadJobs server p = (Rejected, p1)
  end.
Proof.
  pose proof (fetchJobs_sent server p) as Hs.
  destruct (fetchJobs server p) as [[jobs|] p1] eqn:Hf; cbn [fst snd] in *; subst p1.
  - cbv zeta. destruct (jobsHaveIds jobs) eqn:Ej;
      unfold loadJobs; unfold bind at 1; rewrite Hf; unfold bind at 1;
      rewrite renderList_jobs, Ej; reflexivity.
  - unfold loadJobs. unfold bind at 1. now rewrite Hf.
Qed.

Lemma candidateHasId_true css server c b :
  candidateHasId c = true ->
  exists calls,
    buildCandidateCard css server c b
    = Ok (HRCard.mkState (fst (candidateEntryOf c)) (snd (candidateEntryOf c), b) calls).
Proof.
  intros E.
  destruct (buildCandidateCard css server c b) as [card|m] eqn:Hb.
  - destruct (CandidateFacts.build_seen _ _ _ _ _ Hb) as [Hr Hw].
    destruct card as [r w calls].
    cbn [HRCard.root HRCard.world viewExpanded viewCvExpanded viewText viewBrowser
         viewWaiting map]
      in Hr, Hw.
    subst r w. exists calls. reflexivity.
  - exfalso. revert Hb. unfold candidateHasId in E.
    destruct c as [[|a cid] cname ccv]; [discriminate E|].
    destruct b as [reqs als]. CandidateFacts.run_hooks. discriminate.
Qed.

Lemma candidateHasId_false css server c b :
  candidateHasId c = false ->
  buildCandidateCard css server c b = Throw "makeCard: `id` is required".
Proof.
  unfold candidateHasId, buildCandidateCard. rewrite CardLaws.makeCard_cases.
  cbn [HRCard.id candConfig truthy]. now intros ->.
Qed.

Lemma forEach_candidates css server cs (p : Page) :
  forEach cs
    (fun it : Candidate.t =>
       c <- mountCandidate css server it ;;
       modify (fun p => setContents candidatesList (contents candidatesList p ++ [c]) p))
    p
  = (if candidatesHaveIds cs then Returned tt else Rejected,
     withCandidates
       (candidatesListEl p ++ map candidateEntryOf (leading candidateHasId cs)) p).
Proof.
  revert p. induction cs as [|c cs IH]; intros p.
  - cbn. rewrite app_nil_r. now destruct p.
  - cbn [forEach candidatesHaveIds forallb leading]. unfold bind at 1. unfold bind at 1.
    unfold mountCandidate. unfold bind at 1. unfold get at 1. unfold bind at 1.
    destruct (candidateHasId c) eqn:E.
    + destruct (candidateHasId_true css server c (pageBrowser p) E) as [calls ->].
      cbn [ofResult]. unfold ret at 1. unfold bind at 1. unfold modify at 1.
      unfold ret at 1. unfold modify at 1.
      rewrite IH. cbn [andb]. fold (candidatesHaveIds cs). f_equal.
      destruct p. cbn. now rewrite <- app_assoc.
    + rewrite (candidateHasId_false _ _ _ _ E). cbn [ofResult]. unfold throw.
      cbn [andb map]. rewrite app_nil_r. now destruct p.
Qed.

Lemma loadCandidates_cases css server (p : Page) :
  match fst (fetchCandidates server p) with
  | Rejected => loadCandidates css server p = (Rejected, sent candidatesRequest p)
  | Returned cs =>
      loadCandidates css server p
      = (if candidatesHaveIds cs then Returned tt else Rejected,
         withCandidates (map candidateEntryOf (leading candidateHasId cs))
           (sent candidatesRequest p))
  end.
Proof.
  pose proof (fetchCandidates_sent server p) as Hs.
  destruct (fetchCandidates server p) as [[cs|] p1] eqn:Hf; cbn [fst snd] in *; subst p1.
  - unfold loadCandidates. unfold bind at 1. rewrite Hf.
    unfold renderList. unfold bind at 1. unfold modify at 1.
    rewrite forEach_candidates. now destruct p.
  - unfold loadCandidates. unfold bind at 1. now rewrite Hf.
Qed.

Lemma leading_all {A} (ok : A -> bool) l : forallb ok l = true -> leading ok l = l.
Proof.
  induction l as [|x l IH]; [reflexivity|]. cbn.
  intros H. apply andb_prop in H as [-> H]. now rewrite IH.
Qed.


Lemma leading_stop {A} (ok : A -> bool) pre x post :
  forallb ok pre = true -> ok x = false ->
  leading ok (pre ++ x :: post) = pre /\ forallb ok (pre ++ x :: post) = false.
Proof.
  intros Hp Hx. induction pre as [|y pre IH]; cbn.
  - now rewrite Hx.
  - cbn in Hp. apply andb_prop in Hp as [-> Hp]. destruct (IH Hp) as [-> ->].
    split; reflexivity.
Qed.

(** The card of a job with an identifier. *)
Lemma jobCardOf_facts j :
  jobHasId j = true ->
  cardId (jobCardOf j) = Some (Job.id j)
  /\ jobOf (jobCardOf j) = Some j
  /\ HRCard.isExpanded (HRCard.root (jobCardOf j)) = false
  /\ fieldsDisabled (jobCardOf j) = [Some true; Some true; Some true].
Proof.
  intros E. unfold jobCardOf. rewrite buildJobCard_cases, E.
  destruct j as [jid jco jti jde]. PageCards.as_shown. vm_compute. repeat split.
Qed.

Lemma selectValue_unset v s :
  existsb (fun o => String.eqb (optionValue o) v) (options s) = false ->
  selectValue (setSelectValue v s) = "".
Proof.
  unfold selectValue, setSelectValue. cbn [selectedIndex options].
  induction (options s) as [|o l IH]; [reflexivity|].
  cbn [existsb indexOfValue]. intros H. apply orb_false_iff in H as [-> H].
  specialize (IH H). destruct (indexOfValue v l); [|reflexivity].
  cbn in *. exact IH.
Qed.

Lemma loadJobs_frame server (p : Page) :
  let r := loadJobs server p in
  candidatesListEl (snd r) = candidatesListEl p
  /\ visiblePage (snd r) = visiblePage p
  /\ alerts (pageBrowser (snd r)) = alerts (pageBrowser p)
  /\ ((requests (pageBrowser (snd r)) = requests (pageBrowser p) ++ [jobsRequest]
       /\ fst r = Rejected /\ searchSelect (snd r) = searchSelect p)
      \/ requests (pageBrowser (snd r))
         = requests (pageBrowser p) ++ [jobsRequest; jobsRequest]).
Proof.
  cbv zeta. pose proof (loadJobs_cases server p) as Hl.
  destruct (fst (fetchJobs server p)) as [jobs|].
  - cbv zeta in Hl. destruct (jobsHaveIds jobs).
    + rewrite Hl.
      match goal with
      | |- context [ensureSearchJobs server ?q] =>
          destruct (ensureSearchJobs_cases server q) as [(js & sel & _ & -> & _)|[_ ->]]
      end; destruct p as [[reqs als] pj pc ps pi pv]; cbn; rewrite <- app_assoc;
        repeat split; right; reflexivity.
    + rewrite Hl. destruct p as [[reqs als] pj pc ps pi pv]; cbn.
      repeat split. left. repeat split.
  - rewrite Hl. destruct p as [[reqs als] pj pc ps pi pv]; cbn.
    repeat split. left. repeat split.
Qed.

Lemma candDeleteClick_cases css server c (p : Page) :
  candDeleteClick css server c true p
  = match server (requests (pageBrowser p)) (deleteCandidateRequest c) with
    | Http true _ =>
        match loadCandidates css server (sent (deleteCandidateRequest c) p) with
        | (Returned _, p2) => (Returned tt, p2)
        | (Rejected, p2) => (Returned tt, alerted "Failed to delete candidate" p2)
        end
    | _ => (Returned tt,
            alerted "Failed to delete candidate" (sent (deleteCandidateRequest c) p))
    end.
Proof.
  unfold candDeleteClick. cbn [negb]. unfold tryCatch, bind.
  unfold fetch at 1, send. cbn [browser pageHasBrowser].
  unfold deleteCandidateRequest.
  destruct (server (requests (pageBrowser p)) _) as [|[|] body]; try reflexivity.
  cbn [fst negb]. unfold sent. cbn [browser pageHasBrowser withBrowser].
  match goal with
  | |- context [loadCandidates css server ?q] =>
      destruct (loadCandidates css server q) as [[[]|] p2]
  end; reflexivity.
Qed.

Lemma job_card_content (j : Job.t) (card : JobCard) :
  buildJobCard j = Ok card ->
  let company := match Job.company_name j with Some s => s | None => ""%string end in
  headerText (ByClass "card-title") card = Some (shown (VStr (Job.job_title j)))
  /\ headerText (ByClass "card-subtitle") card = Some (shown (VStr company))
  /\ fieldValues card
     = [Some (shownValue (VStr (Job.job_title j))); Some (shownValue (VStr company));
        Some (shownArea (VStr (Job.job_description j)))]
  /\ fieldsDisabled card = [Some true; Some true; Some true]
  /\ editLabel card = Some "Edit"%string
  /\ jobOf card = Some j
  /\ cardId card = Some (Job.id j)
  /\ HRCard.isExpanded (HRCard.root card) = false.
Proof.
  intros Hb. rewrite (PageCards.buildJobCard_card _ _ Hb).
  destruct j as [jid jco jti jde].
  cbn [Job.id Job.job_title Job.company_name Job.job_description].
  assert (Hco : or_else (ofNullable jco) (VStr "")
                = VStr match jco with Some s => s | None => "" end).
  { destruct jco as [[|a s]|]; reflexivity. }
  assert (Hde : or_else (VStr jde) (VStr "") = VStr jde).
  { destruct jde; reflexivity. }
  unfold jobOnInit, jobHeaderMarkup, jobBodyMarkup.
  cbn [Job.id Job.job_title Job.company_name Job.job_description].
  rewrite Hco, Hde.
  generalize (shownAttribute (VStr jti)).
  generalize (shownAttribute (VStr match jco with Some s => s | None => "" end)).
  generalize (shownValue (VStr jti)) as Tv.
  generalize (shownValue (VStr match jco with Some s => s | None => "" end)) as Cv.
  generalize (shown (VStr jti)) as T.
  generalize (shown (VStr match jco with Some s => s | None => "" end)) as C.
  generalize (shownArea (VStr jde)) as D.
  intros D C T Cv Tv Ca Ta. unfold text.
  destruct (String.eqb T "") eqn:ET; [apply String.eqb_eq in ET; subst T|];
  (destruct (String.eqb C "") eqn:EC; [apply String.eqb_eq in EC; subst C|]);
  destruct (String.eqb D "") eqn:ED;
  vm_compute; rewrite ?CandidateFacts.append_empty; repeat split.
Qed.

Ltac settle :=
  repeat split; intros;
  try discriminate; try assumption; try reflexivity;
  try (left; reflexivity); try (right; reflexivity).

End MorePageFacts.

(** X8.  The card of a job shows the job: when the title, the company
    name and the description have no two special characters next to
    each other, no NUL character and no line break, the title and the
    subtitle of the header and the three controls hold the title, the
    company name (empty when there is none) and the description as they
    are in the record; the controls are disabled, the button reads Edit,
    the card is collapsed and carries the identifier of the job. *)
Theorem job_card_shows_job (j : Job.t) (card : JobCard) :
  buildJobCard j = Ok card ->
  let company := match Job.company_name j with Some s => s | None => ""%string end in
  plain (Job.job_title j) = true ->
  plain company = true ->
  plain (Job.job_description j) = true ->
  headerText (ByClass "card-title") card = Some (Job.job_title j)
  /\ headerText (ByClass "card-subtitle") card = Some company
  /\ fieldValues card
     = [Some (Job.job_title j); Some company; Some (Job.job_description j)]
  /\ fieldsDisabled card = [Some true; Some true; Some true]
  /\ editLabel card = Some "Edit"%string
  /\ jobOf card = Some j
  /\ cardId card = Some (Job.id j)
  /\ HRCard.isExpanded (HRCard.root card) = false.
Proof.
  intros Hb company Ht Hc Hd.
  pose proof (MorePageFacts.job_card_content j card Hb) as H. cbv zeta in H.
  fold company in H.
  rewrite !UtilFacts.shown_round_trip, !UtilFacts.shownValue_round_trip,
    !UtilFacts.shownArea_round_trip in H by assumption.
  exact H.
Qed.

Lemma job_card_shows_job_witness :
  headerText (ByClass "card-title") exampleJobCard = Some "Engineer"%string
  /\ headerText (ByClass "card-subtitle") exampleJobCard = Some "Acme"%string
  /\ fieldValues exampleJobCard
     = [Some "Engineer"%string; Some "Acme"%string; Some "Builds things"%string].
Proof.
  pose proof (job_card_shows_job exampleJob exampleJobCard eq_refl eq_refl eq_refl
                eq_refl) as H.
  exact (conj (proj1 H) (conj (proj1 (proj2 H)) (proj1 (proj2 (proj2 H))))).
Defined.

(** X9.  When the list request is answered with jobs that all have an
    identifier, [loadJobs] leaves one card per job in the list, in the
    order of the answer, each collapsed, carrying the identifier of its
    job and holding the job; it asks for the list a second time, for the
    select box; and it raises no alert and leaves the candidates and the
    visible page alone. *)
Theorem loadJobs_renders (server : Server) (p : Page) (jobs : list Job.t) :
  fst (fetchJobs server p) = Returned jobs ->
  jobsHaveIds jobs = true ->
  let p' := snd (loadJobs server p) in
  jobsListEl p' = map jobCardOf jobs
  /\ map cardId (jobsListEl p') = map (fun j => Some (Job.id j)) jobs
  /\ map jobOf (jobsListEl p') = map Some jobs
  /\ forallb (fun card => negb (HRCard.isExpanded (HRCard.root card))) (jobsListEl p') = true
  /\ requests (pageBrowser p') = requests (pageBrowser p) ++ [jobsRequest; jobsRequest]
  /\ alerts (pageBrowser p') = alerts (pageBrowser p)
  /\ candidatesListEl p' = candidatesListEl p
  /\ visiblePage p' = visiblePage p.
Proof.
  intros Hf Hids p'.
  pose proof (MorePageFacts.loadJobs_cases server p) as Hl. rewrite Hf in Hl. cbv zeta in Hl.
  rewrite Hids, (MorePageFacts.leading_all _ _ Hids) in Hl.
  set (p1 := withJobs (map jobCardOf jobs) (sent jobsRequest p)) in *.
  assert (Hp' : jobsListEl p' = map jobCardOf jobs
                /\ requests (pageBrowser p')
                   = requests (pageBrowser p) ++ [jobsRequest; jobsRequest]
                /\ alerts (pageBrowser p') = alerts (pageBrowser p)
                /\ candidatesListEl p' = candidatesListEl p
                /\ visiblePage p' = visiblePage p).
  { unfold p'. rewrite Hl.
    destruct (MorePageFacts.ensureSearchJobs_cases server p1) as [(js & sel & _ & -> & _)|[_ ->]];
      cbn [snd]; destruct p as [[reqs als] pj pc ps pi pv]; cbn;
      rewrite <- app_assoc; repeat split. }
  destruct Hp' as (H1 & H2 & H3 & H4 & H5).
  split; [exact H1|]. rewrite H1.
  assert (Hall : forall j, In j jobs -> jobHasId j = true).
  { apply forallb_forall. exact Hids. }
  repeat split; try assumption.
  - rewrite map_map. apply map_ext_in. intros j Hj.
    apply (MorePageFacts.jobCardOf_facts j (Hall j Hj)).
  - rewrite map_map. apply map_ext_in. intros j Hj.
    apply (MorePageFacts.jobCardOf_facts j (Hall j Hj)).
  - apply forallb_forall. intros card Hc. apply in_map_iff in Hc as (j & <- & Hj).
    destruct (MorePageFacts.jobCardOf_facts j (Hall j Hj)) as (_ & _ & -> & _). reflexivity.
Qed.

Lemma loadJobs_renders_witness :
  map cardId (jobsListEl (snd (loadJobs listing (blankPage true))))
  = [Some "j1"%string; Some "j2"%string].
Proof.
  exact (proj1 (proj2 (loadJobs_renders listing (blankPage true)
                         [exampleJob; otherJob] eq_refl eq_refl))).
Defined.

(** X10.  A job without an identifier stops the rendering: [makeCard]
    throws, [loadJobs] rejects, the list keeps the cards of the jobs
    before that one and has none for the jobs after it, the select box
    and the info line are not rebuilt, and no alert is raised. *)
Theorem loadJobs_stops_at_missing_id (server : Server) (p : Page)
  (pre post : list Job.t) (j : Job.t) :
  fst (fetchJobs server p) = Returned (pre ++ j :: post) ->
  jobsHaveIds pre = true ->
  Job.id j = ""%string ->
  let p' := snd (loadJobs server p) in
  fst (loadJobs server p) = Rejected
  /\ jobsListEl p' = map jobCardOf pre
  /\ searchSelect p' = searchSelect p
  /\ searchInfo p' = searchInfo p
  /\ requests (pageBrowser p') = requests (pageBrowser p) ++ [jobsRequest]
  /\ alerts (pageBrowser p') = alerts (pageBrowser p).
Proof.
  intros Hf Hpre Hj p'.
  assert (Hx : jobHasId j = false) by (unfold jobHasId; now rewrite Hj).
  destruct (MorePageFacts.leading_stop jobHasId pre j post Hpre Hx) as [Hlead Hall].
  pose proof (MorePageFacts.loadJobs_cases server p) as Hl. rewrite Hf in Hl. cbv zeta in Hl.
  unfold jobsHaveIds in Hl. rewrite Hall, Hlead in Hl.
  unfold p'. rewrite Hl. destruct p as [[reqs als] pj pc ps pi pv].
  repeat split.
Qed.

Lemma loadJobs_stops_at_missing_id_witness :
  fst (loadJobs careless (blankPage true)) = Rejected
  /\ jobsListEl (snd (loadJobs careless (blankPage true))) = map jobCardOf [exampleJob].
Proof.
  pose proof (loadJobs_stops_at_missing_id careless (blankPage true)
                [exampleJob] [otherJob] nameless eq_refl eq_refl eq_refl) as H.
  exact (conj (proj1 H) (proj1 (proj2 H))).
Defined.

(** X11.  [loadCandidates] is lazy about documents: when the list
    request is answered with candidates that all have an identifier, it
    leaves one card per candidate, collapsed and with an empty CV
    region, and the list request is the only request it sends, whatever
    CV identifiers the candidates have. *)
Theorem loadCandidates_is_lazy (css : Css) (server : Server) (p : Page)
  (cs : list Candidate.t) :
  fst (fetchCandidates server p) = Returned cs ->
  candidatesHaveIds cs = true ->
  let p' := snd (loadCandidates css server p) in
  fst (loadCandidates css server p) = Returned tt
  /\ candidatesListEl p' = map candidateEntryOf cs
  /\ requests (pageBrowser p') = requests (pageBrowser p) ++ [candidatesRequest]
  /\ documentFetches (requests (pageBrowser p'))
     = documentFetches (requests (pageBrowser p))
  /\ alerts (pageBrowser p') = alerts (pageBrowser p)
  /\ jobsListEl p' = jobsListEl p
  /\ searchSelect p' = searchSelect p.
Proof.
  intros Hf Hids p'.
  pose proof (MorePageFacts.loadCandidates_cases css server p) as Hl. rewrite Hf in Hl.
  rewrite Hids, (MorePageFacts.leading_all _ _ Hids) in Hl.
  unfold p'. rewrite Hl. destruct p as [[reqs als] pj pc ps pi pv].
  cbn. repeat split.
  unfold documentFetches. rewrite filter_app, length_app. cbn. lia.
Qed.

Lemma loadCandidates_is_lazy_witness :
  candidatesListEl (snd (loadCandidates strict steady (blankPage true)))
  = [candidateEntryOf exampleCandidate]
  /\ requests (pageBrowser (snd (loadCandidates strict steady (blankPage true))))
     = [candidatesRequest].
Proof.
  pose proof (loadCandidates_is_lazy strict steady (blankPage true) [exampleCandidate]
                eq_refl eq_refl) as H.
  exact (conj (proj1 (proj2 H)) (proj1 (proj2 (proj2 H)))).
Defined.

(** X12.  [ensureSearchJobs] keeps to the search page: it sends the list
    request and nothing else, raises no alert, and leaves the two lists
    and the visible page alone; it rejects exactly when [fetchJobs]
    does, and then the select box and the info line are as they were. *)
Theorem ensureSearchJobs_frame (server : Server) (p : Page) :
  let r := ensureSearchJobs server p in
  sameLists p (snd r)
  /\ requests (pageBrowser (snd r)) = requests (pageBrowser p) ++ [jobsRequest]
  /\ fst r = match fst (fetchJobs server p) with
             | Returned _ => Returned tt
             | Rejected => Rejected
             end
  /\ (fst r = Rejected ->
        searchSelect (snd r) = searchSelect p /\ searchInfo (snd r) = searchInfo p).
Proof.
  cbv zeta.
  destruct (MorePageFacts.ensureSearchJobs_cases server p) as [(js & sel & Hf & -> & _)|[Hf ->]];
    rewrite Hf; cbn [fst snd]; destruct p as [[reqs als] pj pc ps pi pv];
    unfold sameLists; cbn; repeat split; discriminate.
Qed.

Lemma ensureSearchJobs_frame_witness :
  searchSelect (snd (ensureSearchJobs offline searchingPage))
  = searchSelect searchingPage.
Proof.
  exact (proj1 (proj2 (proj2 (proj2 (ensureSearchJobs_frame offline searchingPage)))
                 eq_refl)).
Defined.

(** X13.  The Search button of a job card: when the list request is
    answered, the search page becomes the visible one, the select box
    holds the jobs of the answer, and the info line names the job of the
    card; that job is the selected one if the answer still has it, and
    if not, nothing is selected while the info line still names it.
    When the list request rejects, so does the listener, before the
    page is switched. *)
Theorem jobSearchClick_selects (server : Server) (j : Job.t) (p : Page) :
  match fst (fetchJobs server p) with
  | Returned jobs =>
      exists p2,
        jobSearchClick server j p = (Returned tt, p2)
        /\ visiblePage p2 = Some "search"%string
        /\ searchInfo p2 = infoText (Some j)
        /\ options (searchSelect p2) = map jobOption jobs
        /\ selectValue (searchSelect p2)
           = (if existsb (String.eqb (Job.id j)) (map Job.id jobs)
              then Job.id j else ""%string)
        /\ jobsListEl p2 = jobsListEl p
        /\ alerts (pageBrowser p2) = alerts (pageBrowser p)
  | Rejected => jobSearchClick server j p = (Rejected, sent jobsRequest p)
  end.
Proof.
  destruct (MorePageFacts.ensureSearchJobs_cases server p) as [(js & sel & Hf & He & Ho)|[Hf He]];
    rewrite Hf; cbn [fst]; unfold jobSearchClick; unfold bind at 1; rewrite He;
    [|reflexivity].
  eexists. split; [reflexivity|].
  destruct p as [[reqs als] pj pc ps pi pv]. cbn -[infoText selectValue setSelectValue].
  repeat split; try exact Ho.
  destruct (existsb (String.eqb (Job.id j)) (map Job.id js)) eqn:E.
  - apply PageFacts.selectValue_set. rewrite Ho. apply PageFacts.existsb_option_In.
    apply existsb_exists in E as (x & Hx & Ex). apply String.eqb_eq in Ex. now subst x.
  - apply MorePageFacts.selectValue_unset. rewrite Ho.
    destruct (existsb _ (map jobOption js)) eqn:E'; [|reflexivity].
    apply PageFacts.existsb_option_In in E'.
    assert (existsb (String.eqb (Job.id j)) (map Job.id js) = true).
    { apply existsb_exists. exists (Job.id j). split; [exact E'|apply String.eqb_refl]. }
    congruence.
Qed.

(** X14.  The Delete button of a job card never rejects: a declined
    prompt leaves the page as it was; a deletion that fails (no answer,
    or one that is not 2xx) sends that one request and raises the
    alert; in every case at most that alert is raised, and the
    candidates and the visible page are left alone. *)
Theorem jobDeleteClick_never_rejects (server : Server) (j : Job.t)
  (confirmed : bool) (p : Page) :
  let r := jobDeleteClick server j confirmed p in
  fst r = Returned tt
  /\ (confirmed = false -> snd r = p)
  /\ (failed (server (requests (pageBrowser p)) (deleteJobRequest j)) = true ->
      confirmed = true ->
      snd r = alerted "Failed to delete job" (sent (deleteJobRequest j) p))
  /\ (alerts (pageBrowser (snd r)) = alerts (pageBrowser p)
      \/ alerts (pageBrowser (snd r)) = alerts (pageBrowser p) ++ ["Failed to delete job"%string])
  /\ candidatesListEl (snd r) = candidatesListEl p
  /\ visiblePage (snd r) = visiblePage p.
Proof.
  cbv zeta. destruct confirmed.
  2:{ cbn. MorePageFacts.settle. }
  unfold jobDeleteClick. cbn [negb]. unfold tryCatch, bind.
  pose proof (MorePageFacts.fetch_sent server (deleteJobRequest j) p) as Hs.
  unfold deleteJobRequest in *.
  destruct (fetch server _ p) as [[[ok body]|] p1] eqn:Hf; cbn [snd fst] in *; subst p1.
  - assert (Hok : server (requests (pageBrowser p))
                    (mkRequest DELETE (API_BASE ++ "/jobs/" ++ Job.id j)%string None)
                  = Http ok body).
    { revert Hf. unfold fetch, send. cbn [browser pageHasBrowser].
      destruct (server _ _); [discriminate|]. now intros [= -> ->]. }
    rewrite Hok. cbn [failed].
    destruct ok; cbn [negb].
    + set (p1 := sent _ p).
      destruct (MorePageFacts.loadJobs_frame server p1) as (Hc & Hv & Ha & _).
      destruct (loadJobs server p1) as [[[]|] p2]; cbn [fst snd] in *.
      * MorePageFacts.settle. left. exact Ha.
      * unfold raise, modify. cbn [fst snd browser pageHasBrowser withBrowser].
        MorePageFacts.settle. right. cbn. now rewrite Ha.
    + unfold throw, raise, modify. cbn. MorePageFacts.settle.
  - assert (Hok : server (requests (pageBrowser p))
                    (mkRequest DELETE (API_BASE ++ "/jobs/" ++ Job.id j)%string None)
                  = NetworkError).
    { revert Hf. unfold fetch, send. cbn [browser pageHasBrowser].
      destruct (server _ _); [reflexivity|discriminate]. }
    rewrite Hok. unfold raise, modify. cbn. MorePageFacts.settle.
Qed.

Lemma jobDeleteClick_never_rejects_witness :
  snd (jobDeleteClick refusing exampleJob true (blankPage true))
  = alerted "Failed to delete job" (sent (deleteJobRequest exampleJob) (blankPage true)).
Proof.
  exact (proj1 (proj2 (proj2
           (jobDeleteClick_never_rejects refusing exampleJob true (blankPage true))))
           eq_refl eq_refl).
Defined.

(** X15.  When the server accepts the deletion of a job and the list
    request after it rejects, the listener raises the alert that the
    deletion failed, and the list of the page is not rendered again. *)
Theorem jobDelete_reload_fails (server : Server) (j : Job.t) (p : Page) (body : Body) :
  server (requests (pageBrowser p)) (deleteJobRequest j) = Http true body ->
  fst (fetchJobs server (sent (deleteJobRequest j) p)) = Rejected ->
  jobDeleteClick server j true p
  = (Returned tt,
     alerted "Failed to delete job" (sent jobsRequest (sent (deleteJobRequest j) p))).
Proof.
  intros Hd Hf. unfold jobDeleteClick. cbn [negb]. unfold tryCatch, bind.
  unfold fetch at 1, send. cbn [browser pageHasBrowser].
  unfold deleteJobRequest in *. rewrite Hd. cbn [fst negb].
  match goal with
  | |- context [loadJobs server ?q] =>
      pose proof (MorePageFacts.loadJobs_cases server q) as Hl; change q with
        (sent (mkRequest DELETE (API_BASE ++ "/jobs/" ++ Job.id j)%string None) p) in *
  end.
  rewrite Hf in Hl. rewrite Hl. reflexivity.
Qed.

Lemma jobDelete_reload_fails_witness :
  alerts (pageBrowser (snd (jobDeleteClick forgetful exampleJob true (blankPage true))))
  = ["Failed to delete job"%string].
Proof.
  exact (f_equal (fun r => alerts (pageBrowser (snd r)))
           (jobDelete_reload_fails forgetful exampleJob (blankPage true) JsonNull
              eq_refl eq_refl)).
Defined.

(** X16.  The Delete button of a candidate card never rejects: a
    declined prompt leaves the page as it was; a deletion that fails
    raises the alert; after a deletion that the server accepts the list
    is rendered again from the answer to the list request, every card
    collapsed and with an empty CV region; the jobs, the select box and
    the visible page are left alone. *)
Theorem candDeleteClick_reloads (css : Css) (server : Server) (c : Candidate.t)
  (confirmed : bool) (p : Page) :
  let r := candDeleteClick css server c confirmed p in
  fst r = Returned tt
  /\ (confirmed = false -> snd r = p)
  /\ (failed (server (requests (pageBrowser p)) (deleteCandidateRequest c)) = true ->
      confirmed = true ->
      snd r = alerted "Failed to delete candidate" (sent (deleteCandidateRequest c) p))
  /\ (forall body cs,
        confirmed = true ->
        server (requests (pageBrowser p)) (deleteCandidateRequest c) = Http true body ->
        fst (fetchCandidates server (sent (deleteCandidateRequest c) p)) = Returned cs ->
        candidatesHaveIds cs = true ->
        snd r = withCandidates (map candidateEntryOf cs)
                  (sent candidatesRequest (sent (deleteCandidateRequest c) p)))
  /\ jobsListEl (snd r) = jobsListEl p
  /\ searchSelect (snd r) = searchSelect p
  /\ visiblePage (snd r) = visiblePage p.
Proof.
  cbv zeta. destruct confirmed.
  2:{ cbn. MorePageFacts.settle. }
  rewrite MorePageFacts.candDeleteClick_cases.
  destruct (server (requests (pageBrowser p)) _) as [|ok body] eqn:Hd.
  - cbn. MorePageFacts.settle.
  - cbn [failed]. destruct ok; cbn [negb].
    + set (p1 := sent (deleteCandidateRequest c) p) in *.
      pose proof (MorePageFacts.loadCandidates_cases css server p1) as Hl.
      destruct (fst (fetchCandidates server p1)) as [cs|]; rewrite Hl.
      * destruct (candidatesHaveIds cs) eqn:Ec; cbn [fst snd].
        -- split; [reflexivity|]. split; [discriminate|]. split; [discriminate|].
           split.
           ++ intros body' cs' _ _ [= <-] _.
              rewrite (MorePageFacts.leading_all _ _ Ec). reflexivity.
           ++ destruct p as [[reqs als] pj pc ps pi pv]. MorePageFacts.settle.
        -- split; [reflexivity|]. split; [discriminate|]. split; [discriminate|].
           split.
           ++ intros body' cs' _ _ [= <-] Hc. congruence.
           ++ destruct p as [[reqs als] pj pc ps pi pv]. MorePageFacts.settle.
      * cbn [fst snd].
        split; [reflexivity|]. split; [discriminate|]. split; [discriminate|].
        split; [intros body' cs' _ _ [=]|].
        destruct p as [[reqs als] pj pc ps pi pv]. MorePageFacts.settle.
    + cbn. MorePageFacts.settle.
Qed.

Lemma candDeleteClick_reloads_witness :
  candidatesListEl (snd (candDeleteClick strict steady newcomer true (blankPage true)))
  = [candidateEntryOf exampleCandidate].
Proof.
  exact (f_equal candidatesListEl
           (proj1 (proj2 (proj2 (proj2
              (candDeleteClick_reloads strict steady newcomer true (blankPage true)))))
              JsonNull [exampleCandidate] eq_refl eq_refl eq_refl eq_refl)).
Defined.

(** X17.  The start of the page sends list requests only, the four of
    [startRequests] in that order up to the first step that rejects: no
    document is asked for, and no alert is raised, whatever the server
    does.  When the start returns, all four were sent and the home page
    is the visible one. *)
Theorem init_sends_list_requests (css : Css) (server : Server) (p : Page) :
  let r := init css server p in
  (exists k,
     requests (pageBrowser (snd r)) = requests (pageBrowser p) ++ firstn k startRequests)
  /\ alerts (pageBrowser (snd r)) = alerts (pageBrowser p)
  /\ documentFetches (requests (pageBrowser (snd r)))
     = documentFetches (requests (pageBrowser p))
  /\ (fst r = Returned tt ->
      requests (pageBrowser (snd r)) = requests (pageBrowser p) ++ startRequests
      /\ visiblePage (snd r) = Some "home"%string).
Proof.
  cbv zeta.
  assert (Hmain : forall r, init css server p = r ->
    (exists k,
       requests (pageBrowser (snd r)) = requests (pageBrowser p) ++ firstn k startRequests)
    /\ alerts (pageBrowser (snd r)) = alerts (pageBrowser p)
    /\ (fst r = Returned tt ->
        requests (pageBrowser (snd r)) = requests (pageBrowser p) ++ startRequests
        /\ visiblePage (snd r) = Some "home"%string)).
  { intros r. unfold init. unfold bind at 1.
    destruct (MorePageFacts.loadJobs_frame server p) as (_ & _ & Ha1 & Hr1).
    destruct (loadJobs server p) as [[[]|] p1]; cbn [fst snd] in *.
    2:{ intros <-. cbn [fst snd]. split; [|split; [exact Ha1|discriminate]].
        destruct Hr1 as [(-> & _)| ->]; [now exists 1|now exists 2]. }
    destruct Hr1 as [(_ & [=] & _)|Hr1].
    unfold bind at 1.
    pose proof (MorePageFacts.loadCandidates_cases css server p1) as Hl.
    destruct (fst (fetchCandidates server p1)) as [cs|]; rewrite Hl.
    2:{ intros <-. cbn [fst snd]. split; [|split; [|discriminate]].
        - exists 3. destruct p1 as [[reqs als] pj pc ps pi pv]. cbn in *.
          rewrite Hr1, <- app_assoc. reflexivity.
        - destruct p1 as [[reqs als] pj pc ps pi pv]. exact Ha1. }
    destruct (candidatesHaveIds cs).
    2:{ intros <-. cbn [fst snd]. split; [|split; [|discriminate]].
        - exists 3. destruct p1 as [[reqs als] pj pc ps pi pv]. cbn in *.
          rewrite Hr1, <- app_assoc. reflexivity.
        - destruct p1 as [[reqs als] pj pc ps pi pv]. exact Ha1. }
    unfold bind at 1.
    match goal with
    | |- context [ensureSearchJobs server ?q] =>
        destruct (MorePageFacts.ensureSearchJobs_cases server q) as [(js & sel & _ & -> & _)|[_ ->]]
    end; intros <-; cbn [fst snd]; destruct p1 as [[reqs als] pj pc ps pi pv]; cbn in *.
    - split; [|split; [exact Ha1|]].
      + exists 4. rewrite Hr1, <- !app_assoc. reflexivity.
      + intros _. split; [|reflexivity]. rewrite Hr1, <- !app_assoc. reflexivity.
    - split; [|split; [exact Ha1|discriminate]].
      exists 4. rewrite Hr1, <- !app_assoc. reflexivity. }
  destruct (Hmain _ eq_refl) as ([k Hk] & Ha & Hok).
  split; [now exists k|]. split; [exact Ha|]. split; [|exact Hok].
  rewrite Hk. unfold documentFetches. rewrite filter_app, length_app.
  assert (Hz : forall k, List.length (filter isDocumentFetch (firstn k startRequests)) = 0).
  { intros [|[|[|[|[|n]]]]]; reflexivity. }
  rewrite Hz. lia.
Qed.

Lemma init_sends_list_requests_witness :
  requests (pageBrowser (snd (init strict steady (blankPage true)))) = startRequests
  /\ visiblePage (snd (init strict steady (blankPage true))) = Some "home"%string.
Proof.
  exact (proj2 (proj2 (proj2 (init_sends_list_requests strict steady (blankPage true))))
           eq_refl).
Defined.

(** X18.  Saving a job: the first click on Edit enables the three
    controls, labels the button Save and sends nothing; after new
    values are typed, the click on Save sends one PATCH request with
    the three typed values, and when the server accepts it the job
    object holds them, the title and the subtitle of the header show
    the typed title and company name as typed, the controls are
    disabled, the button reads Edit and no alert is raised. *)
Theorem save_updates_job (server : Server) (j : Job.t) (b0 : Browser) (t c d : string)
  (card0 : JobCard) :
  buildJobCard j = Ok card0 ->
  failed (server (requests b0) (saveJobRequest j t c d)) = false ->
  let entered := snd (clickEdit server (card0, b0)) in
  let typed := typeAll t c d (fst entered) in
  let saved := clickEdit server (typed, snd entered) in
  snd entered = b0
  /\ fieldsDisabled (fst entered) = [Some false; Some false; Some false]
  /\ editLabel (fst entered) = Some "Save"%string
  /\ fst saved = Returned tt
  /\ requests (snd (snd saved)) = requests b0 ++ [saveJobRequest j t c d]
  /\ alerts (snd (snd saved)) = alerts b0
  /\ jobOf (fst (snd saved)) = Some (Job.mk (Job.id j) (Some c) t d)
  /\ headerText (ByClass "card-title") (fst (snd saved)) = Some t
  /\ headerText (ByClass "card-subtitle") (fst (snd saved)) = Some c
  /\ fieldsDisabled (fst (snd saved)) = [Some true; Some true; Some true]
  /\ fieldValues (fst (snd saved)) = [Some t; Some c; Some d]
  /\ editLabel (fst (snd saved)) = Some "Edit"%string.
Proof.
  intros Hb Hok.
  rewrite (PageCards.buildJobCard_card _ _ Hb).
  destruct j as [jid jco jti jde].
  revert Hok. unfold saveJobRequest. cbn [Job.id].
  PageCards.as_shown. intros Hok.
  destruct b0 as [reqs als]. cbn [requests] in Hok.
  destruct t as [|t0 t], c as [|c0 c]; vm_compute; vm_compute in Hok;
  match goal with
  | |- context [server ?l ?r] => destruct (server l r) as [|[|] bd]
  end; try discriminate Hok; rewrite ?CandidateFacts.append_empty; repeat split.
Qed.

Lemma save_updates_job_witness :
  jobOf (fst (snd (clickEdit accepting
                     (typeAll "Chef" "Acme" "Cooks"
                        (fst (snd (clickEdit accepting (exampleJobCard, mkBrowser [] [])))),
                      snd (snd (clickEdit accepting (exampleJobCard, mkBrowser [] [])))))))
  = Some (Job.mk "j1" (Some "Acme"%string) "Chef" "Cooks").
Proof.
  exact (proj1 (proj2 (proj2 (proj2 (proj2 (proj2 (proj2
           (save_updates_job accepting exampleJob (mkBrowser [] []) "Chef" "Acme" "Cooks"
              exampleJobCard eq_refl eq_refl)))))))).
Defined.



(* ------------------------------------------------------------------ *)
(** ** The cards of the candidates *)

Module MoreCandidateFacts.
Import Js Dom App Listeners.
Local Open Scope list_scope.

Lemma toggles_card e es :
  toggles (onCardEvents (e :: es))
  = (match e with OnCard ev => if HRCard.activates ev then 1 else 0 | _ => 0 end)
    + toggles (onCardEvents es).
Proof.
  unfold toggles, onCardEvents. cbn [flat_map]. destruct e as [ev|ev|k]; cbn [app filter].
  - now destruct (HRCard.activates ev).
  - reflexivity.
  - reflexivity.
Qed.

Lemma toggles_cv e es :
  toggles (onCvEvents (e :: es))
  = (match e with OnCv ev => if HRCard.activates ev then 1 else 0 | _ => 0 end)
    + toggles (onCvEvents es).
Proof.
  unfold toggles, onCvEvents. cbn [flat_map]. destruct e as [ev|ev|k]; cbn [app filter].
  - reflexivity.
  - now destruct (HRCard.activates ev).
  - reflexivity.
Qed.

Lemma viewStep_states css server c e v :
  viewExpanded (viewStep css server c e v)
  = xorb (viewExpanded v)
      (match e with OnCard ev => HRCard.activates ev | _ => false end)
  /\ viewCvExpanded (viewStep css server c e v)
     = xorb (viewCvExpanded v)
         (match e with OnCv ev => HRCard.activates ev | _ => false end).
Proof.
  unfold viewStep, viewRequest. cbv zeta.
  destruct e as [ev|ev|k]; [destruct (HRCard.activates ev)..|]; cbn [negb].
  - destruct (viewExpanded v).
    + split; [reflexivity|]. cbn. now rewrite xorb_false_r.
    + destruct (_ && _ && _)%bool; split; cbn; now rewrite ?xorb_false_r.
  - now rewrite !xorb_false_r.
  - destruct (viewCvExpanded v).
    + split; [|reflexivity]. cbn. now rewrite xorb_false_r.
    + destruct (negb _); [|destruct (truthy _)]; split; cbn; now rewrite ?xorb_false_r.
  - now rewrite !xorb_false_r.
  - destruct (nth_error _ k); cbn; now rewrite !xorb_false_r.
Qed.

Lemma odd_add_bit (b : bool) n :
  Nat.odd ((if b then 1 else 0) + n) = xorb b (Nat.odd n).
Proof.
  destruct b; cbn [Nat.add xorb]; [|reflexivity].
  rewrite Nat.odd_succ, <- Nat.negb_odd. reflexivity.
Qed.

Lemma viewSteps_states css server c es v :
  viewExpanded (viewSteps css server c es v)
  = xorb (viewExpanded v) (Nat.odd (toggles (onCardEvents es)))
  /\ viewCvExpanded (viewSteps css server c es v)
     = xorb (viewCvExpanded v) (Nat.odd (toggles (onCvEvents es))).
Proof.
  revert v. induction es as [|e es IH]; intros v.
  - cbn. now rewrite !xorb_false_r.
  - change (viewSteps css server c (e :: es) v)
      with (viewSteps css server c es (viewStep css server c e v)).
    destruct (IH (viewStep css server c e v)) as [-> ->].
    destruct (viewStep_states css server c e v) as [-> ->].
    rewrite toggles_card, toggles_cv.
    destruct e as [ev|ev|k]; cbn [Nat.add];
      rewrite ?odd_add_bit, ?xorb_false_r, ?xorb_assoc; split; reflexivity.
Qed.

(** Without a CV identifier nothing is asked of the server, so that
    nothing is waited for; the placeholder is written when the CV card
    is first expanded. *)
Lemma viewStep_no_cv css server c e v :
  truthy (ofNullable (Candidate.candidate_cv_id c)) = false ->
  viewWaiting v = [] ->
  viewStep css server c e v
  = match e with
    | OnCard ev =>
        if HRCard.activates ev then
          mkView (negb (viewExpanded v)) (viewCvExpanded v) (viewText v)
            (viewBrowser v) []
        else v
    | OnCv ev =>
        if HRCard.activates ev then
          mkView (viewExpanded v) (negb (viewCvExpanded v))
            (if (negb (viewCvExpanded v) && String.eqb (viewText v) "")%bool
             then "(No CV)"%string else viewText v)
            (viewBrowser v) []
        else v
    | Settle _ => v
    end.
Proof.
  intros Hcv Hw. unfold viewStep. cbv zeta. rewrite Hcv, Hw. cbn [andb].
  destruct e as [ev|ev|k].
  - destruct (HRCard.activates ev); cbn [negb]; [|reflexivity].
    now destruct (viewExpanded v).
  - destruct (HRCard.activates ev); cbn [negb]; [|reflexivity].
    destruct (viewCvExpanded v); cbn [negb andb]; [reflexivity|].
    now destruct (String.eqb (viewText v) "").
  - now destruct k.
Qed.

Lemma viewSteps_no_cv css server c es v n :
  truthy (ofNullable (Candidate.candidate_cv_id c)) = false ->
  viewWaiting v = [] ->
  viewCvExpanded v = Nat.odd n ->
  viewText v = (if Nat.eqb n 0 then "" else "(No CV)")%string ->
  let v' := viewSteps css server c es v in
  viewBrowser v' = viewBrowser v
  /\ viewText v' = (if Nat.eqb (n + toggles (onCvEvents es)) 0 then "" else "(No CV)")%string.
Proof.
  intros Hcv. revert v n. induction es as [|e es IH]; intros v n Hw He Ht.
  - cbn. rewrite Nat.add_0_r. auto.
  - change (viewSteps css server c (e :: es) v)
      with (viewSteps css server c es (viewStep css server c e v)).
    rewrite toggles_cv. cbv zeta.
    rewrite (viewStep_no_cv css server c e v Hcv Hw).
    destruct e as [ev|ev|k]; [destruct (HRCard.activates ev) eqn:Ea..|].
    + destruct (IH (mkView (negb (viewExpanded v)) (viewCvExpanded v) (viewText v)
                      (viewBrowser v) []) n eq_refl He Ht) as [Hb Htx].
      cbv zeta in Hb, Htx. rewrite Hb, Htx. split; reflexivity.
    + destruct (IH v n Hw He Ht) as [Hb Htx].
      cbv zeta in Hb, Htx. rewrite Hb, Htx. split; reflexivity.
    + destruct (IH (mkView (viewExpanded v) (negb (viewCvExpanded v))
                      (if (negb (viewCvExpanded v) && String.eqb (viewText v) "")%bool
                       then "(No CV)"%string else viewText v)
                      (viewBrowser v) []) (S n) eq_refl) as [Hb Htx].
      * cbn [viewCvExpanded]. rewrite He, Nat.odd_succ, <- Nat.negb_odd. reflexivity.
      * cbn [viewText Nat.eqb]. rewrite He, Ht.
        destruct n as [|n]; [reflexivity|].
        cbn [Nat.eqb]. now destruct (negb (Nat.odd (S n))).
      * cbv zeta in Hb, Htx. rewrite Hb, Htx.
        replace (n + (1 + toggles (onCvEvents es))) with (S n + toggles (onCvEvents es))
          by lia.
        split; reflexivity.
    + destruct (IH v n Hw He Ht) as [Hb Htx].
      cbv zeta in Hb, Htx. rewrite Hb, Htx. split; reflexivity.
    + destruct (IH v n Hw He Ht) as [Hb Htx].
      cbv zeta in Hb, Htx. rewrite Hb, Htx. split; reflexivity.
Qed.

End MoreCandidateFacts.

(** X19.  The card of a candidate and the CV card in it are toggled
    apart: after any events on the two headers, and whatever answers
    have arrived between them, each card is expanded exactly when the
    number of clicks and Enter or Space presses on its own header is
    odd, and each keeps its identifier. *)
Theorem nested_cards_toggle_apart (css : Css) (server : Server) (c : Candidate.t)
  (b : Browser) (card : CandCard) (es : list CandEvent) :
  buildCandidateCard css server c b = Ok card ->
  let card' := candEvents css server es card in
  HRCard.isExpanded (HRCard.root card') = Nat.odd (toggles (onCardEvents es))
  /\ option_map HRCard.isExpanded (getAt [1; 1; 0]%nat (HRCard.root card'))
     = Some (Nat.odd (toggles (onCvEvents es)))
  /\ cardId card' = Some (Candidate.id c)
  /\ option_map (getAttribute "data-card-id") (getAt [1; 1; 0]%nat (HRCard.root card'))
     = Some (Some (Candidate.id c ++ "-cv")%string).
Proof.
  intros Hb card'.
  pose proof (CandidateFacts.build_seen _ _ _ _ _ Hb) as H0.
  destruct (CandidateFacts.events_seen css server c es _ _ H0) as [Hr _].
  fold card' in Hr. unfold cardId. rewrite Hr.
  destruct (MoreCandidateFacts.viewSteps_states css server c es
              (mkView false false "" b [])) as [-> ->].
  cbn [viewExpanded viewCvExpanded xorb].
  destruct (Nat.odd (toggles (onCardEvents es))),
    (Nat.odd (toggles (onCvEvents es))); repeat split.
Qed.

Lemma nested_cards_toggle_apart_witness :
  HRCard.isExpanded
    (HRCard.root (candEvents strict withDocuments
                    [OnCard HRCard.Click; OnCv HRCard.Click; OnCard HRCard.Click]
                    exampleCandidateCard))
  = false
  /\ option_map HRCard.isExpanded
       (getAt [1; 1; 0]%nat
          (HRCard.root (candEvents strict withDocuments
                          [OnCard HRCard.Click; OnCv HRCard.Click; OnCard HRCard.Click]
                          exampleCandidateCard)))
     = Some true.
Proof.
  pose proof (nested_cards_toggle_apart strict withDocuments exampleCandidate
                (mkBrowser [] []) exampleCandidateCard
                [OnCard HRCard.Click; OnCv HRCard.Click; OnCard HRCard.Click] eq_refl)
    as H.
  exact (conj (proj1 H) (proj1 (proj2 H))).
Defined.

(** X20.  For a candidate without a CV identifier no event on the two
    headers sends a request or raises an alert; the CV region stays
    empty until the CV card is first toggled, and reads (No CV) from
    then on. *)
Theorem no_cv_no_request (css : Css) (server : Server) (c : Candidate.t) (b : Browser)
  (card : CandCard) (es : list CandEvent) :
  truthy (ofNullable (Candidate.candidate_cv_id c)) = false ->
  buildCandidateCard css server c b = Ok card ->
  let card' := candEvents css server es card in
  snd (HRCard.world card') = b
  /\ cvRegionText card'
     = Some (if Nat.eqb (toggles (onCvEvents es)) 0 then "" else "(No CV)")%string.
Proof.
  intros Hcv Hb card'.
  pose proof (CandidateFacts.build_seen _ _ _ _ _ Hb) as H0.
  pose proof (CandidateFacts.events_seen css server c es _ _ H0) as Hs. fold card' in Hs.
  destruct (MoreCandidateFacts.viewSteps_no_cv css server c es
              (mkView false false "" b []) 0 Hcv eq_refl eq_refl eq_refl)
    as [Hbr Htx].
  split.
  - rewrite (proj2 Hs). cbn [snd]. exact Hbr.
  - rewrite (CandidateFacts.seen_region _ _ _ Hs). f_equal. exact Htx.
Qed.

Lemma no_cv_no_request_witness :
  snd (HRCard.world (candEvents strict offline [OnCard HRCard.Click; OnCv HRCard.Click]
                       newcomerCard))
  = mkBrowser [] []
  /\ cvRegionText (candEvents strict offline [OnCard HRCard.Click; OnCv HRCard.Click]
                     newcomerCard)
     = Some "(No CV)"%string.
Proof.
  exact (no_cv_no_request strict offline newcomer (mkBrowser [] []) newcomerCard
           [OnCard HRCard.Click; OnCv HRCard.Click] eq_refl eq_refl).
Defined.

(** X21.  For a candidate with a CV identifier, on a card just built:
    the first click or Enter or Space press on the header of the CV
    card, and that on the header of the candidate card when the
    identifier of the candidate has no double quote, no backslash, no
    NUL character and no line break or form feed, sends one request for
    that document and raises no alert; the CV region is still empty
    then, and the answer is waited for.  When the answer arrives, the
    region holds what [documentText] makes of it, which is (No CV) when
    the request failed, and nothing more is sent.  On the header of the
    candidate card with any other identifier the request is sent in the
    same way if the hook finds the region, and nothing is sent if it
    does not, as when [querySelector] throws. *)
Theorem first_expand_loads_document (css : Css) (server : Server) (c : Candidate.t)
  (b : Browser) (card : CandCard) (e : CandEvent) (cvId : string) :
  Candidate.candidate_cv_id c = Some cvId ->
  cvId <> ""%string ->
  buildCandidateCard css server c b = Ok card ->
  activating e = true ->
  let card' := candEvent css server e card in
  let req := documentRequest cvId in
  let settled := candEvent css server (Settle 0) card' in
  let found :=
    match e with
    | OnCard _ =>
        match preEl css c (HRCard.toggleExpanded (HRCard.root card) true) with
        | Ok (Some _) => true
        | _ => false
        end
    | _ => true
    end in
  (selectorSafe (Candidate.id c) = true -> found = true)
  /\ (found = true ->
      requests (snd (HRCard.world card')) = requests b ++ [req]
      /\ alerts (snd (HRCard.world card')) = alerts b
      /\ cvRegionText card' = Some ""%string
      /\ map answer (awaited card') = [server (requests b) req]
      /\ snd (HRCard.world settled) = snd (HRCard.world card')
      /\ awaited settled = []
      /\ cvRegionText settled = Some (documentText (server (requests b) req))
      /\ (failed (server (requests b) req) = true ->
          cvRegionText settled = Some "(No CV)"%string)
      /\ (forall d s,
            server (requests b) req = Http true (JsonObject d) ->
            content d = Some s -> cvRegionText settled = Some s))
  /\ (found = false ->
      snd (HRCard.world card') = b
      /\ awaited card' = []
      /\ cvRegionText card' = Some ""%string).
Proof.
  intros Hcv Hne Hb He card' req settled found.
  pose proof (CandidateFacts.build_seen _ _ _ _ _ Hb) as H0.
  pose proof (CandidateFacts.step_seen css server c _ _ e H0) as Hs. fold card' in Hs.
  pose proof (CandidateFacts.step_seen css server c _ _ (Settle 0) Hs) as Hs'.
  fold settled in Hs'.
  assert (Ht : truthy (ofNullable (Candidate.candidate_cv_id c)) = true).
  { rewrite Hcv. cbn. destruct cvId; [contradiction|reflexivity]. }
  assert (Hreq : documentRequest (ToString (ofNullable (Candidate.candidate_cv_id c)))
                 = req) by (now rewrite Hcv).
  assert (Hfound : found = match e with
                           | OnCard _ => viewReaches css c (mkView false false "" b [])
                           | _ => true
                           end).
  { unfold found, viewReaches. destruct e; try reflexivity.
    rewrite (proj1 H0). cbn [viewExpanded viewCvExpanded viewText].
    now rewrite CandidateFacts.toggle_cand. }
  pose proof (CandidateFacts.first_step css server c b e Ht He) as Hstep.
  split; [|split].
  - intros Hsafe. rewrite Hfound. destruct e; try reflexivity.
    unfold viewReaches. cbn [viewCvExpanded viewText].
    rewrite CandidateFacts.preEl_safe; [reflexivity|].
    now rewrite CandidateFacts.selectorSafe_cv.
  - intros Hf. rewrite Hfound in Hf.
    assert (Hv : exists e1 e2,
              viewStep css server c e (mkView false false "" b [])
              = viewRequest server c (mkView false false "" b []) e1 e2).
    { destruct e; [rewrite Hf in Hstep|..]; exact Hstep. }
    destruct Hv as (e1 & e2 & Hv). rewrite Hv in Hs, Hs'.
    destruct (CandidateFacts.viewRequest_sends server c (mkView false false "" b [])
                e1 e2) as (_ & Htx & Hwx & Hal & Hrq).
    cbn [viewText viewWaiting viewBrowser app] in Htx, Hwx, Hal, Hrq.
    rewrite Hreq in Hwx, Hrq.
    assert (Hset : viewStep css server c (Settle 0)
                     (viewRequest server c (mkView false false "" b []) e1 e2)
                   = mkView e1 e2 (documentText (server (requests b) req))
                       (viewBrowser (viewRequest server c (mkView false false "" b [])
                                       e1 e2)) []).
    { unfold viewStep. cbv zeta. rewrite Hwx. reflexivity. }
    rewrite Hset in Hs'.
    rewrite (CandidateFacts.seen_browser _ _ _ Hs), (CandidateFacts.seen_browser _ _ _ Hs'),
      (CandidateFacts.seen_region _ _ _ Hs), (CandidateFacts.seen_region _ _ _ Hs').
    unfold awaited. rewrite (proj2 Hs), (proj2 Hs'). cbn [fst waiting viewWaiting map
      viewText viewBrowser].
    rewrite Hwx, Htx, Hrq, Hal, map_map. cbn [map answer].
    repeat split.
    + unfold failed, documentText.
      destruct (server (requests b) req) as [|[|] [| |d]]; cbn; intros; try reflexivity;
        discriminate.
    + intros d s Hd Hc. rewrite Hd. cbn [documentText]. now rewrite Hc.
  - intros Hf. rewrite Hfound in Hf.
    destruct e as [ev|ev|k]; try discriminate.
    rewrite Hf in Hstep. rewrite Hstep in Hs.
    rewrite (CandidateFacts.seen_region _ _ _ Hs).
    unfold awaited. rewrite (proj2 Hs). repeat split.
Qed.

Lemma first_expand_loads_document_witness :
  cvRegionText (candEvents strict offline [OnCv (HRCard.KeyDown "Enter"); Settle 0]
                  strandedCard)
  = Some "(No CV)"%string.
Proof.
  exact (proj1 (proj2 (proj2 (proj2 (proj2 (proj2 (proj2 (proj2
           (proj1 (proj2
              (first_expand_loads_document strict offline exampleCandidate
                 (mkBrowser [] []) strandedCard (OnCv (HRCard.KeyDown "Enter")) "d9"
                 eq_refl ltac:(discriminate) eq_refl eq_refl))
              eq_refl))))))))
           eq_refl).
Defined.

(** X22.  Saving a candidate: the first click on Edit enables the name
    input, labels the button Save and sends nothing; after a name is
    typed, the click on Save sends one PATCH request with the typed
    name, disables the input and labels the button Edit.  When the
    server accepts the request, the candidate object holds the typed
    name and the title shows it, or (Unnamed) when it is empty, and no
    alert is raised; when the request fails, the alert is raised and
    the candidate object and the title are as they were. *)
Theorem save_updates_candidate (css : Css) (server : Server) (c : Candidate.t)
  (b : Browser) (card0 : CandCard) (v : string) :
  buildCandidateCard css server c b = Ok card0 ->
  let entered := snd (clickCandidateEdit server card0) in
  let typed := typeName v entered in
  let saved := clickCandidateEdit server typed in
  let after := snd saved in
  snd (HRCard.world entered) = b
  /\ option_map disabled (nameInput entered) = Some false
  /\ candEditLabel entered = Some "Save"%string
  /\ fst saved = Returned tt
  /\ requests (snd (HRCard.world after)) = requests b ++ [saveCandidateRequest c v]
  /\ option_map disabled (nameInput after) = Some true
  /\ option_map valueOf (nameInput after) = Some v
  /\ candEditLabel after = Some "Edit"%string
  /\ (failed (server (requests b) (saveCandidateRequest c v)) = false ->
      alerts (snd (HRCard.world after)) = alerts b
      /\ candidateOf after
         = Candidate.mk (Candidate.id c) (Some v) (Candidate.candidate_cv_id c)
      /\ candTitle after = Some (if String.eqb v "" then "(Unnamed)" else v)%string)
  /\ (failed (server (requests b) (saveCandidateRequest c v)) = true ->
      alerts (snd (HRCard.world after)) = alerts b ++ ["Failed to save candidate"%string]
      /\ candidateOf after = c
      /\ candTitle after = candTitle card0).
Proof.
  intros Hb.
  destruct (CandidateFacts.build_seen _ _ _ _ _ Hb) as [Hr Hw].
  destruct card0 as [r w calls].
  cbn [HRCard.root HRCard.world viewExpanded viewCvExpanded viewText viewBrowser
       viewWaiting map] in Hr, Hw.
  subst r w.
  destruct c as [cid cname ccv]. destruct b as [reqs als].
  unfold saveCandidateRequest, candCardNode, candHeaderMarkup, text.
  cbn [Candidate.id Candidate.candidate_name Candidate.candidate_cv_id].
  destruct (String.eqb (shown _) "") eqn:Et; destruct v as [|v0 v];
    CandidateFacts.run_hooks; rewrite ?Et;
    match goal with
    | |- context [server ?l ?r] => destruct (server l r) as [|[|] bd]
    end; CandidateFacts.run_hooks; rewrite ?Et, ?CandidateFacts.append_empty;
    repeat split; intros; try discriminate; repeat split.
Qed.

Lemma save_updates_candidate_witness :
  candTitle (snd (clickCandidateEdit withDocuments
               (typeName "Anne"
                  (snd (clickCandidateEdit withDocuments exampleCandidateCard)))))
  = Some "Anne"%string.
Proof.
  pose proof (save_updates_candidate strict withDocuments exampleCandidate
                (mkBrowser [] []) exampleCandidateCard "Anne" eq_refl) as H.
  exact (proj2 (proj2 (proj1 (proj2 (proj2 (proj2 (proj2 (proj2 (proj2 (proj2 (proj2 H))))))))
                         eq_refl))).
Defined.
